(** * Innogate: the authorization layer of the paper-sharing server

    A shallow embedding of [server/src/lib/fga.ts] and of the handlers of
    [server/src/routes/pdfs.ts], [server/src/routes/pdf-suggestions.ts],
    [server/src/routes/pdf-rag.ts] and [server/src/routes/researchers.ts].

    The handlers are [async] functions that talk to three outside parties: the
    relational database, the upload directory and the authorization service.
    They are modelled in a state-and-exception monad over a [World] that holds
    the tables, the files, the tuples kept by the authorization service and
    the outcome of each upcoming call to that service, together with what is
    the business of libraries: whether the constructor of the service's
    client accepts a configuration, and the order in which the database
    returns the rows of a query that has no [ORDER BY]. *)

From Stdlib Require Import Ascii String List Bool Arith Lia PrimFloat.
From stdpp Require Import gmap strings list.
Import ListNotations.

Set Warnings "-inexact-float,-clear-no-such-hyp".

Local Open Scope string_scope.
Local Open Scope list_scope.

(** ** Values thrown and returned *)

Inductive Exn : Type := Error (message : string).

Inductive Result (A : Type) : Type :=
| Returned (a : A)
| Threw (e : Exn).
Arguments Returned {A} a.
Arguments Threw {A} e.

(** JavaScript truthiness of an optional string ([undefined], [null] and the
    empty string are falsy). *)
Definition truthy (s : option string) : bool :=
  match s with
  | Some s => negb (String.eqb s "")
  | None => false
  end.

(** [a || b] on optional strings. *)
Definition or_else (a b : option string) : option string :=
  if truthy a then a else b.

(** ** The relational schema ([server/src/db/schema.ts]) *)

Module users.
Record row := { id : string; email : string; auth0Sub : string }.
End users.

Module linkedResearchers.
Record row := {
  id : string; userId : string; orcidId : string;
  researcherName : option string; createdAt : nat }.
End linkedResearchers.

Module uploadedPdfs.
Record row := {
  id : string; ownerId : string; workId : string;
  workTitle : option string; orcidId : option string;
  researcherName : option string;
  fileName : string; originalName : string; uploadedAt : nat }.
End uploadedPdfs.

Module pdfShareRequests.
Record row := {
  id : string; pdfId : string; fromUserId : string; toUserId : string;
  createdAt : nat }.
End pdfShareRequests.

Module pdfAccess.
Record row := {
  id : string; pdfId : string; userId : string; grantedAt : nat }.
End pdfAccess.

(** A table is the list of its rows, oldest first. *)
Record Db := {
  t_users : list users.row;
  t_linkedResearchers : list linkedResearchers.row;
  t_uploadedPdfs : list uploadedPdfs.row;
  t_pdfShareRequests : list pdfShareRequests.row;
  t_pdfAccess : list pdfAccess.row }.

(** ** The authorization service *)

(** [relation: "owner" | "viewer"] *)
Inductive Relation : Type := owner | viewer.

Definition relation_name (r : Relation) : string :=
  match r with owner => "owner" | viewer => "viewer" end.

Definition relation_eqb (a b : Relation) : bool :=
  match a, b with
  | owner, owner | viewer, viewer => true
  | _, _ => false
  end.

Record Tuple := { user : string; relation : Relation; object : string }.

Definition tuple_eqb (a b : Tuple) : bool :=
  String.eqb (user a) (user b) && relation_eqb (relation a) (relation b)
  && String.eqb (object a) (object b).

(** What the service does with one call: it answers, it answers with a body
    that leaves a negative [allowed] out, or the call is rejected (transport
    or service error). *)
Inductive Outcome : Type :=
| Responds
| RespondsBare
| Rejects (e : Exn).

Inductive Call : Type :=
| Check (t : Tuple)
| Write (writes deletes : list Tuple).

(** The service is a black box that stores tuples; [outcomes] lists what it
    does with the calls to come (it answers once the list is used up). Any
    reason the service has to refuse a call, an outage or a tuple that is
    already there, is a [Rejects] in that list. *)
Record Service := {
  tuples : list Tuple;
  outcomes : list Outcome }.

Definition holds (t : Tuple) (held : list Tuple) : bool :=
  existsb (tuple_eqb t) held.

Definition stored (t : Tuple) (s : Service) : bool := holds t (tuples s).

(** The configuration handed to [new OpenFgaClient(...)]; every value comes
    from [process.env] and may be missing. *)
Record Configuration := {
  apiUrl : option string;
  storeId : option string;
  authorizationModelId : option string;
  clientId : option string;
  clientSecret : option string;
  apiTokenIssuer : option string;
  apiAudience : option string }.

(** ** The world a handler runs in *)

Inductive Level : Type := info | warn | error.

Record LogEntry := { level : Level; text : string; thrown : option Exn }.

(** Side effects in the order they happened. *)
Inductive Effect : Type :=
| Inserted (table rowId : string)
| Updated (table rowId : string)
| Deleted (table rowId : string)
| Graph (c : Call).

(** [sdk] is the verdict of the constructor [new OpenFgaClient] on a
    configuration: the error it throws, if it throws. [row_rank] is the order
    the database gives to the rows of a query without [ORDER BY], table by
    table (see [arranged] below). Neither is changed by a handler. *)
Record World := mkWorld {
  env : gmap string string;       (* process.env *)
  db : Db;
  disk : list string;             (* files of UPLOAD_DIR *)
  disk_writable : bool;
  service : Service;
  console : list LogEntry;
  journal : list Effect;
  entropy : nat -> string;        (* values of randomUUID / defaultRandom *)
  drawn : nat;
  now : nat;
  sdk : Configuration -> option Exn;
  row_rank : string -> nat -> nat }.  (* by table *)

Definition set_db (f : Db -> Db) (w : World) : World :=
  mkWorld (env w) (f (db w)) (disk w) (disk_writable w) (service w)
          (console w) (journal w) (entropy w) (drawn w) (now w) (sdk w) (row_rank w).

Definition set_disk (f : list string -> list string) (w : World) : World :=
  mkWorld (env w) (db w) (f (disk w)) (disk_writable w) (service w)
          (console w) (journal w) (entropy w) (drawn w) (now w) (sdk w) (row_rank w).

Definition set_service (s : Service) (w : World) : World :=
  mkWorld (env w) (db w) (disk w) (disk_writable w) s
          (console w) (journal w) (entropy w) (drawn w) (now w) (sdk w) (row_rank w).

Definition add_log (e : LogEntry) (w : World) : World :=
  mkWorld (env w) (db w) (disk w) (disk_writable w) (service w)
          (console w ++ [e]) (journal w) (entropy w) (drawn w) (now w)
          (sdk w) (row_rank w).

Definition add_effect (e : Effect) (w : World) : World :=
  mkWorld (env w) (db w) (disk w) (disk_writable w) (service w)
          (console w) (journal w ++ [e]) (entropy w) (drawn w) (now w)
          (sdk w) (row_rank w).

Definition draw (w : World) : World :=
  mkWorld (env w) (db w) (disk w) (disk_writable w) (service w)
          (console w) (journal w) (entropy w) (S (drawn w)) (now w)
          (sdk w) (row_rank w).

(** ** The monad of handlers *)

Definition M (A : Type) : Type := World -> Result A * World.

Definition ret {A} (a : A) : M A := fun w => (Returned a, w).

Definition throw {A} (e : Exn) : M A := fun w => (Threw e, w).

Definition bind {A B} (m : M A) (k : A -> M B) : M B :=
  fun w =>
    match m w with
    | (Returned a, w') => k a w'
    | (Threw e, w') => (Threw e, w')
    end.

(** [try { m } catch (e) { h e }] *)
Definition try_catch {A} (m : M A) (h : Exn -> M A) : M A :=
  fun w =>
    match m w with
    | (Returned a, w') => (Returned a, w')
    | (Threw e, w') => h e w'
    end.

Definition lift {A} (r : Result A) : M A := fun w => (r, w).

Definition gets {A} (f : World -> A) : M A := fun w => (Returned (f w), w).

Definition modify (f : World -> World) : M unit := fun w => (Returned tt, f w).

Notation "x <- m ;; k" := (bind m (fun x => k))
  (at level 100, m at next level, right associativity).
Notation "m ;;; k" := (bind m (fun _ => k))
  (at level 100, right associativity).

Definition log (l : Level) (t : string) (e : option Exn) : M unit :=
  modify (add_log {| level := l; text := t; thrown := e |}).

(** [randomUUID()], and the [defaultRandom()] of a primary key. *)
Definition randomUUID : M string :=
  fun w => (Returned (entropy w (drawn w)), draw w).

(** [process.env.FGA_STORE_ID] as a condition. *)
Definition fga_configured (w : World) : bool :=
  truthy (env w !! "FGA_STORE_ID").

(** ** [server/src/lib/fga.ts] *)

(** The object that [getFGAClient] passes to the constructor. *)
Definition configuration_of (e : gmap string string) : Configuration :=
  {| apiUrl := e !! "FGA_API_URL";
     storeId := e !! "FGA_STORE_ID";
     authorizationModelId := e !! "FGA_MODEL_ID";
     clientId := e !! "FGA_CLIENT_ID";
     clientSecret := e !! "FGA_CLIENT_SECRET";
     apiTokenIssuer := e !! "FGA_API_TOKEN_ISSUER";
     apiAudience := e !! "FGA_API_AUDIENCE" |}.

Record Client := { configuration : Configuration }.

(** [new OpenFgaClient(configuration)]: the constructor validates the
    configuration and throws when it does not accept it (a required
    parameter is missing, a value is malformed). *)
Definition OpenFgaClient_new (validate : Configuration -> option Exn)
    (c : Configuration) : Result Client :=
  match validate c with
  | Some e => Threw e
  | None => Returned {| configuration := c |}
  end.

Definition getFGAClient : M Client :=
  fun w => (OpenFgaClient_new (sdk w) (configuration_of (env w)), w).

Definition next_outcome (s : Service) : Outcome * list Outcome :=
  match outcomes s with
  | [] => (Responds, [])
  | o :: rest => (o, rest)
  end.

Record CheckResponse := { allowed : option bool }.

(** [fgaClient.check(request)]: the call is issued when the method is
    invoked; its result is what the promise settles to. *)
Definition Client_check (c : Client) (t : Tuple) : M CheckResponse :=
  fun w =>
    let (o, rest) := next_outcome (service w) in
    let w' := add_effect (Graph (Check t))
                (set_service {| tuples := tuples (service w); outcomes := rest |} w) in
    match o with
    | Responds => (Returned {| allowed := Some (stored t (service w)) |}, w')
    | RespondsBare =>
        (Returned {| allowed := if stored t (service w) then Some true else None |}, w')
    | Rejects e => (Threw e, w')
    end.

Definition remove_tuples (ds : list Tuple) (ts : list Tuple) : list Tuple :=
  List.filter (fun t => negb (existsb (tuple_eqb t) ds)) ts.

(** [fgaClient.write({writes, deletes})]: a rejected call leaves the stored
    tuples as they were. *)
Definition Client_write (c : Client) (writes deletes : list Tuple) : M unit :=
  fun w =>
    let (o, rest) := next_outcome (service w) in
    let w' := add_effect (Graph (Write writes deletes)) w in
    match o with
    | Rejects e =>
        (Threw e, set_service {| tuples := tuples (service w); outcomes := rest |} w')
    | _ =>
        (Returned tt,
         set_service {| tuples := remove_tuples deletes (tuples (service w)) ++ writes;
                        outcomes := rest |} w')
    end.

(** [allowed || false] *)
Definition or_false (b : option bool) : bool :=
  match b with Some true => true | _ => false end.

Definition canUserViewDocument (userEmail documentId : string) : M bool :=
  fgaClient <- getFGAClient ;;
  try_catch
    (r <- Client_check fgaClient
            {| user := "user:" +:+ userEmail; relation := viewer;
               object := "doc:" +:+ documentId |} ;;
     ret (or_false (allowed r)))
    (fun e =>
       log error "FGA check error:" (Some e) ;;;
       ret false).

Definition grantDocumentAccess (userEmail documentId : string) (relation : Relation)
  : M unit :=
  fgaClient <- getFGAClient ;;
  log info ("[FGA] Granting " +:+ relation_name relation +:+ " access to doc:"
            +:+ documentId +:+ " for user:" +:+ userEmail) None ;;;
  try_catch
    (result <- Client_write fgaClient
                 [ {| user := "user:" +:+ userEmail; relation := relation;
                      object := "doc:" +:+ documentId |} ] [] ;;
     log info "[FGA] Successfully granted access:" None ;;;
     ret result)
    (fun e =>
       log error "[FGA] Failed to grant access:" (Some e) ;;;
       throw e).

Definition revokeDocumentAccess (userEmail documentId : string) (relation : Relation)
  : M unit :=
  fgaClient <- getFGAClient ;;
  Client_write fgaClient []
    [ {| user := "user:" +:+ userEmail; relation := relation;
         object := "doc:" +:+ documentId |} ].

(** The promises made by [checks.map((check) => fgaClient.check(check))]:
    every call is issued, whatever the others do. *)
Fixpoint dispatch {A} (ms : list (M A)) : World -> list (Result A) * World :=
  fun w =>
    match ms with
    | [] => ([], w)
    | m :: rest =>
        let (r, w1) := m w in
        let (rs, w2) := dispatch rest w1 in
        (r :: rs, w2)
    end.

(** [Promise.all]: the values in order, or the first rejection. *)
Fixpoint Promise_all {A} (rs : list (Result A)) : Result (list A) :=
  match rs with
  | [] => Returned []
  | Threw e :: _ => Threw e
  | Returned a :: rest =>
      match Promise_all rest with
      | Returned l => Returned (a :: l)
      | Threw e => Threw e
      end
  end.

Definition await_all {A} (ms : list (M A)) : M (list A) :=
  fun w => let (rs, w') := dispatch ms w in (Promise_all rs, w').

Definition bool_name (b : bool) : string := if b then "true" else "false".

(** [documentIds.forEach((docId, index) => { results[docId] = ...; log })] *)
Fixpoint record_responses (documentIds : list string) (index : nat)
    (responses : list CheckResponse) (results : gmap string bool)
  : M (gmap string bool) :=
  match documentIds with
  | [] => ret results
  | docId :: rest =>
      match responses !! index with
      | None => throw (Error "TypeError: Cannot read properties of undefined")
      | Some r =>
          let results' := <[docId := or_false (allowed r)]> results in
          log info ("[FGA] doc:" +:+ docId +:+ " - allowed: "
                    +:+ bool_name (or_false (allowed r))) None ;;;
          record_responses rest (S index) responses results'
      end
  end.

(** [documentIds.forEach((docId) => { results[docId] = false })] *)
Definition all_false (documentIds : list string) (results : gmap string bool)
  : gmap string bool :=
  fold_left (fun acc docId => <[docId := false]> acc) documentIds results.

(** [results] is an object used as a map from document identifiers (the
    primary keys of [uploaded_pdfs]) to booleans. It is filled only after
    every check has settled; the [catch] block writes [false] under every
    identifier of the list. *)
Definition batchCheckDocumentAccess (userEmail : string) (documentIds : list string)
  : M (gmap string bool) :=
  fgaClient <- getFGAClient ;;
  let results : gmap string bool := ∅ in
  log info ("[FGA] Batch checking access for user:" +:+ userEmail +:+ ", documents:")
      None ;;;
  try_catch
    (let checks := map (fun docId =>
                          {| user := "user:" +:+ userEmail; relation := viewer;
                             object := "doc:" +:+ docId |}) documentIds in
     responses <- await_all (map (fun check => Client_check fgaClient check) checks) ;;
     record_responses documentIds 0 responses results)
    (fun e =>
       log error "[FGA] Batch check error:" (Some e) ;;;
       ret (all_false documentIds results)).

(** [getUserAccessibleDocuments] needs [listObjects], which no handler below
    calls; it is left out. *)

(** ** The database driver

    A statement fails only where the schema forbids its result (a unique
    constraint); a lost connection is not modelled. *)

(** The order of a result without [ORDER BY] is the database's choice. The
    row at position [i] of the table-order result is given the rank
    [rank i], and the rows come back by increasing rank, rows of equal rank
    in table order. Every order of the rows is the order of some [rank]. *)
Fixpoint insert_by_rank {A} (k : nat) (x : A) (l : list (nat * A)) : list (nat * A) :=
  match l with
  | [] => [(k, x)]
  | (k', y) :: rest =>
      if Nat.leb k k' then (k, x) :: (k', y) :: rest
      else (k', y) :: insert_by_rank k x rest
  end.

Fixpoint ranked {A} (rank : nat -> nat) (i : nat) (rows : list A) : list (nat * A) :=
  match rows with
  | [] => []
  | x :: rest => insert_by_rank (rank i) x (ranked rank (S i) rest)
  end.

Definition arranged {A} (rank : nat -> nat) (rows : list A) : list A :=
  map snd (ranked rank 0 rows).

Definition set_linkedResearchers
    (f : list linkedResearchers.row -> list linkedResearchers.row) (d : Db) : Db :=
  {| t_users := t_users d;
     t_linkedResearchers := f (t_linkedResearchers d);
     t_uploadedPdfs := t_uploadedPdfs d;
     t_pdfShareRequests := t_pdfShareRequests d;
     t_pdfAccess := t_pdfAccess d |}.

Definition set_uploadedPdfs
    (f : list uploadedPdfs.row -> list uploadedPdfs.row) (d : Db) : Db :=
  {| t_users := t_users d;
     t_linkedResearchers := t_linkedResearchers d;
     t_uploadedPdfs := f (t_uploadedPdfs d);
     t_pdfShareRequests := t_pdfShareRequests d;
     t_pdfAccess := t_pdfAccess d |}.

Definition set_pdfShareRequests
    (f : list pdfShareRequests.row -> list pdfShareRequests.row) (d : Db) : Db :=
  {| t_users := t_users d;
     t_linkedResearchers := t_linkedResearchers d;
     t_uploadedPdfs := t_uploadedPdfs d;
     t_pdfShareRequests := f (t_pdfShareRequests d);
     t_pdfAccess := t_pdfAccess d |}.

Definition set_pdfAccess
    (f : list pdfAccess.row -> list pdfAccess.row) (d : Db) : Db :=
  {| t_users := t_users d;
     t_linkedResearchers := t_linkedResearchers d;
     t_uploadedPdfs := t_uploadedPdfs d;
     t_pdfShareRequests := t_pdfShareRequests d;
     t_pdfAccess := f (t_pdfAccess d) |}.

(** [db.query.<table>.findFirst({ where })] *)
Definition findFirst {A} (table : Db -> list A) (where_ : A -> bool) : M (option A) :=
  gets (fun w => List.find where_ (table (db w))).

Definition record_effects (es : list Effect) : M unit :=
  modify (fun w => fold_left (fun w e => add_effect e w) es w).

(** [db.insert(uploadedPdfs).values(...).returning()], under the constraint
    [unique().on(ownerId, workId)]. *)
Definition insert_uploadedPdfs (ownerId workId fileName originalName : string)
    (workTitle orcidId researcherName : option string) : M (list uploadedPdfs.row) :=
  id <- randomUUID ;;
  at_ <- gets now ;;
  rows <- gets (fun w => t_uploadedPdfs (db w)) ;;
  if existsb (fun r => String.eqb (uploadedPdfs.ownerId r) ownerId
                       && String.eqb (uploadedPdfs.workId r) workId) rows
  then throw (Error "duplicate key value violates unique constraint")
  else
    let r := {| uploadedPdfs.id := id; uploadedPdfs.ownerId := ownerId;
                uploadedPdfs.workId := workId; uploadedPdfs.workTitle := workTitle;
                uploadedPdfs.orcidId := orcidId;
                uploadedPdfs.researcherName := researcherName;
                uploadedPdfs.fileName := fileName;
                uploadedPdfs.originalName := originalName;
                uploadedPdfs.uploadedAt := at_ |} in
    modify (set_db (set_uploadedPdfs (fun t => t ++ [r]))) ;;;
    record_effects [Inserted "uploaded_pdfs" id] ;;;
    ret [r].

(** [db.update(uploadedPdfs).set(...).where(...).returning()]; the columns
    that are set are not under a constraint. *)
Definition update_uploadedPdfs (set_ : uploadedPdfs.row -> uploadedPdfs.row)
    (where_ : uploadedPdfs.row -> bool) : M (list uploadedPdfs.row) :=
  rows <- gets (fun w => t_uploadedPdfs (db w)) ;;
  let updated := map set_ (List.filter where_ rows) in
  modify (set_db (set_uploadedPdfs (map (fun r => if where_ r then set_ r else r)))) ;;;
  record_effects (map (fun r => Updated "uploaded_pdfs" (uploadedPdfs.id r)) updated) ;;;
  ret updated.

(** [db.insert(linkedResearchers).values(...).onConflictDoNothing()], under
    [unique().on(userId, orcidId)]. *)
Definition insert_linkedResearchers (userId orcidId : string)
    (researcherName : option string) : M unit :=
  id <- randomUUID ;;
  at_ <- gets now ;;
  rows <- gets (fun w => t_linkedResearchers (db w)) ;;
  if existsb (fun r => String.eqb (linkedResearchers.userId r) userId
                       && String.eqb (linkedResearchers.orcidId r) orcidId) rows
  then ret tt
  else
    modify (set_db (set_linkedResearchers (fun t => t ++
      [ {| linkedResearchers.id := id; linkedResearchers.userId := userId;
           linkedResearchers.orcidId := orcidId;
           linkedResearchers.researcherName := researcherName;
           linkedResearchers.createdAt := at_ |} ]))) ;;;
    record_effects [Inserted "linked_researchers" id].

(** [db.insert(pdfAccess).values(...).onConflictDoNothing()], under
    [unique().on(pdfId, userId)]. *)
Definition insert_pdfAccess (pdfId userId : string) : M unit :=
  id <- randomUUID ;;
  at_ <- gets now ;;
  rows <- gets (fun w => t_pdfAccess (db w)) ;;
  if existsb (fun r => String.eqb (pdfAccess.pdfId r) pdfId
                       && String.eqb (pdfAccess.userId r) userId) rows
  then ret tt
  else
    modify (set_db (set_pdfAccess (fun t => t ++
      [ {| pdfAccess.id := id; pdfAccess.pdfId := pdfId;
           pdfAccess.userId := userId; pdfAccess.grantedAt := at_ |} ]))) ;;;
    record_effects [Inserted "pdf_access" id].

(** [db.delete(pdfShareRequests).where(...)] *)
Definition delete_pdfShareRequests (where_ : pdfShareRequests.row -> bool) : M unit :=
  rows <- gets (fun w => t_pdfShareRequests (db w)) ;;
  modify (set_db (set_pdfShareRequests (List.filter (fun r => negb (where_ r))))) ;;;
  record_effects (map (fun r => Deleted "pdf_share_requests" (pdfShareRequests.id r))
                      (List.filter where_ rows)).

(** ** The upload directory *)

(** [pipeline(data.file, createWriteStream(filePath))] *)
Definition pipeline (fileName : string) : M unit :=
  fun w =>
    if disk_writable w
    then (Returned tt, set_disk (fun d => d ++ [fileName]) w)
    else (Threw (Error "EACCES: permission denied"), w).

Definition unlink (fileName : string) : M unit :=
  fun w =>
    if existsb (String.eqb fileName) (disk w)
    then (Returned tt, set_disk (List.filter (fun f => negb (String.eqb fileName f))) w)
    else (Threw (Error "ENOENT: no such file or directory"), w).

(** ** Replies *)

Record Suggestion := {
  s_id : string; s_workId : string; s_workTitle : option string;
  s_originalName : string; s_orcidId : option string;
  s_researcherName : option string; s_uploadedAt : nat;
  isOwner : bool; relevanceScore : float }.

Inductive Body : Type :=
| Message (message : string)
| ErrorBody (error_ : string)
| StoredPdf (id workId originalName : string) (uploadedAt : nat)
| NoSuggestions (message : string)
| Suggestions (suggestions : list Suggestion) (query : string)
              (totalAccessiblePdfs : nat)
| Success.

Record Reply := { code : nat; body : Body }.

(** [reply.send(body)] answers 200. *)
Definition send (b : Body) : Reply := {| code := 200; body := b |}.

Definition send_code (c : nat) (b : Body) : Reply := {| code := c; body := b |}.

(** The value of a string that passed an [if (!s)] guard. *)
Definition present (s : option string) : option string :=
  if truthy s then s else None.

(** ** [server/src/routes/pdfs.ts] *)

Record UploadRequest := {
  upload_workId : option string;
  upload_workTitle : option string;
  upload_orcidId : option string;
  upload_researcherName : option string;
  upload_email : option string;       (* the e-mail claim of the token *)
  upload_file : option string }.      (* data.filename *)

Fixpoint last_segment (s acc : string) : string :=
  match s with
  | EmptyString => acc
  | String c rest =>
      if Ascii.eqb c "."%char then last_segment rest ""
      else last_segment rest (acc +:+ String c "")
  end.

(** [data.filename.split(".").pop() || "pdf"] *)
Definition fileExtension (filename : string) : string :=
  let e := last_segment filename "" in
  if String.eqb e "" then "pdf" else e.

Definition type_error {A} : M A :=
  throw (Error "TypeError: Cannot read properties of undefined").

(** [const [x] = rows; x.field] *)
Definition first_row {A} (rows : list A) : M A :=
  match rows with
  | r :: _ => ret r
  | [] => type_error
  end.

(** Lines 192-202, "Grant FGA access to owner (if FGA is configured)". *)
Definition upload_grant (userEmail documentId : string) : M unit :=
  configured <- gets fga_configured ;;
  if configured then
    try_catch
      (grantDocumentAccess userEmail documentId owner ;;;
       grantDocumentAccess userEmail documentId viewer ;;;
       log info ("FGA access granted for document "
                 +:+ documentId +:+ " to " +:+ userEmail) None)
      (fun fgaError => log error "Failed to grant FGA access" (Some fgaError))
  else ret tt.

(** Lines 537-546, "Grant FGA access (if FGA is configured)". *)
Definition accept_grant (userEmail documentId : string) : M unit :=
  configured <- gets fga_configured ;;
  if configured then
    try_catch
      (grantDocumentAccess userEmail documentId viewer ;;;
       log info ("FGA viewer access granted for document "
                 +:+ documentId +:+ " to " +:+ userEmail) None)
      (fun fgaError => log error "Failed to grant FGA access" (Some fgaError))
  else ret tt.

(** POST /api/pdfs/upload *)
Definition upload (req : UploadRequest) : M Reply :=
  match present (upload_workId req) with
  | None => ret (send_code 400 (Message "Work ID is required"))
  | Some workId =>
  match present (upload_email req) with
  | None => ret (send_code 401 (Message "Unauthorized"))
  | Some userEmail =>
  try_catch
    (user <- findFirst t_users (fun u => String.eqb (users.email u) userEmail) ;;
     match user with
     | None => ret (send_code 404 (Message "User not found"))
     | Some user =>
     match upload_file req with
     | None => ret (send_code 400 (Message "No file uploaded"))
     | Some filename =>
       existing <- findFirst t_uploadedPdfs
                     (fun p => String.eqb (uploadedPdfs.ownerId p) (users.id user)
                               && String.eqb (uploadedPdfs.workId p) workId) ;;
       uuid <- randomUUID ;;
       let uniqueFileName := uuid +:+ "." +:+ fileExtension filename in
       pipeline uniqueFileName ;;;
       match existing with
       | Some existing =>
           try_catch (unlink (uploadedPdfs.fileName existing))
                     (fun err => log warn "Failed to delete old file:" (Some err)) ;;;
           at_ <- gets now ;;
           rows <- update_uploadedPdfs
                     (fun r =>
                        {| uploadedPdfs.id := uploadedPdfs.id r;
                           uploadedPdfs.ownerId := uploadedPdfs.ownerId r;
                           uploadedPdfs.workId := uploadedPdfs.workId r;
                           uploadedPdfs.workTitle :=
                             or_else (upload_workTitle req) (uploadedPdfs.workTitle existing);
                           uploadedPdfs.orcidId :=
                             or_else (upload_orcidId req) (uploadedPdfs.orcidId existing);
                           uploadedPdfs.researcherName :=
                             or_else (upload_researcherName req)
                                     (uploadedPdfs.researcherName existing);
                           uploadedPdfs.fileName := uniqueFileName;
                           uploadedPdfs.originalName := filename;
                           uploadedPdfs.uploadedAt := at_ |})
                     (fun r => String.eqb (uploadedPdfs.id r) (uploadedPdfs.id existing)) ;;
           updated <- first_row rows ;;
           ret (send (StoredPdf (uploadedPdfs.id updated) (uploadedPdfs.workId updated)
                                (uploadedPdfs.originalName updated)
                                (uploadedPdfs.uploadedAt updated)))
       | None =>
           rows <- insert_uploadedPdfs (users.id user) workId uniqueFileName filename
                     (or_else (upload_workTitle req) None)
                     (or_else (upload_orcidId req) None)
                     (or_else (upload_researcherName req) None) ;;
           uploaded <- first_row rows ;;
           upload_grant userEmail (uploadedPdfs.id uploaded) ;;;
           ret (send (StoredPdf (uploadedPdfs.id uploaded) (uploadedPdfs.workId uploaded)
                                (uploadedPdfs.originalName uploaded)
                                (uploadedPdfs.uploadedAt uploaded)))
       end
     end
     end)
    (fun e =>
       log error "" (Some e) ;;;
       ret (send_code 500 (Message "Failed to upload PDF")))
  end
  end.

Record AcceptRequest := {
  accept_id : string;                 (* request.params.id *)
  accept_email : option string }.

(** POST /api/pdfs/share-requests/:id/accept *)
Definition accept (req : AcceptRequest) : M Reply :=
  let id := accept_id req in
  match present (accept_email req) with
  | None => ret (send_code 401 (Message "Unauthorized"))
  | Some userEmail =>
  try_catch
    (user <- findFirst t_users (fun u => String.eqb (users.email u) userEmail) ;;
     match user with
     | None => ret (send_code 404 (Message "User not found"))
     | Some user =>
       shareRequest <- findFirst t_pdfShareRequests
                         (fun r => String.eqb (pdfShareRequests.id r) id
                                   && String.eqb (pdfShareRequests.toUserId r)
                                                 (users.id user)) ;;
       match shareRequest with
       | None => ret (send_code 404 (Message "Share request not found"))
       | Some shareRequest =>
         (* with: { pdf: true } *)
         pdf <- findFirst t_uploadedPdfs
                  (fun p => String.eqb (uploadedPdfs.id p)
                                       (pdfShareRequests.pdfId shareRequest)) ;;
         match pdf with
         | None => type_error
         | Some pdf =>
           (match present (uploadedPdfs.orcidId pdf),
                  present (uploadedPdfs.researcherName pdf) with
            | Some orcidId, Some researcherName =>
                existingLink <- findFirst t_linkedResearchers
                                  (fun l => String.eqb (linkedResearchers.userId l)
                                                       (users.id user)
                                            && String.eqb (linkedResearchers.orcidId l)
                                                          orcidId) ;;
                match existingLink with
                | Some _ => ret tt
                | None => insert_linkedResearchers (users.id user) orcidId
                                                   (Some researcherName)
                end
            | _, _ => ret tt
            end) ;;;
           insert_pdfAccess (pdfShareRequests.pdfId shareRequest) (users.id user) ;;;
           accept_grant userEmail (pdfShareRequests.pdfId shareRequest) ;;;
           delete_pdfShareRequests
             (fun r => String.eqb (pdfShareRequests.id r) id) ;;;
           ret (send (Message "Share request accepted"))
         end
       end
     end)
    (fun e =>
       log error "" (Some e) ;;;
       ret (send_code 500 (Message "Failed to accept share request")))
  end.

(** ** [server/src/routes/pdf-suggestions.ts] *)

(** JavaScript numbers are IEEE 754 doubles: the kernel's [float]. Reading an
    array past its end gives [undefined], which is [NaN] in arithmetic. *)
Definition at_index (v : list float) (i : nat) : float := nth i v PrimFloat.nan.

Definition cosine_step (vecA vecB : list float) (acc : float * float * float)
    (i : nat) : float * float * float :=
  let '(dotProduct, normA, normB) := acc in
  (PrimFloat.add dotProduct (PrimFloat.mul (at_index vecA i) (at_index vecB i)),
   PrimFloat.add normA (PrimFloat.mul (at_index vecA i) (at_index vecA i)),
   PrimFloat.add normB (PrimFloat.mul (at_index vecB i) (at_index vecB i))).

Definition cosineSimilarity (vecA vecB : list float) : Result float :=
  if negb (Nat.eqb (length vecA) (length vecB))
  then Threw (Error "Vectors must have the same length")
  else
    let '(dotProduct, normA, normB) :=
      fold_left (cosine_step vecA vecB) (seq 0 (length vecA))
                (PrimFloat.zero, PrimFloat.zero, PrimFloat.zero) in
    let normA := PrimFloat.sqrt normA in
    let normB := PrimFloat.sqrt normB in
    if PrimFloat.eqb normA PrimFloat.zero || PrimFloat.eqb normB PrimFloat.zero
    then Returned PrimFloat.zero
    else Returned (PrimFloat.div dotProduct (PrimFloat.mul normA normB)).

(** The embedding service ([AzureOpenAIEmbeddings]) and the built-ins of the
    JavaScript engine that the ranking uses are outside this repository. *)
Record Embeddings := {
  embedQuery : string -> Result (list float);
  embedDocuments : list string -> Result (list (list float)) }.

Record Builtins := {
  String_trim : string -> string;
  Array_sort : forall A : Type, (A -> A -> float) -> list A -> list A;
  Math_round : float -> float }.

(** [request.body] is [undefined] when the request carries no body. *)
Record SuggestBody := { body_query : option string }.

Record SuggestRequest := {
  suggest_body : option SuggestBody;
  suggest_email : option string }.

Definition suggest_query (req : SuggestRequest) : option string :=
  match suggest_body req with
  | Some body => body_query body
  | None => None
  end.

(** The rows of [uploadedPdfs LEFT JOIN pdfAccess ON pdfAccess.pdfId =
    uploadedPdfs.id] that pass [ownerId = uid OR pdfAccess.userId = uid]: a
    document appears once per matching row of the join. The selected columns
    are those of the document. The rows are listed here in table order; the
    handler receives them [arranged]. *)
Definition select_accessiblePdfs (uid : string) (d : Db) : list uploadedPdfs.row :=
  flat_map
    (fun pdf =>
       let grants := List.filter (fun a => String.eqb (pdfAccess.pdfId a) (uploadedPdfs.id pdf))
                            (t_pdfAccess d) in
       let joined := match grants with
                     | [] => [None]
                     | _ => map Some grants
                     end in
       flat_map
         (fun a : option pdfAccess.row =>
            if String.eqb (uploadedPdfs.ownerId pdf) uid
               || match a with
                  | Some a => String.eqb (pdfAccess.userId a) uid
                  | None => false
                  end
            then [pdf] else [])
         joined)
    (t_uploadedPdfs d).

(** [array.map((x, index) => f(x, index))] with a callback that may throw. *)
Fixpoint map_indexed {A B} (f : A -> nat -> Result B) (l : list A) (index : nat)
  : Result (list B) :=
  match l with
  | [] => Returned []
  | x :: rest =>
      match f x index with
      | Threw e => Threw e
      | Returned y =>
          match map_indexed f rest (S index) with
          | Threw e => Threw e
          | Returned ys => Returned (y :: ys)
          end
      end
  end.

(** Lines 66-77 of the handler: the identifiers the user is authorized for,
    then the candidates among them. *)
Definition authorize (userEmail : string) (accessiblePdfs : list uploadedPdfs.row)
  : M (list uploadedPdfs.row) :=
  configured <- gets fga_configured ;;
  authorizedPdfIds <-
    (if configured then
       let pdfIds := map uploadedPdfs.id accessiblePdfs in
       accessResults <- batchCheckDocumentAccess userEmail pdfIds ;;
       ret (List.filter (fun id => match accessResults !! id with
                              | Some true => true
                              | _ => false
                              end) pdfIds)
     else ret (map uploadedPdfs.id accessiblePdfs)) ;;
  ret (List.filter (fun pdf => existsb (String.eqb (uploadedPdfs.id pdf)) authorizedPdfIds)
              accessiblePdfs).

Section Suggest.

Variable embeddings : Embeddings.
Variable js : Builtins.

Definition pdfText (pdf : uploadedPdfs.row) : string :=
  let title := match or_else (uploadedPdfs.workTitle pdf)
                              (Some (uploadedPdfs.originalName pdf)) with
               | Some t => t
               | None => ""
               end in
  let researcher := match or_else (uploadedPdfs.researcherName pdf) (Some "") with
                    | Some r => r
                    | None => ""
                    end in
  String_trim js (title +:+ " " +:+ researcher).

Definition to_suggestion (uid : string) (s : option uploadedPdfs.row * float)
  : Result Suggestion :=
  match fst s with
  | None => Threw (Error "TypeError: Cannot read properties of undefined")
  | Some pdf =>
      Returned
        {| s_id := uploadedPdfs.id pdf; s_workId := uploadedPdfs.workId pdf;
           s_workTitle := uploadedPdfs.workTitle pdf;
           s_originalName := uploadedPdfs.originalName pdf;
           s_orcidId := uploadedPdfs.orcidId pdf;
           s_researcherName := uploadedPdfs.researcherName pdf;
           s_uploadedAt := uploadedPdfs.uploadedAt pdf;
           isOwner := String.eqb (uploadedPdfs.ownerId pdf) uid;
           relevanceScore := Math_round js (PrimFloat.mul (snd s) 100%float) |}
  end.

(** Lines 86-129: embed, compare, sort, keep the best five above 0.3. *)
Definition rank (query uid : string) (authorizedPdfs : list uploadedPdfs.row)
  : Result (list Suggestion) :=
  match embedQuery embeddings query with
  | Threw e => Threw e
  | Returned queryEmbedding =>
  match embedDocuments embeddings (map pdfText authorizedPdfs) with
  | Threw e => Threw e
  | Returned pdfEmbeddings =>
  match map_indexed
          (fun pdfEmbed index =>
             match cosineSimilarity queryEmbedding pdfEmbed with
             | Threw e => Threw e
             | Returned similarity => Returned (authorizedPdfs !! index, similarity)
             end)
          pdfEmbeddings 0 with
  | Threw e => Threw e
  | Returned similarities =>
      map_indexed (fun s _ => to_suggestion uid s)
        (List.filter (fun s => PrimFloat.ltb 0.3%float (snd s))
           (firstn 5
              (Array_sort js _ (fun a b => PrimFloat.sub (snd b) (snd a))
                          similarities)))
        0
  end
  end
  end.

(** POST /api/pdf-suggestions/suggest. [const { query } = request.body] is
    the first statement, outside the [try]. The e-mail of [users] is unique:
    the user query returns at most one row. *)
Definition suggest (req : SuggestRequest) : M Reply :=
  match suggest_body req with
  | None => type_error
  | Some body =>
  match present (suggest_email req) with
  | None => ret (send_code 401 (ErrorBody "User email not found in token"))
  | Some userEmail =>
  match present (body_query body) with
  | None => ret (send_code 400 (ErrorBody "Query is required"))
  | Some query =>
  if Nat.eqb (String.length (String_trim js query)) 0
  then ret (send_code 400 (ErrorBody "Query is required"))
  else
  try_catch
    (users_ <- gets (fun w => List.filter (fun u => String.eqb (users.email u) userEmail)
                                     (t_users (db w))) ;;
     match users_ with
     | [] => ret (send_code 404 (ErrorBody "User not found"))
     | user :: _ =>
       accessiblePdfs <- gets (fun w => arranged (row_rank w "uploaded_pdfs")
                                          (select_accessiblePdfs (users.id user) (db w))) ;;
       if Nat.eqb (length accessiblePdfs) 0
       then ret (send (NoSuggestions "No PDFs available to suggest"))
       else
         authorizedPdfs <- authorize userEmail accessiblePdfs ;;
         if Nat.eqb (length authorizedPdfs) 0
         then ret (send (NoSuggestions "No authorized PDFs available"))
         else
           topSuggestions <- lift (rank query (users.id user) authorizedPdfs) ;;
           ret (send (Suggestions topSuggestions query (length authorizedPdfs)))
     end)
    (fun e =>
       log error "" (Some e) ;;;
       ret (send_code 500 (ErrorBody "Failed to generate suggestions")))
  end
  end
  end.

End Suggest.

(** ** What the service answers to a batch of checks *)

Definition answer (s : list Tuple) (o : Outcome) (t : Tuple) : Result CheckResponse :=
  match o with
  | Responds => Returned {| allowed := Some (holds t s) |}
  | RespondsBare => Returned {| allowed := if holds t s then Some true else None |}
  | Rejects e => Threw e
  end.

Fixpoint answers (s : list Tuple) (outs : list Outcome) (ts : list Tuple)
  : list (Result CheckResponse) :=
  match ts with
  | [] => []
  | t :: rest => answer s (hd Responds outs) t :: answers s (tl outs) rest
  end.

(** The outcome of the [i]-th call to come. *)
Definition outcome_at (w : World) (i : nat) : Outcome :=
  nth i (outcomes (service w)) Responds.

Definition rejected (o : Outcome) : bool :=
  match o with Rejects _ => true | _ => false end.

Definition viewer_of (userEmail docId : string) : Tuple :=
  {| user := "user:" +:+ userEmail; relation := viewer; object := "doc:" +:+ docId |}.

Definition owner_of (userEmail docId : string) : Tuple :=
  {| user := "user:" +:+ userEmail; relation := owner; object := "doc:" +:+ docId |}.

Definition tuple_of (userEmail : string) (r : Relation) (docId : string) : Tuple :=
  {| user := "user:" +:+ userEmail; relation := r; object := "doc:" +:+ docId |}.

(** The world after calls to the service that wrote [written], logs apart. *)
Definition after_service (written : list Tuple) (calls : list Call)
    (logs : list LogEntry) (w : World) : World :=
  mkWorld (env w) (db w) (disk w) (disk_writable w)
          {| tuples := tuples (service w) ++ written;
             outcomes := skipn (length calls) (outcomes (service w)) |}
          (console w ++ logs) (journal w ++ map Graph calls)
          (entropy w) (drawn w) (now w) (sdk w) (row_rank w).

(** [check(user, relation, doc)] on the tuples the service holds. *)
Definition check (w : World) (userEmail : string) (r : Relation) (docId : string) : bool :=
  stored {| user := "user:" +:+ userEmail; relation := r; object := "doc:" +:+ docId |}
         (service w).


(** The map that holds [f docId] under every [docId] of the list. *)
Definition table_of (f : string -> bool) (documentIds : list string)
    (results : gmap string bool) : gmap string bool :=
  fold_left (fun acc docId => <[docId := f docId]> acc) documentIds results.

(** Whether one of the next [n] calls is rejected. *)
Definition batch_rejected (w : World) (n : nat) : bool :=
  existsb rejected (firstn n (outcomes (service w))).

Definition with_console (c : list LogEntry) (w : World) : World :=
  mkWorld (env w) (db w) (disk w) (disk_writable w) (service w)
          c (journal w) (entropy w) (drawn w) (now w) (sdk w) (row_rank w).

(** The world after a batch of [n] checks, logs apart. *)
Definition after_checks (ts : list Tuple) (w : World) : World :=
  mkWorld (env w) (db w) (disk w) (disk_writable w)
          {| tuples := tuples (service w);
             outcomes := skipn (length ts) (outcomes (service w)) |}
          (console w) (journal w ++ map (fun t => Graph (Check t)) ts)
          (entropy w) (drawn w) (now w) (sdk w) (row_rank w).

(** ** Worlds to run the handlers in *)

Definition uuid_of (n : nat) : string :=
  "uuid-" +:+ String (ascii_of_nat (48 + n)) "".

Definition empty_db : Db :=
  {| t_users := []; t_linkedResearchers := []; t_uploadedPdfs := [];
     t_pdfShareRequests := []; t_pdfAccess := [] |}.

(** A complete configuration, and one that names the store and nothing
    else. *)
Definition configured_env : gmap string string :=
  list_to_map
    [ ("FGA_API_URL", "https://api.us1.fga.dev");
      ("FGA_STORE_ID", "01K8H70QJ0QN09G29PRGAM8F47");
      ("FGA_MODEL_ID", "01K8H7ZZWBQ3M6Y2C0V5T1XKNE");
      ("FGA_CLIENT_ID", "innogate-server");
      ("FGA_CLIENT_SECRET", "s3cr3t");
      ("FGA_API_TOKEN_ISSUER", "auth.fga.dev");
      ("FGA_API_AUDIENCE", "https://api.us1.fga.dev/") ].

Definition store_only_env : gmap string string :=
  {[ "FGA_STORE_ID" := "01K8H70QJ0QN09G29PRGAM8F47" ]}.

(** A constructor that asks for the address of the service and for the
    client credentials, and throws when one of them is missing. *)
Definition requires_parameters (c : Configuration) : option Exn :=
  if truthy (apiUrl c) && truthy (clientId c) && truthy (clientSecret c)
     && truthy (apiTokenIssuer c) && truthy (apiAudience c)
  then None
  else Some (Error "FgaRequiredParamError: a required parameter was not provided").

(** In these worlds the database returns rows in table order. *)
Definition world_of (e : gmap string string) (d : Db) (held : list Tuple)
    (outs : list Outcome) : World :=
  mkWorld e d [] true {| tuples := held; outcomes := outs |} [] [] uuid_of 0 0
          requires_parameters (fun _ i => i).

(** What the constructor throws in this world, if it throws. *)
Definition client_error (w : World) : option Exn := sdk w (configuration_of (env w)).

Definition client_builds (w : World) : bool :=
  match client_error w with None => true | Some _ => false end.

(** The reading of the batch check under which a rejected check costs only
    its own document: every document whose own check is answered is reported
    with that answer. *)
Definition fails_closed_per_item : Prop :=
  forall userEmail documentIds w results w' i docId,
    batchCheckDocumentAccess userEmail documentIds w = (Returned results, w') ->
    NoDup documentIds ->
    documentIds !! i = Some docId ->
    rejected (outcome_at w i) = false ->
    results !! docId = Some (check w userEmail viewer docId).

(** The reading of the single check under which no exception ever reaches
    its caller. *)
Definition check_never_throws : Prop :=
  forall userEmail documentId w,
    exists (b : bool) (w' : World),
      canUserViewDocument userEmail documentId w = (Returned b, w').

(** What the grants of an upload write and which calls they issue, in a
    world where the service is configured: nothing when the client cannot be
    built. *)
Definition upload_written (w : World) (userEmail docId : string) : list Tuple :=
  if negb (client_builds w) then []
  else if rejected (outcome_at w 0) then []
  else tuple_of userEmail owner docId
       :: (if rejected (outcome_at w 1) then [] else [tuple_of userEmail viewer docId]).

Definition upload_calls (w : World) (userEmail docId : string) : list Call :=
  if negb (client_builds w) then []
  else Write [tuple_of userEmail owner docId] []
       :: (if rejected (outcome_at w 0) then []
           else [Write [tuple_of userEmail viewer docId] []]).

(** The same for an accepted share. *)
Definition accept_written (w : World) (userEmail docId : string) : list Tuple :=
  if negb (client_builds w) then []
  else if rejected (outcome_at w 0) then [] else [tuple_of userEmail viewer docId].

Definition accept_calls (w : World) (userEmail docId : string) : list Call :=
  if negb (client_builds w) then []
  else [Write [tuple_of userEmail viewer docId] []].

(** ** Vocabulary for the upload handler *)

(** The request is well formed, its sender is a known user, a file came with
    it and the upload directory takes it. *)
Definition upload_ready (req : UploadRequest) (w : World) (user : users.row)
    (workId userEmail filename : string) : Prop :=
  present (upload_workId req) = Some workId /\
  present (upload_email req) = Some userEmail /\
  List.find (fun u => String.eqb (users.email u) userEmail) (t_users (db w)) = Some user /\
  upload_file req = Some filename /\
  disk_writable w = true.

(** The document [user] already holds for [workId], if any. *)
Definition existing_pdf (w : World) (user : users.row) (workId : string)
  : option uploadedPdfs.row :=
  List.find (fun p => String.eqb (uploadedPdfs.ownerId p) (users.id user)
                      && String.eqb (uploadedPdfs.workId p) workId)
            (t_uploadedPdfs (db w)).

(** The row a first upload inserts. *)
Definition new_pdf (req : UploadRequest) (user : users.row) (workId filename : string)
    (w : World) : uploadedPdfs.row :=
  {| uploadedPdfs.id := entropy w (S (drawn w));
     uploadedPdfs.ownerId := users.id user;
     uploadedPdfs.workId := workId;
     uploadedPdfs.workTitle := or_else (upload_workTitle req) None;
     uploadedPdfs.orcidId := or_else (upload_orcidId req) None;
     uploadedPdfs.researcherName := or_else (upload_researcherName req) None;
     uploadedPdfs.fileName := entropy w (drawn w) +:+ "." +:+ fileExtension filename;
     uploadedPdfs.originalName := filename;
     uploadedPdfs.uploadedAt := now w |}.

(** The world once the file is on disk and the row is committed. *)
Definition after_insert (r : uploadedPdfs.row) (w : World) : World :=
  add_effect (Inserted "uploaded_pdfs" (uploadedPdfs.id r))
    (set_db (set_uploadedPdfs (fun t => t ++ [r]))
       (draw (set_disk (fun d => d ++ [uploadedPdfs.fileName r]) (draw w)))).

(** Identifier, owner and work of every document, in table order. *)
Definition identities (w : World) : list (string * string * string) :=
  map (fun p => (uploadedPdfs.id p, uploadedPdfs.ownerId p, uploadedPdfs.workId p))
      (t_uploadedPdfs (db w)).

(** What a re-upload leaves in the row it finds. *)
Definition refreshed (req : UploadRequest) (existing : uploadedPdfs.row)
    (fileName filename : string) (at_ : nat) (r : uploadedPdfs.row) : uploadedPdfs.row :=
  {| uploadedPdfs.id := uploadedPdfs.id r;
     uploadedPdfs.ownerId := uploadedPdfs.ownerId r;
     uploadedPdfs.workId := uploadedPdfs.workId r;
     uploadedPdfs.workTitle :=
       or_else (upload_workTitle req) (uploadedPdfs.workTitle existing);
     uploadedPdfs.orcidId :=
       or_else (upload_orcidId req) (uploadedPdfs.orcidId existing);
     uploadedPdfs.researcherName :=
       or_else (upload_researcherName req) (uploadedPdfs.researcherName existing);
     uploadedPdfs.fileName := fileName;
     uploadedPdfs.originalName := filename;
     uploadedPdfs.uploadedAt := at_ |}.

(** ** Vocabulary for the accept handler *)

(** The recipient is a known user, the share request is addressed to them
    and the document it names exists. *)
Definition accept_ready (req : AcceptRequest) (w : World) (user : users.row)
    (userEmail : string) (shareRequest : pdfShareRequests.row)
    (pdf : uploadedPdfs.row) : Prop :=
  present (accept_email req) = Some userEmail /\
  List.find (fun u => String.eqb (users.email u) userEmail) (t_users (db w)) = Some user /\
  List.find (fun r => String.eqb (pdfShareRequests.id r) (accept_id req)
                      && String.eqb (pdfShareRequests.toUserId r) (users.id user))
            (t_pdfShareRequests (db w)) = Some shareRequest /\
  List.find (fun p => String.eqb (uploadedPdfs.id p) (pdfShareRequests.pdfId shareRequest))
            (t_uploadedPdfs (db w)) = Some pdf.

(** An Access Grant row exists for (document, user). *)
Definition has_access (w : World) (pdfId userId : string) : bool :=
  existsb (fun a => String.eqb (pdfAccess.pdfId a) pdfId
                    && String.eqb (pdfAccess.userId a) userId)
          (t_pdfAccess (db w)).

(** A Share Request row with this identifier exists. *)
Definition pending (w : World) (requestId : string) : bool :=
  existsb (fun r => String.eqb (pdfShareRequests.id r) requestId)
          (t_pdfShareRequests (db w)).

(** The graph calls among the effects. *)
Definition graph_calls (w : World) : list Call :=
  flat_map (fun e => match e with Graph c => [c] | _ => [] end) (journal w).

(** ** A small installation *)

Definition alice : users.row :=
  {| users.id := "u-alice"; users.email := "alice@example.org";
     users.auth0Sub := "auth0|alice" |}.

Definition bob : users.row :=
  {| users.id := "u-bob"; users.email := "bob@example.org";
     users.auth0Sub := "auth0|bob" |}.

Definition paper (id : string) : uploadedPdfs.row :=
  {| uploadedPdfs.id := id; uploadedPdfs.ownerId := "u-alice";
     uploadedPdfs.workId := "W-" +:+ id;
     uploadedPdfs.workTitle := Some "Relationship-based access control";
     uploadedPdfs.orcidId := None; uploadedPdfs.researcherName := None;
     uploadedPdfs.fileName := id +:+ ".pdf"; uploadedPdfs.originalName := "paper.pdf";
     uploadedPdfs.uploadedAt := 0 |}.

Definition share_D1 : pdfShareRequests.row :=
  {| pdfShareRequests.id := "R1"; pdfShareRequests.pdfId := "D1";
     pdfShareRequests.fromUserId := "u-alice"; pdfShareRequests.toUserId := "u-bob";
     pdfShareRequests.createdAt := 0 |}.

Definition db_of (pdfs : list uploadedPdfs.row) (reqs : list pdfShareRequests.row) : Db :=
  {| t_users := [alice; bob]; t_linkedResearchers := []; t_uploadedPdfs := pdfs;
     t_pdfShareRequests := reqs; t_pdfAccess := [] |}.

Definition upload_D1 : UploadRequest :=
  {| upload_workId := Some "W-D1"; upload_workTitle := None; upload_orcidId := None;
     upload_researcherName := None; upload_email := Some "alice@example.org";
     upload_file := Some "revised.pdf" |}.

Definition upload_without_file : UploadRequest :=
  {| upload_workId := Some "W-D1"; upload_workTitle := None; upload_orcidId := None;
     upload_researcherName := None; upload_email := Some "alice@example.org";
     upload_file := None |}.

Definition accept_R1 : AcceptRequest :=
  {| accept_id := "R1"; accept_email := Some "bob@example.org" |}.

Definition outage : Outcome := Rejects (Error "503 Service Unavailable").

(** ** The claims that the code does not meet, as they are stated *)


(** Whenever a share is accepted while the service is configured, the
    recipient holds [viewer] on the document. *)
Definition accept_always_mirrored : Prop :=
  forall req w user userEmail shareRequest pdf reply w',
    accept_ready req w user userEmail shareRequest pdf ->
    fga_configured w = true ->
    accept req w = (Returned reply, w') ->
    check w' userEmail viewer (pdfShareRequests.pdfId shareRequest) = true.

(** ** Vocabulary for the suggestion handler *)

(** The request carries a query, and its sender is a known user. *)
Definition suggest_ready (js : Builtins) (req : SuggestRequest) (w : World)
    (user : users.row) (userEmail query : string) : Prop :=
  present (suggest_email req) = Some userEmail /\
  present (suggest_query req) = Some query /\
  Nat.eqb (String.length (String_trim js query)) 0 = false /\
  hd_error (List.filter (fun u => String.eqb (users.email u) userEmail)
                        (t_users (db w))) = Some user.

(** The candidates the graph lets through: all of them when the service is
    not configured; none when a check of the batch is rejected; else those
    whose viewer tuple is stored. *)
Definition authorized (w : World) (userEmail : string)
    (candidates : list uploadedPdfs.row) : list uploadedPdfs.row :=
  List.filter
    (fun pdf =>
       if fga_configured w
       then negb (batch_rejected w (length candidates))
            && check w userEmail viewer (uploadedPdfs.id pdf)
       else true)
    candidates.

(** The candidates as the handler receives them. *)
Definition candidates (w : World) (uid : string) : list uploadedPdfs.row :=
  arranged (row_rank w "uploaded_pdfs") (select_accessiblePdfs uid (db w)).

(** The reading of the suggestion flow under which the caller is told how
    many documents were candidates before the graph filter ran. *)
Definition suggest_reports_candidates : Prop :=
  forall embeddings js req w user userEmail query w' top q total,
    suggest_ready js req w user userEmail query ->
    suggest embeddings js req w = (Returned (send (Suggestions top q total)), w') ->
    total = length (select_accessiblePdfs (users.id user) (db w)).

(** Stand-ins for the embedding service and the engine: every text embeds
    to the same vector, the sort keeps the order, rounding is the identity. *)
Definition flat_embeddings : Embeddings :=
  {| embedQuery := fun _ => Returned [1%float];
     embedDocuments := fun texts => Returned (map (fun _ => [1%float]) texts) |}.

Definition plain_js : Builtins :=
  {| String_trim := fun s => s;
     Array_sort := fun _ _ l => l;
     Math_round := fun x => x |}.

Definition suggest_req : SuggestRequest :=
  {| suggest_body := Some {| body_query := Some "access control" |};
     suggest_email := Some "alice@example.org" |}.

Definition three_papers : World :=
  world_of configured_env (db_of [paper "D1"; paper "D2"; paper "D3"] [])
           [viewer_of "alice@example.org" "D1"; viewer_of "alice@example.org" "D3"] [].

(** ** Vocabulary for the similarity *)

(** The norm as the loop computes it. *)
Definition squares (v : list float) : float :=
  fold_left (fun acc i => PrimFloat.add acc (PrimFloat.mul (at_index v i) (at_index v i)))
            (seq 0 (length v)) PrimFloat.zero.

Definition norm (v : list float) : float := PrimFloat.sqrt (squares v).

Definition dot (vecA vecB : list float) : float :=
  fold_left (fun acc i => PrimFloat.add acc (PrimFloat.mul (at_index vecA i) (at_index vecB i)))
            (seq 0 (length vecA)) PrimFloat.zero.

(** A zero of the doubles, of either sign. *)
Definition is_zero (x : float) : Prop := x = PrimFloat.zero \/ x = PrimFloat.neg_zero.

(** * The rest of the server *)

(** ** Replies of the other handlers *)

(** An entry of the map sent by GET /api/pdfs. *)
Record PdfStatus := {
  status_id : string; status_originalName : string;
  status_uploadedAt : nat; status_isOwner : bool }.

(** An entry of the list sent by GET /api/pdfs/share-requests. *)
Record PendingShare := {
  share_id : string; share_pdfId : string; share_workId : string;
  share_workTitle : option string; share_orcidId : option string;
  share_researcherName : option string; share_originalName : string;
  share_fromUserEmail : string; share_createdAt : nat }.

(** An entry of the list sent by GET /api/pdf-rag/list. *)
Record ListedPdf := {
  listed_id : string; listed_workId : string; listed_workTitle : option string;
  listed_originalName : string; listed_orcidId : option string;
  listed_researcherName : option string; listed_uploadedAt : nat;
  listed_isOwner : bool }.

(** An entry of the list sent by GET /api/researchers. *)
Record LinkedView := {
  linked_id : string; linked_orcidId : string;
  linked_researcherName : option string; linked_createdAt : nat }.

(** A page of a document, as [loadPDF] builds it. *)
Record Document := {
  pageContent : string; page : nat; totalPages : nat; source : string }.

Inductive Payload : Type :=
| Text (message : string)
| Failure (message error_ : string)
| PdfMap (pdfMap : gmap string PdfStatus)
| SentFile (fileName : string)
| NotFound
| ShareCreated (id : string) (createdAt : nat)
| PendingShares (requests : list PendingShare)
| ListedPdfs (pdfs : list ListedPdf)
| Linked (researcher : LinkedView)
| LinkedList (researchers : list LinkedView)
| AlreadyLoaded (pdfId : string) (workTitle : option string)
| Loaded (pdfId : string) (workTitle : option string) (pageCount : nat)
| QueryResults (query : string) (results : list Document)
| LoadedIds (loadedPdfIds : list string) (count : nat).

Record Response := { status : nat; payload : Payload }.

Definition respond (c : nat) (p : Payload) : Response := {| status := c; payload := p |}.

Definition ok (p : Payload) : Response := respond 200 p.

(** [db.query.<table>.findMany({ where })], for the queries of the handlers
    below, none of which has an [orderBy]: the rows come in the order the
    database gives to that table. *)
Definition findMany {A} (name : string) (table : Db -> list A) (where_ : A -> bool)
  : M (list A) :=
  gets (fun w => arranged (row_rank w name) (List.filter where_ (table (db w)))).

(** [reply.sendFile(fileName)] of the static-file plugin, rooted at
    [UPLOAD_DIR]: the file, or the reply of the not-found handler when the
    file is not there. *)
Definition sendFile (fileName : string) : M Response :=
  fun w =>
    if existsb (String.eqb fileName) (disk w)
    then (Returned (ok (SentFile fileName)), w)
    else (Returned (respond 404 NotFound), w).

(** ** The other handlers of [server/src/routes/pdfs.ts] *)

(** [s.split(sep)] for a separator of one character. *)
Fixpoint split_on (sep : ascii) (s acc : string) : list string :=
  match s with
  | EmptyString => [acc]
  | String c rest =>
      if Ascii.eqb c sep then acc :: split_on sep rest ""
      else split_on sep rest (acc +:+ String c "")
  end.

Record StatusRequest := {
  status_workIds : option string;     (* request.query.workIds *)
  status_email : option string }.

(** [ownedPdfs.forEach((pdf) => { if (workIdArray.includes(pdf.workId)) ... })] *)
Definition add_owned (workIdArray : list string) (pdfMap : gmap string PdfStatus)
    (pdf : uploadedPdfs.row) : gmap string PdfStatus :=
  if existsb (String.eqb (uploadedPdfs.workId pdf)) workIdArray
  then <[uploadedPdfs.workId pdf :=
           {| status_id := uploadedPdfs.id pdf;
              status_originalName := uploadedPdfs.originalName pdf;
              status_uploadedAt := uploadedPdfs.uploadedAt pdf;
              status_isOwner := true |}]> pdfMap
  else pdfMap.

(** [accessRecords.forEach((access) => { if (access.pdf && ...) ... })] *)
Definition add_shared (workIdArray : list string) (pdfMap : gmap string PdfStatus)
    (access : pdfAccess.row * option uploadedPdfs.row) : gmap string PdfStatus :=
  match snd access with
  | None => pdfMap
  | Some pdf =>
      if existsb (String.eqb (uploadedPdfs.workId pdf)) workIdArray
      then <[uploadedPdfs.workId pdf :=
               {| status_id := uploadedPdfs.id pdf;
                  status_originalName := uploadedPdfs.originalName pdf;
                  status_uploadedAt := uploadedPdfs.uploadedAt pdf;
                  status_isOwner := false |}]> pdfMap
      else pdfMap
  end.

(** [db.query.pdfAccess.findMany({ where, with: { pdf: true } })] *)
Definition access_with_pdf (userId : string)
  : M (list (pdfAccess.row * option uploadedPdfs.row)) :=
  gets (fun w =>
          arranged (row_rank w "pdf_access")
            (map (fun a =>
                    (a, List.find (fun p => String.eqb (uploadedPdfs.id p)
                                                       (pdfAccess.pdfId a))
                                  (t_uploadedPdfs (db w))))
                 (List.filter (fun a => String.eqb (pdfAccess.userId a) userId)
                              (t_pdfAccess (db w))))).

(** GET /api/pdfs *)
Definition pdf_status (req : StatusRequest) : M Response :=
  match present (status_workIds req) with
  | None => ret (respond 400 (Text "Work IDs are required"))
  | Some workIds =>
  match present (status_email req) with
  | None => ret (respond 401 (Text "Unauthorized"))
  | Some userEmail =>
  try_catch
    (user <- findFirst t_users (fun u => String.eqb (users.email u) userEmail) ;;
     match user with
     | None => ret (ok (PdfMap ∅))
     | Some user =>
       let workIdArray := split_on ","%char workIds "" in
       ownedPdfs <- findMany "uploaded_pdfs" t_uploadedPdfs
                      (fun p => String.eqb (uploadedPdfs.ownerId p) (users.id user)) ;;
       accessRecords <- access_with_pdf (users.id user) ;;
       let pdfMap : gmap string PdfStatus := ∅ in
       let pdfMap := fold_left (add_owned workIdArray) ownedPdfs pdfMap in
       let pdfMap := fold_left (add_shared workIdArray) accessRecords pdfMap in
       ret (ok (PdfMap pdfMap))
     end)
    (fun e =>
       log error "" (Some e) ;;;
       ret (respond 500 (Text "Failed to fetch PDFs")))
  end
  end.

Record IdRequest := {
  param_id : string;                  (* request.params.id *)
  id_email : option string }.

(** GET /api/pdfs/:id *)
Definition download (req : IdRequest) : M Response :=
  let id := param_id req in
  match present (id_email req) with
  | None => ret (respond 401 (Text "Unauthorized"))
  | Some userEmail =>
  try_catch
    (user <- findFirst t_users (fun u => String.eqb (users.email u) userEmail) ;;
     match user with
     | None => ret (respond 404 (Text "User not found"))
     | Some user =>
       pdf <- findFirst t_uploadedPdfs (fun p => String.eqb (uploadedPdfs.id p) id) ;;
       match pdf with
       | None => ret (respond 404 (Text "PDF not found"))
       | Some pdf =>
         let isOwner := String.eqb (uploadedPdfs.ownerId pdf) (users.id user) in
         hasAccess <- findFirst t_pdfAccess
                        (fun a => String.eqb (pdfAccess.pdfId a) id
                                  && String.eqb (pdfAccess.userId a) (users.id user)) ;;
         if negb isOwner && negb (match hasAccess with Some _ => true | None => false end)
         then ret (respond 403 (Text "Access denied"))
         else sendFile (uploadedPdfs.fileName pdf)
       end
     end)
    (fun e =>
       log error "" (Some e) ;;;
       ret (respond 500 (Text "Failed to download PDF")))
  end.

(** [db.delete(uploadedPdfs).where(...)]; the rows of [pdf_share_requests]
    and [pdf_access] that reference a deleted document go with it
    ([onDelete: "cascade"]). *)
Definition delete_uploadedPdfs (where_ : uploadedPdfs.row -> bool) : M unit :=
  rows <- gets (fun w => t_uploadedPdfs (db w)) ;;
  let gone := map uploadedPdfs.id (List.filter where_ rows) in
  modify (set_db (set_uploadedPdfs (List.filter (fun r => negb (where_ r))))) ;;;
  modify (set_db (set_pdfShareRequests
                    (List.filter (fun r => negb (existsb (String.eqb (pdfShareRequests.pdfId r))
                                                         gone))))) ;;;
  modify (set_db (set_pdfAccess
                    (List.filter (fun r => negb (existsb (String.eqb (pdfAccess.pdfId r))
                                                         gone))))) ;;;
  record_effects (map (fun id => Deleted "uploaded_pdfs" id) gone).

(** DELETE /api/pdfs/:id *)
Definition remove (req : IdRequest) : M Response :=
  let id := param_id req in
  match present (id_email req) with
  | None => ret (respond 401 (Text "Unauthorized"))
  | Some userEmail =>
  try_catch
    (user <- findFirst t_users (fun u => String.eqb (users.email u) userEmail) ;;
     match user with
     | None => ret (respond 404 (Text "User not found"))
     | Some user =>
       pdf <- findFirst t_uploadedPdfs
                (fun p => String.eqb (uploadedPdfs.id p) id
                          && String.eqb (uploadedPdfs.ownerId p) (users.id user)) ;;
       match pdf with
       | None => ret (respond 404 (Text "PDF not found or access denied"))
       | Some pdf =>
         try_catch (unlink (uploadedPdfs.fileName pdf))
                   (fun err => log warn "Failed to delete file:" (Some err)) ;;;
         delete_uploadedPdfs (fun p => String.eqb (uploadedPdfs.id p) id) ;;;
         ret (ok (Text "PDF deleted successfully"))
       end
     end)
    (fun e =>
       log error "" (Some e) ;;;
       ret (respond 500 (Text "Failed to delete PDF")))
  end.

(** [db.insert(pdfShareRequests).values(...).returning()], under
    [unique().on(pdfId, toUserId)]. *)
Definition insert_pdfShareRequests (pdfId fromUserId toUserId : string)
  : M (list pdfShareRequests.row) :=
  id <- randomUUID ;;
  at_ <- gets now ;;
  rows <- gets (fun w => t_pdfShareRequests (db w)) ;;
  if existsb (fun r => String.eqb (pdfShareRequests.pdfId r) pdfId
                       && String.eqb (pdfShareRequests.toUserId r) toUserId) rows
  then throw (Error "duplicate key value violates unique constraint")
  else
    let r := {| pdfShareRequests.id := id; pdfShareRequests.pdfId := pdfId;
                pdfShareRequests.fromUserId := fromUserId;
                pdfShareRequests.toUserId := toUserId;
                pdfShareRequests.createdAt := at_ |} in
    modify (set_db (set_pdfShareRequests (fun t => t ++ [r]))) ;;;
    record_effects [Inserted "pdf_share_requests" id] ;;;
    ret [r].

Record ShareBody := { body_targetEmail : option string }.

Record ShareRequest := {
  share_param_id : string;            (* request.params.id *)
  share_body : option ShareBody;      (* request.body *)
  share_email : option string }.

Definition share_targetEmail (req : ShareRequest) : option string :=
  match share_body req with
  | Some body => body_targetEmail body
  | None => None
  end.

(** POST /api/pdfs/:id/share. [const { targetEmail } = request.body] is
    outside the [try]: it throws when the request has no body. *)
Definition share (req : ShareRequest) : M Response :=
  let id := share_param_id req in
  match share_body req with
  | None => type_error
  | Some body =>
  match present (body_targetEmail body) with
  | None => ret (respond 400 (Text "Target email is required"))
  | Some targetEmail =>
  match present (share_email req) with
  | None => ret (respond 401 (Text "Unauthorized"))
  | Some userEmail =>
  if String.eqb userEmail targetEmail
  then ret (respond 400 (Text "Cannot share with yourself"))
  else
  try_catch
    (user <- findFirst t_users (fun u => String.eqb (users.email u) userEmail) ;;
     match user with
     | None => ret (respond 404 (Text "User not found"))
     | Some user =>
       targetUser <- findFirst t_users (fun u => String.eqb (users.email u) targetEmail) ;;
       match targetUser with
       | None => ret (respond 404 (Text "Target user not found"))
       | Some targetUser =>
         pdf <- findFirst t_uploadedPdfs
                  (fun p => String.eqb (uploadedPdfs.id p) id
                            && String.eqb (uploadedPdfs.ownerId p) (users.id user)) ;;
         match pdf with
         | None => ret (respond 404 (Text "PDF not found or access denied"))
         | Some pdf =>
           existingRequest <- findFirst t_pdfShareRequests
                                (fun r => String.eqb (pdfShareRequests.pdfId r) id
                                          && String.eqb (pdfShareRequests.toUserId r)
                                                        (users.id targetUser)) ;;
           match existingRequest with
           | Some _ => ret (respond 409 (Text "Share request already exists"))
           | None =>
             rows <- insert_pdfShareRequests id (users.id user) (users.id targetUser) ;;
             request_ <- first_row rows ;;
             ret (ok (ShareCreated (pdfShareRequests.id request_)
                                   (pdfShareRequests.createdAt request_)))
           end
         end
       end
     end)
    (fun e =>
       log error "" (Some e) ;;;
       ret (respond 500 (Text "Failed to share PDF")))
  end
  end
  end.

(** [findMany({ where, with: { pdf: true, fromUser: true } })], then the
    [map] over it; a request whose document or sender is missing makes the
    callback throw. *)
Fixpoint pending_views (d : Db) (requests : list pdfShareRequests.row)
  : Result (list PendingShare) :=
  match requests with
  | [] => Returned []
  | r :: rest =>
      match List.find (fun p => String.eqb (uploadedPdfs.id p) (pdfShareRequests.pdfId r))
                      (t_uploadedPdfs d),
            List.find (fun u => String.eqb (users.id u) (pdfShareRequests.fromUserId r))
                      (t_users d) with
      | Some pdf, Some fromUser =>
          match pending_views d rest with
          | Threw e => Threw e
          | Returned views =>
              Returned
                ({| share_id := pdfShareRequests.id r;
                    share_pdfId := pdfShareRequests.pdfId r;
                    share_workId := uploadedPdfs.workId pdf;
                    share_workTitle := uploadedPdfs.workTitle pdf;
                    share_orcidId := uploadedPdfs.orcidId pdf;
                    share_researcherName := uploadedPdfs.researcherName pdf;
                    share_originalName := uploadedPdfs.originalName pdf;
                    share_fromUserEmail := users.email fromUser;
                    share_createdAt := pdfShareRequests.createdAt r |} :: views)
          end
      | _, _ => Threw (Error "TypeError: Cannot read properties of null")
      end
  end.

(** GET /api/pdfs/share-requests *)
Definition share_requests (email : option string) : M Response :=
  match present email with
  | None => ret (respond 401 (Text "Unauthorized"))
  | Some userEmail =>
  try_catch
    (user <- findFirst t_users (fun u => String.eqb (users.email u) userEmail) ;;
     match user with
     | None => ret (ok (PendingShares []))
     | Some user =>
       requests <- findMany "pdf_share_requests" t_pdfShareRequests
                     (fun r => String.eqb (pdfShareRequests.toUserId r) (users.id user)) ;;
       d <- gets db ;;
       views <- lift (pending_views d requests) ;;
       ret (ok (PendingShares views))
     end)
    (fun e =>
       log error "" (Some e) ;;;
       ret (respond 500 (Text "Failed to fetch share requests")))
  end.

(** POST /api/pdfs/share-requests/:id/reject *)
Definition reject (req : IdRequest) : M Response :=
  let id := param_id req in
  match present (id_email req) with
  | None => ret (respond 401 (Text "Unauthorized"))
  | Some userEmail =>
  try_catch
    (user <- findFirst t_users (fun u => String.eqb (users.email u) userEmail) ;;
     match user with
     | None => ret (respond 404 (Text "User not found"))
     | Some user =>
       shareRequest <- findFirst t_pdfShareRequests
                         (fun r => String.eqb (pdfShareRequests.id r) id
                                   && String.eqb (pdfShareRequests.toUserId r)
                                                 (users.id user)) ;;
       match shareRequest with
       | None => ret (respond 404 (Text "Share request not found"))
       | Some shareRequest =>
         delete_pdfShareRequests
           (fun r => String.eqb (pdfShareRequests.id r) id) ;;;
         ret (ok (Text "Share request rejected"))
       end
     end)
    (fun e =>
       log error "" (Some e) ;;;
       ret (respond 500 (Text "Failed to reject share request")))
  end.

(** ** [server/src/routes/researchers.ts] *)

(** [db.insert(linkedResearchers).values(...).returning()], under
    [unique().on(userId, orcidId)]. *)
Definition insert_linkedResearchers_returning (userId orcidId : string)
    (researcherName : option string) : M (list linkedResearchers.row) :=
  id <- randomUUID ;;
  at_ <- gets now ;;
  rows <- gets (fun w => t_linkedResearchers (db w)) ;;
  if existsb (fun r => String.eqb (linkedResearchers.userId r) userId
                       && String.eqb (linkedResearchers.orcidId r) orcidId) rows
  then throw (Error "duplicate key value violates unique constraint")
  else
    let r := {| linkedResearchers.id := id; linkedResearchers.userId := userId;
                linkedResearchers.orcidId := orcidId;
                linkedResearchers.researcherName := researcherName;
                linkedResearchers.createdAt := at_ |} in
    modify (set_db (set_linkedResearchers (fun t => t ++ [r]))) ;;;
    record_effects [Inserted "linked_researchers" id] ;;;
    ret [r].

(** [db.delete(linkedResearchers).where(...)] *)
Definition delete_linkedResearchers (where_ : linkedResearchers.row -> bool) : M unit :=
  rows <- gets (fun w => t_linkedResearchers (db w)) ;;
  modify (set_db (set_linkedResearchers (List.filter (fun r => negb (where_ r))))) ;;;
  record_effects (map (fun r => Deleted "linked_researchers" (linkedResearchers.id r))
                      (List.filter where_ rows)).

Record LinkBody := {
  body_orcidId : option string;
  body_researcherName : option string }.

Record LinkRequest := {
  link_body : option LinkBody;        (* request.body *)
  link_email : option string }.

Definition link_orcidId (req : LinkRequest) : option string :=
  match link_body req with
  | Some body => body_orcidId body
  | None => None
  end.

Definition link_researcherName (req : LinkRequest) : option string :=
  match link_body req with
  | Some body => body_researcherName body
  | None => None
  end.

(** POST /api/researchers/link. [const { orcidId, researcherName } =
    request.body] is outside the [try]. *)
Definition link (req : LinkRequest) : M Response :=
  match link_body req with
  | None => type_error
  | Some body =>
  match present (body_orcidId body) with
  | None => ret (respond 400 (Text "ORCID ID is required"))
  | Some orcidId =>
  match present (link_email req) with
  | None => ret (respond 401 (Text "Unauthorized"))
  | Some userEmail =>
  try_catch
    (user <- findFirst t_users (fun u => String.eqb (users.email u) userEmail) ;;
     match user with
     | None => ret (respond 404 (Text "User not found - please log in again"))
     | Some user =>
       existing <- findFirst t_linkedResearchers
                     (fun l => String.eqb (linkedResearchers.userId l) (users.id user)
                               && String.eqb (linkedResearchers.orcidId l) orcidId) ;;
       match existing with
       | Some _ => ret (respond 409 (Text "Researcher already linked"))
       | None =>
         rows <- insert_linkedResearchers_returning (users.id user) orcidId
                   (or_else (body_researcherName body) None) ;;
         linked <- first_row rows ;;
         ret (ok (Linked {| linked_id := linkedResearchers.id linked;
                            linked_orcidId := linkedResearchers.orcidId linked;
                            linked_researcherName := linkedResearchers.researcherName linked;
                            linked_createdAt := linkedResearchers.createdAt linked |}))
       end
     end)
    (fun e =>
       log error "" (Some e) ;;;
       ret (respond 500 (Text "Failed to link researcher")))
  end
  end
  end.

(** DELETE /api/researchers/:id *)
Definition unlink_researcher (req : IdRequest) : M Response :=
  let id := param_id req in
  match present (id_email req) with
  | None => ret (respond 401 (Text "Unauthorized"))
  | Some userEmail =>
  try_catch
    (user <- findFirst t_users (fun u => String.eqb (users.email u) userEmail) ;;
     match user with
     | None => ret (respond 404 (Text "User not found"))
     | Some user =>
       researcher <- findFirst t_linkedResearchers
                       (fun l => String.eqb (linkedResearchers.id l) id
                                 && String.eqb (linkedResearchers.userId l) (users.id user)) ;;
       match researcher with
       | None => ret (respond 404 (Text "Researcher not found or access denied"))
       | Some _ =>
         delete_linkedResearchers (fun l => String.eqb (linkedResearchers.id l) id) ;;;
         ret (ok (Text "Researcher unlinked successfully"))
       end
     end)
    (fun e =>
       log error "" (Some e) ;;;
       ret (respond 500 (Text "Failed to unlink researcher")))
  end.

(** ** [server/src/routes/pdf-rag.ts] *)

(** [const vectorStores = new Map()]: a JavaScript [Map] keeps its keys in
    insertion order. *)
Definition Map_has {V} (m : list (string * V)) (k : string) : bool :=
  existsb (fun e => String.eqb (fst e) k) m.

Definition Map_get {V} (m : list (string * V)) (k : string) : option V :=
  match List.find (fun e => String.eqb (fst e) k) m with
  | Some e => Some (snd e)
  | None => None
  end.

Definition Map_set {V} (m : list (string * V)) (k : string) (v : V) : list (string * V) :=
  if Map_has m k
  then map (fun e => if String.eqb (fst e) k then (k, v) else e) m
  else m ++ [(k, v)].

Definition Map_delete {V} (m : list (string * V)) (k : string) : list (string * V) :=
  List.filter (fun e => negb (String.eqb (fst e) k)) m.

Definition Map_keys {V} (m : list (string * V)) : list string := map fst m.

(** The loop of [loadPDF]: one document per page, pages counted from 1. *)
Fixpoint pages_from (i total : nat) (filePath : string) (pages : list (list string))
  : list Document :=
  match pages with
  | [] => []
  | items :: rest =>
      {| pageContent := String.concat " " items; page := i; totalPages := total;
         source := filePath |} :: pages_from (S i) total filePath rest
  end.

Record RagLoadBody := { body_pdfId : option string }.

Record RagLoadRequest := {
  rag_body : option RagLoadBody;      (* request.body *)
  rag_email : option string }.

Definition rag_pdfId (req : RagLoadRequest) : option string :=
  match rag_body req with
  | Some body => body_pdfId body
  | None => None
  end.

Record RagQueryBody := {
  q_pdfId : option string;
  q_query : option string;
  q_k : option float }.

Record RagQueryRequest := {
  query_body : option RagQueryBody;   (* request.body *)
  query_email : option string }.

Definition query_pdfId (req : RagQueryRequest) : option string :=
  match query_body req with Some body => q_pdfId body | None => None end.

Definition query_text (req : RagQueryRequest) : option string :=
  match query_body req with Some body => q_query body | None => None end.

Definition query_k (req : RagQueryRequest) : option float :=
  match query_body req with Some body => q_k body | None => None end.

Section Rag.

(** The vector store and the PDF reader are libraries: a store type, the
    text items of each page of a file, the store built from documents, and
    the search in a store. *)
Variable VectorStore : Type.
Variable getTextItems : string -> Result (list (list string)).
Variable fromDocuments : list Document -> Result VectorStore.
Variable similaritySearch : VectorStore -> string -> float -> Result (list Document).

(** File paths are written relative to [UPLOAD_DIR], as [disk] has them. *)
Definition loadPDF (filePath : string) : M (list Document) :=
  fun w =>
    if existsb (String.eqb filePath) (disk w)
    then match getTextItems filePath with
         | Threw e => (Threw e, w)
         | Returned pages =>
             (Returned (pages_from 1 (length pages) filePath pages), w)
         end
    else (Threw (Error "ENOENT: no such file or directory"), w).

Definition getVectorStore (vectorStores : list (string * VectorStore)) (pdfId : string)
  : option VectorStore :=
  Map_get vectorStores pdfId.

Definition listed (isOwner : bool) (pdf : uploadedPdfs.row) : ListedPdf :=
  {| listed_id := uploadedPdfs.id pdf; listed_workId := uploadedPdfs.workId pdf;
     listed_workTitle := uploadedPdfs.workTitle pdf;
     listed_originalName := uploadedPdfs.originalName pdf;
     listed_orcidId := uploadedPdfs.orcidId pdf;
     listed_researcherName := uploadedPdfs.researcherName pdf;
     listed_uploadedAt := uploadedPdfs.uploadedAt pdf;
     listed_isOwner := isOwner |}.

(** [accessRecords.map((access) => ({ id: access.pdf.id, ... }))] *)
Fixpoint listed_shared (accessRecords : list (pdfAccess.row * option uploadedPdfs.row))
  : Result (list ListedPdf) :=
  match accessRecords with
  | [] => Returned []
  | (_, None) :: _ => Threw (Error "TypeError: Cannot read properties of null")
  | (_, Some pdf) :: rest =>
      match listed_shared rest with
      | Threw e => Threw e
      | Returned l => Returned (listed false pdf :: l)
      end
  end.

(** GET /api/pdf-rag/list *)
Definition rag_list (email : option string) : M Response :=
  match present email with
  | None => ret (respond 401 (Text "Unauthorized"))
  | Some userEmail =>
  try_catch
    (user <- findFirst t_users (fun u => String.eqb (users.email u) userEmail) ;;
     match user with
     | None => ret (ok (ListedPdfs []))
     | Some user =>
       ownedPdfs <- findMany "uploaded_pdfs" t_uploadedPdfs
                      (fun p => String.eqb (uploadedPdfs.ownerId p) (users.id user)) ;;
       accessRecords <- access_with_pdf (users.id user) ;;
       shared <- lift (listed_shared accessRecords) ;;
       ret (ok (ListedPdfs (map (listed true) ownedPdfs ++ shared)))
     end)
    (fun e =>
       log error "" (Some e) ;;;
       ret (respond 500 (Text "Failed to fetch PDFs")))
  end.

(** POST /api/pdf-rag/load; the handler reads and writes [vectorStores],
    which is passed in and handed back with the reply. [const { pdfId } =
    request.body] is outside the [try]. *)
Definition rag_load (vectorStores : list (string * VectorStore)) (req : RagLoadRequest)
  : M (Response * list (string * VectorStore)) :=
  match rag_body req with
  | None => type_error
  | Some body =>
  match present (body_pdfId body) with
  | None => ret (respond 400 (Text "PDF ID is required"), vectorStores)
  | Some pdfId =>
  match present (rag_email req) with
  | None => ret (respond 401 (Text "Unauthorized"), vectorStores)
  | Some userEmail =>
  try_catch
    (user <- findFirst t_users (fun u => String.eqb (users.email u) userEmail) ;;
     match user with
     | None => ret (respond 404 (Text "User not found"), vectorStores)
     | Some user =>
       pdf <- findFirst t_uploadedPdfs (fun p => String.eqb (uploadedPdfs.id p) pdfId) ;;
       match pdf with
       | None => ret (respond 404 (Text "PDF not found"), vectorStores)
       | Some pdf =>
         let isOwner := String.eqb (uploadedPdfs.ownerId pdf) (users.id user) in
         hasAccess <- findFirst t_pdfAccess
                        (fun a => String.eqb (pdfAccess.pdfId a) pdfId
                                  && String.eqb (pdfAccess.userId a) (users.id user)) ;;
         if negb isOwner && negb (match hasAccess with Some _ => true | None => false end)
         then ret (respond 403 (Text "Access denied"), vectorStores)
         else
           if Map_has vectorStores pdfId
           then ret (ok (AlreadyLoaded pdfId (uploadedPdfs.workTitle pdf)), vectorStores)
           else
             docs <- loadPDF (uploadedPdfs.fileName pdf) ;;
             vectorStore <- lift (fromDocuments docs) ;;
             ret (ok (Loaded pdfId (uploadedPdfs.workTitle pdf) (length docs)),
                  Map_set vectorStores pdfId vectorStore)
       end
     end)
    (fun e =>
       log error "" (Some e) ;;;
       ret (respond 500 (Failure "Failed to load PDF"
                                 (match e with Error message => message end)),
            vectorStores))
  end
  end
  end.

(** POST /api/pdf-rag/query. [const { pdfId, query, k = 4 } = request.body]
    is outside the [try]. *)
Definition rag_query (vectorStores : list (string * VectorStore)) (req : RagQueryRequest)
  : M Response :=
  match query_body req with
  | None => type_error
  | Some body =>
  match present (q_pdfId body), present (q_query body) with
  | Some pdfId, Some query =>
    let k := match q_k body with Some k => k | None => 4%float end in
    match present (query_email req) with
    | None => ret (respond 401 (Text "Unauthorized"))
    | Some userEmail =>
    try_catch
      (match Map_get vectorStores pdfId with
       | None =>
           ret (respond 404
                  (Text "PDF not loaded. Please load the PDF first using /api/pdf-rag/load"))
       | Some vectorStore =>
           results <- lift (similaritySearch vectorStore query k) ;;
           ret (ok (QueryResults query results))
       end)
      (fun e =>
         log error "" (Some e) ;;;
         ret (respond 500 (Failure "Failed to query PDF"
                                   (match e with Error message => message end))))
    end
  | _, _ => ret (respond 400 (Text "PDF ID and query are required"))
  end
  end.

(** DELETE /api/pdf-rag/unload/:pdfId *)
Definition rag_unload (vectorStores : list (string * VectorStore)) (pdfId : string)
  : Response * list (string * VectorStore) :=
  if Map_has vectorStores pdfId
  then (ok (Text "PDF unloaded from memory"), Map_delete vectorStores pdfId)
  else (respond 404 (Text "PDF not loaded"), vectorStores).

(** GET /api/pdf-rag/loaded *)
Definition rag_loaded (vectorStores : list (string * VectorStore)) : Response :=
  let loadedPdfIds := Map_keys vectorStores in
  ok (LoadedIds loadedPdfIds (length loadedPdfIds)).

End Rag.

(** ** Vocabulary for what a handler leaves alone *)

(** The command answers: no exception leaves it. *)
Definition answers_always {A} (m : M A) : Prop :=
  forall w, exists a w', m w = (Returned a, w').

(** The command keeps [R] between the world it starts in and the world it
    ends in, whether it returns or throws. *)
Definition keeps (R : World -> World -> Prop) {A} (m : M A) : Prop :=
  forall w, R w (snd (m w)).

(** Nothing was asked of the authorization service and its tuples are as
    they were. *)
Definition graph_untouched (w w' : World) : Prop :=
  service w' = service w /\ graph_calls w' = graph_calls w.

(** The tables are as they were. *)
Definition rows_untouched (w w' : World) : Prop := db w' = db w.

(** Users, documents and the files of the upload directory are as they
    were. *)
Definition stock_kept (w w' : World) : Prop :=
  t_users (db w') = t_users (db w) /\ t_uploadedPdfs (db w') = t_uploadedPdfs (db w) /\
  disk w' = disk w.

(** ** Vocabulary for sharing *)

(** The caller is a known user who owns the document, and the target is
    another known user. *)
Definition share_ready (req : ShareRequest) (w : World) (user targetUser : users.row)
    (userEmail targetEmail : string) (pdf : uploadedPdfs.row) : Prop :=
  present (share_targetEmail req) = Some targetEmail /\
  present (share_email req) = Some userEmail /\
  String.eqb userEmail targetEmail = false /\
  List.find (fun u => String.eqb (users.email u) userEmail) (t_users (db w)) = Some user /\
  List.find (fun u => String.eqb (users.email u) targetEmail) (t_users (db w))
    = Some targetUser /\
  List.find (fun p => String.eqb (uploadedPdfs.id p) (share_param_id req)
                      && String.eqb (uploadedPdfs.ownerId p) (users.id user))
            (t_uploadedPdfs (db w)) = Some pdf.

(** A Share Request row exists for (document, recipient). *)
Definition requested (w : World) (pdfId toUserId : string) : bool :=
  existsb (fun r => String.eqb (pdfShareRequests.pdfId r) pdfId
                    && String.eqb (pdfShareRequests.toUserId r) toUserId)
          (t_pdfShareRequests (db w)).

(** The row a share inserts. *)
Definition new_request (w : World) (pdfId fromUserId toUserId : string)
  : pdfShareRequests.row :=
  {| pdfShareRequests.id := entropy w (drawn w); pdfShareRequests.pdfId := pdfId;
     pdfShareRequests.fromUserId := fromUserId; pdfShareRequests.toUserId := toUserId;
     pdfShareRequests.createdAt := now w |}.

(** The world once the request is committed. *)
Definition after_share (r : pdfShareRequests.row) (w : World) : World :=
  add_effect (Inserted "pdf_share_requests" (pdfShareRequests.id r))
    (set_db (set_pdfShareRequests (fun t => t ++ [r])) (draw w)).

(** At most one request per (document, recipient). *)
Definition unique_requests (d : Db) : Prop :=
  NoDup (map (fun r => (pdfShareRequests.pdfId r, pdfShareRequests.toUserId r))
             (t_pdfShareRequests d)).

(** At most one document per (owner, work). *)
Definition unique_owner_work (d : Db) : Prop :=
  NoDup (map (fun p => (uploadedPdfs.ownerId p, uploadedPdfs.workId p))
             (t_uploadedPdfs d)).

Definition share_D1_with_bob : ShareRequest :=
  {| share_param_id := "D1";
     share_body := Some {| body_targetEmail := Some "bob@example.org" |};
     share_email := Some "alice@example.org" |}.

(** A table that already holds requests: one for D1 to Bob, one for D2 to a
    third user; and a request to share D2 with Bob. *)
Definition share_D2_carol : pdfShareRequests.row :=
  {| pdfShareRequests.id := "R2"; pdfShareRequests.pdfId := "D2";
     pdfShareRequests.fromUserId := "u-alice"; pdfShareRequests.toUserId := "u-carol";
     pdfShareRequests.createdAt := 0 |}.

Definition share_D2_with_bob : ShareRequest :=
  {| share_param_id := "D2";
     share_body := Some {| body_targetEmail := Some "bob@example.org" |};
     share_email := Some "alice@example.org" |}.

(** The caller is a known user and the share request is addressed to them. *)
Definition reject_ready (req : IdRequest) (w : World) (user : users.row)
    (userEmail : string) (shareRequest : pdfShareRequests.row) : Prop :=
  present (id_email req) = Some userEmail /\
  List.find (fun u => String.eqb (users.email u) userEmail) (t_users (db w)) = Some user /\
  List.find (fun r => String.eqb (pdfShareRequests.id r) (param_id req)
                      && String.eqb (pdfShareRequests.toUserId r) (users.id user))
            (t_pdfShareRequests (db w)) = Some shareRequest.

Definition reject_R1 : IdRequest :=
  {| param_id := "R1"; id_email := Some "bob@example.org" |}.

(** ** Vocabulary for download and delete *)

(** The caller is a known user and the document exists. *)
Definition download_ready (req : IdRequest) (w : World) (user : users.row)
    (userEmail : string) (pdf : uploadedPdfs.row) : Prop :=
  present (id_email req) = Some userEmail /\
  List.find (fun u => String.eqb (users.email u) userEmail) (t_users (db w)) = Some user /\
  List.find (fun p => String.eqb (uploadedPdfs.id p) (param_id req))
            (t_uploadedPdfs (db w)) = Some pdf.

(** The caller is a known user who owns the document. *)
Definition remove_ready (req : IdRequest) (w : World) (user : users.row)
    (userEmail : string) (pdf : uploadedPdfs.row) : Prop :=
  present (id_email req) = Some userEmail /\
  List.find (fun u => String.eqb (users.email u) userEmail) (t_users (db w)) = Some user /\
  List.find (fun p => String.eqb (uploadedPdfs.id p) (param_id req)
                      && String.eqb (uploadedPdfs.ownerId p) (users.id user))
            (t_uploadedPdfs (db w)) = Some pdf.

(** A document row with this identifier exists. *)
Definition has_pdf (w : World) (pdfId : string) : bool :=
  existsb (fun p => String.eqb (uploadedPdfs.id p) pdfId) (t_uploadedPdfs (db w)).

Definition grant_D1_bob : pdfAccess.row :=
  {| pdfAccess.id := "A1"; pdfAccess.pdfId := "D1"; pdfAccess.userId := "u-bob";
     pdfAccess.grantedAt := 0 |}.

Definition db_shared : Db :=
  {| t_users := [alice; bob]; t_linkedResearchers := [];
     t_uploadedPdfs := [paper "D1"; paper "D2"];
     t_pdfShareRequests := [share_D1]; t_pdfAccess := [grant_D1_bob] |}.

Definition remove_D1 : IdRequest :=
  {| param_id := "D1"; id_email := Some "alice@example.org" |}.

Definition download_D1_bob : IdRequest :=
  {| param_id := "D1"; id_email := Some "bob@example.org" |}.

(** ** Vocabulary for the status map and the candidates *)

(** What an entry of the status map says of the table: a document with that
    identifier and work exists, owned by the user when the entry says so,
    granted to the user otherwise. *)
Definition status_sound (w : World) (uid : string) (workId : string) (st : PdfStatus)
  : Prop :=
  exists pdf,
    In pdf (t_uploadedPdfs (db w)) /\
    uploadedPdfs.id pdf = status_id st /\
    uploadedPdfs.workId pdf = workId /\
    if status_isOwner st
    then uploadedPdfs.ownerId pdf = uid
    else has_access w (uploadedPdfs.id pdf) uid = true.

Definition status_D1 : StatusRequest :=
  {| status_workIds := Some "W-D1,W-D9"; status_email := Some "bob@example.org" |}.

(** The engine's sort returns elements of the array it is given. *)
Definition sort_rearranges (js : Builtins) : Prop :=
  forall (A : Type) (cmp : A -> A -> float) (l : list A) (x : A),
    In x (Array_sort js A cmp l) -> In x l.

(** ** Vocabulary for the retrieval handlers *)

(** Nothing but the log has changed. *)
Definition only_logged (w w' : World) : Prop :=
  env w' = env w /\ db w' = db w /\ disk w' = disk w /\ service w' = service w /\
  journal w' = journal w /\ drawn w' = drawn w.

(** The caller is a known user and the document is theirs or was granted to
    them. *)
Definition may_read (w : World) (userEmail pdfId : string) : Prop :=
  exists user pdf,
    List.find (fun u => String.eqb (users.email u) userEmail) (t_users (db w)) = Some user /\
    List.find (fun p => String.eqb (uploadedPdfs.id p) pdfId) (t_uploadedPdfs (db w))
      = Some pdf /\
    (uploadedPdfs.ownerId pdf = users.id user \/
     has_access w pdfId (users.id user) = true).

(** A reader and a store to run the handlers with: every file has two pages,
    the store is the list of its documents, a search returns the first. *)
Definition two_pages (filePath : string) : Result (list (list string)) :=
  Returned [["Access"; "control"]; ["by"; "relationship"]].

Definition keep_documents (docs : list Document) : Result (list Document) :=
  Returned docs.

Definition first_hit (store : list Document) (query : string) (k : float)
  : Result (list Document) :=
  Returned (firstn 1 store).

Definition library_world : World :=
  set_disk (fun _ => ["D1.pdf"]) (world_of configured_env db_shared [] []).


Definition load_D1_bob : RagLoadRequest :=
  {| rag_body := Some {| body_pdfId := Some "D1" |};
     rag_email := Some "bob@example.org" |}.

Definition query_D1_carol : RagQueryRequest :=
  {| query_body := Some {| q_pdfId := Some "D1"; q_query := Some "who may read";
                           q_k := None |};
     query_email := Some "carol@example.org" |}.

(** The reply of the query handler once a store is at hand. *)
Definition searched {VectorStore : Type}
    (similaritySearch : VectorStore -> string -> float -> Result (list Document))
    (store : VectorStore) (query : string) (k : option float) : Response :=
  match similaritySearch store query (match k with Some k => k | None => 4%float end) with
  | Returned results => ok (QueryResults query results)
  | Threw (Error message) => respond 500 (Failure "Failed to query PDF" message)
  end.

Definition nowhere : World := world_of ∅ empty_db [] [].

(** ** Vocabulary for the researcher links *)

(** A link of this user to this researcher exists. *)
Definition linked (w : World) (userId orcidId : string) : bool :=
  existsb (fun l => String.eqb (linkedResearchers.userId l) userId
                    && String.eqb (linkedResearchers.orcidId l) orcidId)
          (t_linkedResearchers (db w)).

(** The row a link inserts. *)
Definition new_link (w : World) (userId orcidId : string) (researcherName : option string)
  : linkedResearchers.row :=
  {| linkedResearchers.id := entropy w (drawn w); linkedResearchers.userId := userId;
     linkedResearchers.orcidId := orcidId;
     linkedResearchers.researcherName := researcherName;
     linkedResearchers.createdAt := now w |}.

(** The world once the link is committed. *)
Definition after_link (r : linkedResearchers.row) (w : World) : World :=
  add_effect (Inserted "linked_researchers" (linkedResearchers.id r))
    (set_db (set_linkedResearchers (fun t => t ++ [r])) (draw w)).

(** At most one link per (user, researcher). *)
Definition unique_links (d : Db) : Prop :=
  NoDup (map (fun l => (linkedResearchers.userId l, linkedResearchers.orcidId l))
             (t_linkedResearchers d)).

(** The caller is a known user. *)
Definition link_ready (req : LinkRequest) (w : World) (user : users.row)
    (userEmail orcidId : string) : Prop :=
  present (link_orcidId req) = Some orcidId /\
  present (link_email req) = Some userEmail /\
  List.find (fun u => String.eqb (users.email u) userEmail) (t_users (db w)) = Some user.

(** The caller is a known user and the link with this identifier is theirs. *)
Definition unlink_ready (req : IdRequest) (w : World) (user : users.row)
    (userEmail : string) (researcher : linkedResearchers.row) : Prop :=
  present (id_email req) = Some userEmail /\
  List.find (fun u => String.eqb (users.email u) userEmail) (t_users (db w)) = Some user /\
  List.find (fun l => String.eqb (linkedResearchers.id l) (param_id req)
                      && String.eqb (linkedResearchers.userId l) (users.id user))
            (t_linkedResearchers (db w)) = Some researcher.

Definition link_alice : LinkRequest :=
  {| link_body := Some {| body_orcidId := Some "0000-0002-1825-0097";
                          body_researcherName := None |};
     link_email := Some "alice@example.org" |}.

Definition link_of (id userId : string) : linkedResearchers.row :=
  {| linkedResearchers.id := id; linkedResearchers.userId := userId;
     linkedResearchers.orcidId := "0000-0001-6187-6610";
     linkedResearchers.researcherName := None; linkedResearchers.createdAt := 0 |}.

Definition db_linked : Db :=
  {| t_users := [alice; bob]; t_linkedResearchers := [link_of "L1" "u-alice"; link_of "L2" "u-bob"];
     t_uploadedPdfs := []; t_pdfShareRequests := []; t_pdfAccess := [] |}.

Definition unlink_L1 : IdRequest :=
  {| param_id := "L1"; id_email := Some "alice@example.org" |}.
(** * Properties *)

(** ** The rows of a query, in whatever order they come *)

Lemma insert_by_rank_perm {A} k (x : A) l :
  Permutation (map snd (insert_by_rank k x l)) (x :: map snd l).
Proof.
  induction l as [|[k' y] l IH]; simpl; [reflexivity|].
  destruct (Nat.leb k k'); simpl; [reflexivity|].
  rewrite IH. apply perm_swap.
Qed.

Lemma ranked_perm {A} rank i (rows : list A) :
  Permutation (map snd (ranked rank i rows)) rows.
Proof.
  revert i. induction rows as [|x rows IH]; intros i; simpl; [reflexivity|].
  rewrite insert_by_rank_perm. now rewrite IH.
Qed.

Lemma arranged_perm {A} rank (rows : list A) : Permutation (arranged rank rows) rows.
Proof. apply ranked_perm. Qed.

Lemma arranged_In {A} rank (rows : list A) x : In x (arranged rank rows) <-> In x rows.
Proof.
  split; apply Permutation_in; [|symmetry]; apply arranged_perm.
Qed.

(** ** Running handlers step by step *)

Lemma bind_run {A B} (m : M A) (k : A -> M B) w a w' :
  m w = (Returned a, w') -> bind m k w = k a w'.
Proof. unfold bind. now intros ->. Qed.

Lemma bind_threw {A B} (m : M A) (k : A -> M B) w e w' :
  m w = (Threw e, w') -> bind m k w = (Threw e, w').
Proof. unfold bind. now intros ->. Qed.

Lemma bind_gets {A B} (f : World -> A) (k : A -> M B) w :
  bind (gets f) k w = k (f w) w.
Proof. reflexivity. Qed.

Lemma bind_ret {A B} (a : A) (k : A -> M B) w : bind (ret a) k w = k a w.
Proof. reflexivity. Qed.

Lemma bind_modify {B} (f : World -> World) (k : unit -> M B) w :
  bind (modify f) k w = k tt (f w).
Proof. reflexivity. Qed.

Lemma bind_log {B} l t e (k : unit -> M B) w :
  bind (log l t e) k w = k tt (add_log {| level := l; text := t; thrown := e |} w).
Proof. reflexivity. Qed.

Lemma bind_assoc {A B C} (m : M A) (k : A -> M B) (k' : B -> M C) w :
  bind (bind m k) k' w = bind m (fun a => bind (k a) k') w.
Proof. unfold bind. destruct (m w) as [[a|e] w1]; reflexivity. Qed.

Lemma try_catch_run {A} (m : M A) h w a w' :
  m w = (Returned a, w') -> try_catch m h w = (Returned a, w').
Proof. unfold try_catch. now intros ->. Qed.

Lemma try_catch_threw {A} (m : M A) h w e w' :
  m w = (Threw e, w') -> try_catch m h w = h e w'.
Proof. unfold try_catch. now intros ->. Qed.

(** Run the first command of a sequence with an equation for it. *)
Ltac run_with H := erewrite bind_run by exact H.
Ltac threw_with H := erewrite bind_threw by exact H.


Lemma Client_check_run c t w :
  Client_check c t w =
    (answer (tuples (service w)) (hd Responds (outcomes (service w))) t,
     add_effect (Graph (Check t))
       (set_service {| tuples := tuples (service w);
                       outcomes := tl (outcomes (service w)) |} w)).
Proof.
  unfold Client_check, next_outcome.
  destruct (outcomes (service w)) as [|o rest]; simpl; [reflexivity|].
  destruct o; reflexivity.
Qed.

(** The constructor of the client. *)
Lemma client_builds_error w : client_builds w = true -> client_error w = None.
Proof. unfold client_builds. now destruct (client_error w). Qed.

Lemma client_error_builds w e : client_error w = Some e -> client_builds w = false.
Proof. unfold client_builds. now intros ->. Qed.

Lemma client_no_error_builds w : client_error w = None -> client_builds w = true.
Proof. unfold client_builds. now intros ->. Qed.

Lemma client_unbuilt_error w : client_builds w = false -> exists e, client_error w = Some e.
Proof. unfold client_builds. destruct (client_error w); [eauto | discriminate]. Qed.

Lemma getFGAClient_built w :
  client_builds w = true ->
  getFGAClient w = (Returned {| configuration := configuration_of (env w) |}, w).
Proof.
  intros H. apply client_builds_error in H. unfold client_error in H.
  unfold getFGAClient, OpenFgaClient_new. now rewrite H.
Qed.

Lemma getFGAClient_unbuilt w e :
  client_error w = Some e -> getFGAClient w = (Threw e, w).
Proof.
  unfold client_error. intros H. unfold getFGAClient, OpenFgaClient_new. now rewrite H.
Qed.

Lemma dispatch_checks c ts : forall w,
  dispatch (map (Client_check c) ts) w =
    (answers (tuples (service w)) (outcomes (service w)) ts,
     mkWorld (env w) (db w) (disk w) (disk_writable w)
             {| tuples := tuples (service w);
                outcomes := skipn (length ts) (outcomes (service w)) |}
             (console w) (journal w ++ map (fun t => Graph (Check t)) ts)
             (entropy w) (drawn w) (now w) (sdk w) (row_rank w)).
Proof.
  induction ts as [|t ts IH]; intros w; simpl.
  - rewrite app_nil_r. destruct w as [? ? ? ? [? ?] ? ? ? ? ? ? ?]; reflexivity.
  - rewrite Client_check_run, IH. simpl.
    rewrite <- app_assoc. simpl.
    destruct (outcomes (service w)); simpl; [|reflexivity].
    destruct (length ts); reflexivity.
Qed.

Lemma or_false_some b : or_false (Some b) = b.
Proof. destruct b; reflexivity. Qed.

Lemma Promise_all_answers s ts : forall outs,
  if existsb rejected (firstn (length ts) outs)
  then exists e, Promise_all (answers s outs ts) = Threw e
  else exists l, Promise_all (answers s outs ts) = Returned l /\
                 Forall2 (fun t a => or_false (allowed a) = holds t s) ts l.
Proof.
  induction ts as [|t ts IH]; intros outs; simpl.
  - exists []. split; [reflexivity | constructor].
  - destruct outs as [|o outs]; simpl.
    + specialize (IH []). rewrite firstn_nil in IH. simpl in IH.
      destruct IH as [l [-> HF]]. eexists; split; [reflexivity|].
      constructor; [|exact HF]. apply or_false_some.
    + specialize (IH outs). destruct o; simpl.
      * destruct (existsb rejected (firstn (length ts) outs)).
        -- destruct IH as [e ->]. eauto.
        -- destruct IH as [l [-> HF]]. eexists; split; [reflexivity|].
           constructor; [|exact HF]. apply or_false_some.
      * destruct (existsb rejected (firstn (length ts) outs)).
        -- destruct IH as [e ->]. eauto.
        -- destruct IH as [l [-> HF]]. eexists; split; [reflexivity|].
           constructor; [|exact HF]. simpl. destruct (holds t s); reflexivity.
      * eauto.
Qed.

Lemma add_log_with_console e w :
  add_log e w = with_console (console w ++ [e]) w.
Proof. reflexivity. Qed.

Lemma with_console_twice c c' w :
  with_console c (with_console c' w) = with_console c w.
Proof. reflexivity. Qed.

Lemma record_responses_run (f : string -> bool) responses documentIds :
  forall index results w,
    (forall k d, documentIds !! k = Some d ->
       exists r, responses !! (index + k) = Some r /\ or_false (allowed r) = f d) ->
    exists logs,
      record_responses documentIds index responses results w =
        (Returned (table_of f documentIds results), with_console (console w ++ logs) w).
Proof.
  induction documentIds as [|d ds IH]; intros index results w H; simpl.
  - exists []. rewrite app_nil_r. destruct w; reflexivity.
  - destruct (H 0 d eq_refl) as [r [Hr Hf]].
    rewrite Nat.add_0_r in Hr. rewrite Hr.
    unfold bind, log, modify. rewrite add_log_with_console.
    destruct (IH (S index) (<[d := or_false (allowed r)]> results)
                 (with_console
                    (console w ++
                     [{| level := info;
                         text := "[FGA] doc:" +:+ d +:+ " - allowed: "
                                 +:+ bool_name (or_false (allowed r));
                         thrown := None |}]) w)) as [logs Hl].
    { intros k d' Hk. destruct (H (S k) d' Hk) as [r' [Hr' Hf']].
      exists r'. split; [|exact Hf']. rewrite <- Hr'. f_equal. lia. }
    rewrite Hl. eexists. unfold table_of; simpl. rewrite Hf.
    rewrite with_console_twice. simpl. rewrite <- app_assoc. reflexivity.
Qed.

Lemma table_of_lookup f ds : forall results d,
  table_of f ds results !! d = if bool_decide (d ∈ ds) then Some (f d) else results !! d.
Proof.
  induction ds as [|d0 ds IH]; intros results d; unfold table_of in *; cbn [fold_left].
  - case_bool_decide as H; [by apply elem_of_nil in H | done].
  - rewrite IH. repeat case_bool_decide; try done.
    + exfalso. set_solver.
    + destruct (decide (d = d0)) as [->|Hne].
      * by rewrite lookup_insert_eq.
      * exfalso. set_solver.
    + rewrite lookup_insert_ne; [done|]. set_solver.
Qed.

Lemma table_of_dom f ds : forall results,
  dom (table_of f ds results) = dom results ∪ list_to_set ds.
Proof.
  induction ds as [|d0 ds IH]; intros results; unfold table_of in *; cbn [fold_left].
  - set_solver.
  - rewrite IH, dom_insert_L. set_solver.
Qed.

Lemma all_false_table ds results :
  all_false ds results = table_of (fun _ => false) ds results.
Proof. reflexivity. Qed.

Lemma lookup_map_viewer_of u ds k d :
  ds !! k = Some d -> map (viewer_of u) ds !! k = Some (viewer_of u d).
Proof.
  revert k. induction ds as [|d0 ds IH]; intros k H; [destruct k; discriminate|].
  destruct k; simpl in *; [now inversion H | now apply IH].
Qed.

(** The client is built before the [try]: what its constructor throws
    leaves the function, and nothing has happened yet. *)
Lemma batchCheckDocumentAccess_unbuilt userEmail documentIds w e :
  client_error w = Some e ->
  batchCheckDocumentAccess userEmail documentIds w = (Threw e, w).
Proof.
  intros H. unfold batchCheckDocumentAccess.
  now rewrite (bind_threw _ _ _ _ _ (getFGAClient_unbuilt w e H)).
Qed.

(** What a batch check returns once the client is built, and the world it
    leaves. *)
Lemma batchCheckDocumentAccess_run userEmail documentIds w :
  client_builds w = true ->
  exists logs,
    batchCheckDocumentAccess userEmail documentIds w =
      (Returned
         (if batch_rejected w (length documentIds)
          then table_of (fun _ => false) documentIds ∅
          else table_of (fun d => holds (viewer_of userEmail d) (tuples (service w)))
                        documentIds ∅),
       with_console (console w ++ logs)
         (after_checks (map (viewer_of userEmail) documentIds) w)).
Proof.
  intros Hbuilt. unfold batchCheckDocumentAccess.
  rewrite (bind_run _ _ _ _ _ (getFGAClient_built w Hbuilt)).
  unfold bind at 1, log at 1, modify. unfold try_catch, bind at 1, await_all.
  rewrite map_map.
  change (map (fun x => Client_check ?c {| user := "user:" +:+ userEmail;
                                            relation := viewer;
                                            object := "doc:" +:+ x |}) documentIds)
    with (map (fun x => Client_check c (viewer_of userEmail x)) documentIds).
  rewrite <- (map_map (viewer_of userEmail) (Client_check _)).
  rewrite dispatch_checks. simpl service. simpl outcomes. simpl tuples.
  pose proof (Promise_all_answers (tuples (service w))
                (map (viewer_of userEmail) documentIds) (outcomes (service w))) as HP.
  rewrite length_map in HP. unfold batch_rejected.
  destruct (existsb rejected (firstn (length documentIds) (outcomes (service w)))).
  - destruct HP as [e ->]. unfold bind, log, modify, ret. simpl.
    eexists. rewrite all_false_table. f_equal.
    unfold with_console, after_checks, add_log; simpl.
    rewrite <- app_assoc. reflexivity.
  - destruct HP as [l [-> HF]].
    edestruct (record_responses_run
                 (fun d => holds (viewer_of userEmail d) (tuples (service w)))
                 l documentIds 0 ∅) as [logs Hl]; [|rewrite Hl].
    + intros k d Hk. simpl.
      destruct (Forall2_lookup_l _ _ _ k _ HF (lookup_map_viewer_of userEmail _ _ _ Hk))
        as [a [Ha Hp]].
      exists a. split; assumption.
    + eexists. f_equal. unfold with_console, after_checks, add_log; simpl.
      rewrite <- app_assoc. reflexivity.
Qed.

Lemma existsb_firstn_nth {A} (p : A -> bool) (d : A) (Hd : p d = false) l : forall n,
  existsb p (firstn n l) = true <-> exists i, i < n /\ p (nth i l d) = true.
Proof.
  induction l as [|x l IH]; intros n.
  - rewrite firstn_nil. simpl. split; [discriminate|].
    intros [i [_ H]]. destruct i; simpl in H; congruence.
  - destruct n; simpl.
    + split; [discriminate | intros [i [H _]]; lia].
    + rewrite orb_true_iff, IH. split.
      * intros [H | [i [Hi H]]]; [exists 0 | exists (S i)]; split; auto; lia.
      * intros [[|i] [Hi H]]; [left; exact H | right; exists i; split; auto; lia].
Qed.

Lemma batch_rejected_iff w n :
  batch_rejected w n = true <->
  exists i, i < n /\ rejected (outcome_at w i) = true.
Proof. unfold batch_rejected, outcome_at. now apply existsb_firstn_nth. Qed.

(** ** The batch check *)

(** C9. For every user and every list of document identifiers, the map
    that [batchCheckDocumentAccess] returns has exactly the identifiers of
    the list as its keys, whether the checks were all answered or one of
    them was rejected; and it does return a map, on either path, once its
    client is built. (The client is built before the [try]: when the
    constructor throws, the function throws and there is no map.) *)
Theorem batchCheckDocumentAccess_keys
    (userEmail : string) (documentIds : list string) (w : World) :
  (forall (results : gmap string bool) (w' : World),
      batchCheckDocumentAccess userEmail documentIds w = (Returned results, w') ->
      dom results = list_to_set documentIds /\
      (forall docId, is_Some (results !! docId) <-> docId ∈ documentIds)) /\
  match client_error w with
  | None =>
      exists (results : gmap string bool) (w' : World),
        batchCheckDocumentAccess userEmail documentIds w = (Returned results, w')
  | Some e => batchCheckDocumentAccess userEmail documentIds w = (Threw e, w)
  end.
Proof.
  assert (Hdom : forall f, dom (table_of f documentIds ∅)
                           = (list_to_set documentIds : gset string)).
  { intros f. rewrite table_of_dom. set_solver. }
  destruct (client_error w) as [e|] eqn:Ec.
  - pose proof (batchCheckDocumentAccess_unbuilt userEmail documentIds w e Ec) as H.
    split; [|exact H]. intros results w' Hrun. rewrite H in Hrun. discriminate Hrun.
  - assert (Hb : client_builds w = true) by (unfold client_builds; now rewrite Ec).
    destruct (batchCheckDocumentAccess_run userEmail documentIds w Hb) as [logs H].
    split; [|eexists _, _; exact H].
    intros results w' Hrun. rewrite H in Hrun. inversion Hrun; subst; clear Hrun.
    split.
    + destruct (batch_rejected w (length documentIds)); apply Hdom.
    + intros docId. rewrite <- elem_of_dom.
      destruct (batch_rejected w (length documentIds)); rewrite Hdom; set_solver.
Qed.

(** C1 (as the code has it). For every user and every list of document
    identifiers, once its client is built the batch check returns a map that
    gives every identifier of the list [false] as soon as the check of any
    one document of the batch is rejected; only when no check of the batch is
    rejected does each document get the answer of its own check. When the
    constructor of the client throws, the batch check throws that error
    before any check is sent. *)
Theorem batch_check_fails_closed_as_a_whole
    (userEmail : string) (documentIds : list string) (w : World) :
  match client_error w with
  | None =>
      exists (results : gmap string bool) (w' : World),
        batchCheckDocumentAccess userEmail documentIds w = (Returned results, w') /\
        (batch_rejected w (length documentIds) = true <->
         exists i, i < length documentIds /\ rejected (outcome_at w i) = true) /\
        (forall docId, docId ∈ documentIds ->
           results !! docId =
             Some (if batch_rejected w (length documentIds) then false
                   else check w userEmail viewer docId))
  | Some e => batchCheckDocumentAccess userEmail documentIds w = (Threw e, w)
  end.
Proof.
  destruct (client_error w) as [e|] eqn:Ec;
    [exact (batchCheckDocumentAccess_unbuilt userEmail documentIds w e Ec)|].
  assert (Hb : client_builds w = true) by (unfold client_builds; now rewrite Ec).
  destruct (batchCheckDocumentAccess_run userEmail documentIds w Hb) as [logs H].
  eexists _, _. split; [exact H|]. split; [apply batch_rejected_iff|].
  intros docId Hin.
  destruct (batch_rejected w (length documentIds));
    rewrite table_of_lookup, bool_decide_eq_true_2 by exact Hin; reflexivity.
Qed.

(** C1, refuted as stated: in an installation with a complete
    configuration and two documents the user may view, a rejected check of
    the second makes the first, whose own check was answered [allowed], not
    authorized as well. *)
Lemma batch_check_not_per_item : ~ fails_closed_per_item.
Proof.
  intros H.
  pose (w := world_of configured_env empty_db
               [viewer_of "alice@example.org" "D1"; viewer_of "alice@example.org" "D2"]
               [Responds; Rejects (Error "503 Service Unavailable")]).
  destruct (batchCheckDocumentAccess_run "alice@example.org" ["D1"; "D2"] w eq_refl)
    as [logs Hrun].
  specialize (H "alice@example.org" ["D1"; "D2"] w _ _ 0 "D1" Hrun).
  assert (Hn : NoDup ["D1"; "D2"]).
  { repeat constructor; set_solver. }
  specialize (H Hn eq_refl eq_refl).
  vm_compute in H. discriminate H.
Qed.

(** ** The single check *)

(** What the single check does once the client is built. *)
Lemma canUserViewDocument_run userEmail documentId w :
  client_builds w = true ->
  exists (b : bool) (w' : World),
    canUserViewDocument userEmail documentId w = (Returned b, w') /\
    (forall e, outcome_at w 0 = Rejects e ->
       b = false /\
       console w' = console w ++ [ {| level := error; text := "FGA check error:";
                                      thrown := Some e |} ]) /\
    (rejected (outcome_at w 0) = false -> b = check w userEmail viewer documentId).
Proof.
  intros Hbuilt. unfold canUserViewDocument.
  rewrite (bind_run _ _ _ _ _ (getFGAClient_built w Hbuilt)).
  unfold try_catch, bind at 1.
  rewrite Client_check_run. unfold outcome_at.
  destruct (outcomes (service w)) as [|o outs]; simpl.
  - eexists _, _. split; [reflexivity|]. split; [discriminate|].
    intros _. apply or_false_some.
  - destruct o; simpl.
    + eexists _, _. split; [reflexivity|]. split; [discriminate|].
      intros _. apply or_false_some.
    + eexists _, _. split; [reflexivity|]. split; [discriminate|].
      intros _. unfold check, stored. simpl.
      destruct (holds _ (tuples (service w))); reflexivity.
    + eexists _, _. split; [reflexivity|]. split; [|discriminate].
      intros e' He. inversion He; subst. split; reflexivity.
Qed.

Lemma canUserViewDocument_unbuilt userEmail documentId w e :
  client_error w = Some e ->
  canUserViewDocument userEmail documentId w = (Threw e, w).
Proof.
  intros H. unfold canUserViewDocument.
  now rewrite (bind_threw _ _ _ _ _ (getFGAClient_unbuilt w e H)).
Qed.

(** C7 (as the code has it). For every user and document, once the client is
    built [canUserViewDocument] returns a boolean and lets no exception out:
    a rejected check call (a transport or service error) is logged on the
    error channel and reported as [false]; an answered check is reported as
    the service's answer. The client is built before the [try]: when its
    constructor throws, [canUserViewDocument] throws that very error, before
    any call and without a log line. *)
Theorem canUserViewDocument_fails_closed
    (userEmail documentId : string) (w : World) :
  match client_error w with
  | None =>
      exists (b : bool) (w' : World),
        canUserViewDocument userEmail documentId w = (Returned b, w') /\
        (forall e, outcome_at w 0 = Rejects e ->
           b = false /\
           console w' = console w ++ [ {| level := error; text := "FGA check error:";
                                          thrown := Some e |} ]) /\
        (rejected (outcome_at w 0) = false -> b = check w userEmail viewer documentId)
  | Some e => canUserViewDocument userEmail documentId w = (Threw e, w)
  end.
Proof.
  destruct (client_error w) as [e|] eqn:Ec;
    [exact (canUserViewDocument_unbuilt userEmail documentId w e Ec)|].
  apply canUserViewDocument_run. unfold client_builds. now rewrite Ec.
Qed.

(** C7, refuted as stated: with [FGA_STORE_ID] set and the address of the
    service missing, the constructor of the client throws and the exception
    reaches the caller of [canUserViewDocument]. *)
Lemma canUserViewDocument_can_throw : ~ check_never_throws.
Proof.
  intros H.
  destruct (H "alice@example.org" "D1" (world_of store_only_env empty_db [] []))
    as [b [w' Hrun]].
  assert (Hc : exists e, client_error (world_of store_only_env empty_db [] []) = Some e)
    by (eexists; reflexivity).
  destruct Hc as [e Hc].
  rewrite (canUserViewDocument_unbuilt _ _ _ e Hc) in Hrun. discriminate Hrun.
Qed.

(** ** Grants *)

Lemma remove_no_tuples ts : remove_tuples [] ts = ts.
Proof.
  unfold remove_tuples. induction ts as [|t ts IH]; simpl in *; [reflexivity|].
  f_equal. exact IH.
Qed.

Lemma outcome_at_0 w : outcome_at w 0 = hd Responds (outcomes (service w)).
Proof. unfold outcome_at. destruct (outcomes (service w)); reflexivity. Qed.

Lemma skipn_1_tl {A} (l : list A) : skipn 1 l = tl l.
Proof. destruct l; reflexivity. Qed.

(** One grant: the tuple is written unless the call is rejected, and a
    rejected call is rethrown. *)
Lemma grantDocumentAccess_run userEmail documentId r w :
  client_builds w = true ->
  exists logs,
    grantDocumentAccess userEmail documentId r w =
      match outcome_at w 0 with
      | Rejects e =>
          (Threw e, after_service [] [Write [tuple_of userEmail r documentId] []] logs w)
      | _ =>
          (Returned tt,
           after_service [tuple_of userEmail r documentId]
                         [Write [tuple_of userEmail r documentId] []] logs w)
      end.
Proof.
  intros Hbuilt. unfold grantDocumentAccess.
  rewrite (bind_run _ _ _ _ _ (getFGAClient_built w Hbuilt)). rewrite bind_log.
  unfold try_catch, bind at 1, Client_write, next_outcome.
  rewrite outcome_at_0. simpl service. simpl outcomes.
  unfold after_service, tuple_of. simpl length. rewrite skipn_1_tl.
  destruct (outcomes (service w)) as [|[| |e] outs]; simpl; eexists;
    unfold bind, log, modify, ret, throw, add_log, set_service, add_effect; simpl;
    rewrite ?remove_no_tuples, ?(app_nil_r (tuples (service w))), <- ?app_assoc;
    reflexivity.
Qed.

(** The client is built first, before the log line and the [try]. *)
Lemma grantDocumentAccess_unbuilt userEmail documentId r w e :
  client_error w = Some e ->
  grantDocumentAccess userEmail documentId r w = (Threw e, w).
Proof.
  intros H. unfold grantDocumentAccess.
  now rewrite (bind_threw _ _ _ _ _ (getFGAClient_unbuilt w e H)).
Qed.

Lemma after_service_nothing w : after_service [] [] [] w = w.
Proof.
  destruct w as [? ? ? ? [? ?] ? ? ? ? ? ? ?]. unfold after_service. simpl.
  now rewrite !app_nil_r.
Qed.

Lemma client_builds_after_service a ca la w :
  client_builds (after_service a ca la w) = client_builds w.
Proof. reflexivity. Qed.

Lemma after_service_twice a ca la b cb lb w :
  after_service b cb lb (after_service a ca la w)
  = after_service (a ++ b) (ca ++ cb) (la ++ lb) w.
Proof.
  unfold after_service; simpl.
  rewrite skipn_skipn, length_app, map_app, !app_assoc.
  now rewrite (Nat.add_comm (length cb)).
Qed.

Lemma add_log_after_service e a ca la w :
  add_log e (after_service a ca la w) = after_service a ca (la ++ [e]) w.
Proof. unfold add_log, after_service; simpl. now rewrite app_assoc. Qed.

Lemma outcome_at_after_service a ca la w i :
  outcome_at (after_service a ca la w) i = outcome_at w (length ca + i).
Proof. unfold outcome_at, after_service; simpl. apply nth_skipn. Qed.

(** The grants of an upload never throw; what they write depends on the
    outcome of the calls. *)
Lemma upload_grant_run userEmail documentId w :
  exists logs,
    upload_grant userEmail documentId w =
      (Returned tt,
       if fga_configured w
       then after_service (upload_written w userEmail documentId)
                          (upload_calls w userEmail documentId) logs w
       else w).
Proof.
  unfold upload_grant. rewrite bind_gets.
  destruct (fga_configured w); [|exists []; reflexivity].
  unfold upload_written, upload_calls.
  destruct (client_error w) as [e|] eqn:Ec.
  { rewrite (client_error_builds w e Ec). simpl. eexists.
    erewrite try_catch_threw
      by (threw_with (grantDocumentAccess_unbuilt userEmail documentId owner w e Ec);
          reflexivity).
    unfold log, modify.
    rewrite <- (after_service_nothing w) at 1. rewrite add_log_after_service.
    reflexivity. }
  assert (Hbuilt : client_builds w = true) by (unfold client_builds; now rewrite Ec).
  rewrite Hbuilt. cbn [negb].
  destruct (grantDocumentAccess_run userEmail documentId owner w Hbuilt) as [l1 H1].
  destruct (outcome_at w 0) eqn:E0; simpl.
  1,2: destruct (grantDocumentAccess_run userEmail documentId viewer
                   (after_service [tuple_of userEmail owner documentId]
                      [Write [tuple_of userEmail owner documentId] []] l1 w) Hbuilt)
         as [l2 H2];
       rewrite outcome_at_after_service in H2; simpl in H2;
       destruct (outcome_at w 1) eqn:E1; simpl.
  1,2,4,5:
    eexists;
    erewrite try_catch_run;
      [reflexivity
      | run_with H1; run_with H2;
        unfold log, modify; rewrite add_log_after_service, after_service_twice;
        reflexivity].
  1,2:
    eexists;
    erewrite try_catch_threw;
      [| run_with H1; threw_with H2; reflexivity];
    unfold log, modify; rewrite add_log_after_service, after_service_twice;
    reflexivity.
  eexists. erewrite try_catch_threw; [| threw_with H1; reflexivity].
  unfold log, modify. rewrite add_log_after_service. reflexivity.
Qed.

Lemma accept_grant_run userEmail documentId w :
  exists logs,
    accept_grant userEmail documentId w =
      (Returned tt,
       if fga_configured w
       then after_service (accept_written w userEmail documentId)
                          (accept_calls w userEmail documentId) logs w
       else w).
Proof.
  unfold accept_grant. rewrite bind_gets.
  destruct (fga_configured w); [|exists []; reflexivity].
  unfold accept_written, accept_calls.
  destruct (client_error w) as [e|] eqn:Ec.
  { rewrite (client_error_builds w e Ec). simpl. eexists.
    erewrite try_catch_threw
      by (threw_with (grantDocumentAccess_unbuilt userEmail documentId viewer w e Ec);
          reflexivity).
    unfold log, modify.
    rewrite <- (after_service_nothing w) at 1. rewrite add_log_after_service.
    reflexivity. }
  assert (Hbuilt : client_builds w = true) by (unfold client_builds; now rewrite Ec).
  rewrite Hbuilt. cbn [negb].
  destruct (grantDocumentAccess_run userEmail documentId viewer w Hbuilt) as [l1 H1].
  destruct (outcome_at w 0) eqn:E0; simpl.
  1,2: eexists; erewrite try_catch_run;
         [reflexivity
         | run_with H1; unfold log, modify;
           rewrite add_log_after_service; reflexivity].
  eexists. erewrite try_catch_threw; [| threw_with H1; reflexivity].
  unfold log, modify. rewrite add_log_after_service. reflexivity.
Qed.

(** ** The upload handler *)

Lemma find_none_existsb {A} (p : A -> bool) l :
  List.find p l = None -> existsb p l = false.
Proof.
  induction l as [|x l IH]; simpl; [reflexivity|].
  destruct (p x); [discriminate | exact IH].
Qed.

Lemma insert_uploadedPdfs_run ownerId workId fileName originalName wt oi rn w :
  existsb (fun r => String.eqb (uploadedPdfs.ownerId r) ownerId
                    && String.eqb (uploadedPdfs.workId r) workId)
          (t_uploadedPdfs (db w)) = false ->
  let r := {| uploadedPdfs.id := entropy w (drawn w);
              uploadedPdfs.ownerId := ownerId; uploadedPdfs.workId := workId;
              uploadedPdfs.workTitle := wt; uploadedPdfs.orcidId := oi;
              uploadedPdfs.researcherName := rn; uploadedPdfs.fileName := fileName;
              uploadedPdfs.originalName := originalName;
              uploadedPdfs.uploadedAt := now w |} in
  insert_uploadedPdfs ownerId workId fileName originalName wt oi rn w =
    (Returned [r],
     add_effect (Inserted "uploaded_pdfs" (entropy w (drawn w)))
       (set_db (set_uploadedPdfs (fun t => t ++ [r])) (draw w))).
Proof.
  intros H. unfold insert_uploadedPdfs, bind, randomUUID, gets, modify, record_effects, ret.
  simpl. rewrite H. reflexivity.
Qed.

Lemma pipeline_run fileName w :
  disk_writable w = true ->
  pipeline fileName w = (Returned tt, set_disk (fun d => d ++ [fileName]) w).
Proof. unfold pipeline. now intros ->. Qed.

(** A first upload: the row is committed, then the grants run. *)
Lemma upload_new_run req w user workId userEmail filename :
  upload_ready req w user workId userEmail filename ->
  existing_pdf w user workId = None ->
  exists logs,
    upload req w =
      (Returned (send (StoredPdf (entropy w (S (drawn w))) workId filename (now w))),
       let r := new_pdf req user workId filename w in
       if fga_configured w
       then after_service (upload_written w userEmail (uploadedPdfs.id r))
                          (upload_calls w userEmail (uploadedPdfs.id r)) logs
                          (after_insert r w)
       else after_insert r w).
Proof.
  intros (Hw & He & Hu & Hf & Hd) Hex. unfold existing_pdf in Hex.
  unfold upload. rewrite Hw, He.
  destruct (upload_grant_run userEmail (entropy w (S (drawn w)))
              (after_insert (new_pdf req user workId filename w) w)) as [logs Hg].
  exists logs. apply try_catch_run.
  unfold findFirst. rewrite bind_gets, Hu, Hf, bind_gets, Hex.
  unfold randomUUID at 1, bind at 1.
  erewrite bind_run by (apply pipeline_run; exact Hd).
  erewrite bind_run
    by (apply insert_uploadedPdfs_run; simpl; apply find_none_existsb, Hex).
  unfold first_row. rewrite bind_ret.
  run_with Hg.
  reflexivity.
Qed.

Lemma record_effects_run es : forall w,
  exists w', record_effects es w = (Returned tt, w') /\
    db w' = db w /\ service w' = service w /\ env w' = env w /\
    journal w' = journal w ++ es.
Proof.
  unfold record_effects, modify.
  induction es as [|e es IH]; intros w; simpl.
  - eexists; split; [reflexivity|]. rewrite app_nil_r. auto.
  - destruct (IH (add_effect e w)) as [w' [H (Hdb & Hs & He & Hj)]].
    inversion H; subst. eexists; split; [reflexivity|].
    rewrite Hdb, Hs, He, Hj. simpl. rewrite <- app_assoc. auto.
Qed.

Lemma update_uploadedPdfs_run set_ where_ w :
  exists w',
    update_uploadedPdfs set_ where_ w =
      (Returned (map set_ (List.filter where_ (t_uploadedPdfs (db w)))), w') /\
    db w' = set_uploadedPdfs (map (fun r => if where_ r then set_ r else r)) (db w) /\
    service w' = service w /\ env w' = env w /\
    journal w' = journal w ++
                 map (fun r => Updated "uploaded_pdfs" (uploadedPdfs.id r))
                     (map set_ (List.filter where_ (t_uploadedPdfs (db w)))).
Proof.
  unfold update_uploadedPdfs. rewrite bind_gets, bind_modify.
  match goal with
  | |- context [record_effects ?es] =>
      destruct (record_effects_run es
                  (set_db (set_uploadedPdfs
                             (map (fun r => if where_ r then set_ r else r))) w))
        as [w' [H (Hdb & Hs & He & Hj)]]
  end.
  exists w'. split; [run_with H; reflexivity|].
  rewrite Hdb, Hs, He, Hj. auto.
Qed.

Lemma unlink_caught fileName w :
  exists w',
    try_catch (unlink fileName)
              (fun err => log warn "Failed to delete old file:" (Some err)) w
      = (Returned tt, w') /\
    db w' = db w /\ service w' = service w /\ env w' = env w /\
    journal w' = journal w /\ now w' = now w.
Proof.
  unfold try_catch, unlink.
  destruct (existsb (String.eqb fileName) (disk w));
    eexists; (split; [reflexivity|]); simpl; auto.
Qed.

Lemma refreshed_identities req existing fileName filename at_ where_ rows :
  map (fun p => (uploadedPdfs.id p, uploadedPdfs.ownerId p, uploadedPdfs.workId p))
      (map (fun r => if where_ r : bool
                     then refreshed req existing fileName filename at_ r else r) rows)
  = map (fun p => (uploadedPdfs.id p, uploadedPdfs.ownerId p, uploadedPdfs.workId p)) rows.
Proof.
  rewrite map_map. apply map_ext. intros r. destruct (where_ r); reflexivity.
Qed.

(** A re-upload: the row found for (owner, work) is rewritten where it is. *)
Lemma upload_again_run req w user workId userEmail filename existing :
  upload_ready req w user workId userEmail filename ->
  existing_pdf w user workId = Some existing ->
  exists w' workId',
    upload req w =
      (Returned (send (StoredPdf (uploadedPdfs.id existing) workId' filename (now w))),
       w') /\
    t_uploadedPdfs (db w') =
      map (fun r => if String.eqb (uploadedPdfs.id r) (uploadedPdfs.id existing)
                    then refreshed req existing
                           (entropy w (drawn w) +:+ "." +:+ fileExtension filename)
                           filename (now w) r
                    else r)
          (t_uploadedPdfs (db w)) /\
    service w' = service w /\
    (forall c, In (Graph c) (journal w') -> In (Graph c) (journal w)).
Proof.
  intros (Hw & He & Hu & Hf & Hd) Hex. unfold existing_pdf in Hex.
  unfold upload. rewrite Hw, He.
  unfold findFirst. unfold try_catch at 1. rewrite bind_gets, Hu, Hf, bind_gets, Hex.
  unfold randomUUID at 1, bind at 1.
  erewrite bind_run by (apply pipeline_run; exact Hd).
  match goal with
  | |- context [bind (try_catch (unlink ?f) ?h) ?k ?w0] =>
      destruct (unlink_caught f w0) as [w3 [H3 (Hdb3 & Hs3 & He3 & Hj3 & Hn3)]]
  end.
  run_with H3. rewrite bind_gets.
  match goal with
  | |- context [bind (update_uploadedPdfs ?s ?p) ?k ?w0] =>
      destruct (update_uploadedPdfs_run s p w0) as [w4 [H4 (Hdb4 & Hs4 & He4 & Hj4)]]
  end.
  run_with H4.
  simpl in Hdb3, Hs3, Hj3, Hn3. rewrite Hdb3 in *. rewrite Hn3 in *.
  destruct (find_some _ _ Hex) as [Hin Hp].
  destruct (List.filter
              (fun r => String.eqb (uploadedPdfs.id r) (uploadedPdfs.id existing))
              (t_uploadedPdfs (db w))) as [|p0 ps] eqn:Efil.
  { exfalso.
    assert (Hx : In existing
                   (List.filter
                      (fun r => String.eqb (uploadedPdfs.id r) (uploadedPdfs.id existing))
                      (t_uploadedPdfs (db w)))).
    { apply filter_In. split; [exact Hin | apply String.eqb_refl]. }
    rewrite Efil in Hx. exact Hx. }
  assert (Hp0 : uploadedPdfs.id p0 = uploadedPdfs.id existing).
  { assert (Hx : In p0 (List.filter
                      (fun r => String.eqb (uploadedPdfs.id r) (uploadedPdfs.id existing))
                      (t_uploadedPdfs (db w)))) by (rewrite Efil; left; reflexivity).
    apply filter_In in Hx. apply String.eqb_eq. exact (proj2 Hx). }
  simpl map. unfold first_row. rewrite bind_ret. unfold ret. simpl.
  rewrite Hp0.
  eexists w4, _. split; [reflexivity|].
  split; [rewrite Hdb4; reflexivity|].
  split; [congruence|].
  intros c Hc. rewrite Hj4, Hj3 in Hc. apply in_app_or in Hc.
  destruct Hc as [Hc | Hc]; [exact Hc | exfalso].
  apply in_map_iff in Hc. destruct Hc as [x [Hx _]]. discriminate Hx.
Qed.

(** ** The accept handler *)

Lemma insert_linkedResearchers_run userId orcidId rn w :
  exists w',
    insert_linkedResearchers userId orcidId rn w = (Returned tt, w') /\
    t_pdfAccess (db w') = t_pdfAccess (db w) /\
    t_pdfShareRequests (db w') = t_pdfShareRequests (db w) /\
    service w' = service w /\ env w' = env w /\ sdk w' = sdk w /\
    graph_calls w' = graph_calls w.
Proof.
  unfold insert_linkedResearchers, bind, randomUUID, gets, modify, record_effects, ret.
  simpl.
  destruct (existsb _ (t_linkedResearchers (db w)));
    eexists; (split; [reflexivity|]); simpl; repeat split.
  unfold graph_calls; simpl. rewrite flat_map_app. simpl. now rewrite app_nil_r.
Qed.

Lemma insert_pdfAccess_run pdfId userId w :
  exists w',
    insert_pdfAccess pdfId userId w = (Returned tt, w') /\
    has_access w' pdfId userId = true /\
    t_pdfShareRequests (db w') = t_pdfShareRequests (db w) /\
    service w' = service w /\ env w' = env w /\ sdk w' = sdk w /\
    graph_calls w' = graph_calls w.
Proof.
  unfold insert_pdfAccess, bind, randomUUID, gets, modify, record_effects, ret, has_access.
  simpl.
  destruct (existsb _ (t_pdfAccess (db w))) eqn:E;
    eexists; (split; [reflexivity|]); simpl; repeat split.
  - exact E.
  - rewrite existsb_app. simpl. now rewrite !String.eqb_refl, orb_true_r.
  - unfold graph_calls; simpl. rewrite flat_map_app. simpl. now rewrite app_nil_r.
Qed.

Lemma existsb_filter_negb {A} (p : A -> bool) l :
  existsb p (List.filter (fun x => negb (p x)) l) = false.
Proof.
  induction l as [|x l IH]; simpl; [reflexivity|].
  destruct (p x) eqn:E; simpl; [exact IH | now rewrite E].
Qed.

Lemma no_graph_in_deleted {A} (f : A -> string) (t : string) l :
  flat_map (fun e => match e with Graph c => [c] | _ => [] end)
           (map (fun r => Deleted t (f r)) l) = [].
Proof. induction l; simpl; auto. Qed.

Lemma delete_pdfShareRequests_run requestId w :
  exists w',
    delete_pdfShareRequests
      (fun r => String.eqb (pdfShareRequests.id r) requestId) w = (Returned tt, w') /\
    pending w' requestId = false /\
    t_pdfAccess (db w') = t_pdfAccess (db w) /\
    service w' = service w /\ env w' = env w /\
    graph_calls w' = graph_calls w.
Proof.
  unfold delete_pdfShareRequests. rewrite bind_gets, bind_modify.
  match goal with
  | |- context [record_effects ?es ?w0] =>
      destruct (record_effects_run es w0) as [w' [H (Hdb & Hs & He & Hj)]]
  end.
  exists w'. split; [exact H|]. unfold pending, graph_calls.
  rewrite Hdb, Hs, He, Hj. simpl. repeat split.
  - apply (existsb_filter_negb
             (fun r => String.eqb (pdfShareRequests.id r) requestId)).
  - rewrite flat_map_app, no_graph_in_deleted. apply app_nil_r.
Qed.

Lemma graph_calls_after_service a ca la w :
  graph_calls (after_service a ca la w) = graph_calls w ++ ca.
Proof.
  unfold graph_calls, after_service; simpl. rewrite flat_map_app. f_equal.
  induction ca; simpl; [reflexivity | now f_equal].
Qed.

(** An accepted share: the Access Grant row is committed, the grant runs,
    the Share Request row is deleted. *)
Lemma accept_run req w user userEmail shareRequest pdf :
  accept_ready req w user userEmail shareRequest pdf ->
  exists w',
    accept req w = (Returned (send (Message "Share request accepted")), w') /\
    has_access w' (pdfShareRequests.pdfId shareRequest) (users.id user) = true /\
    pending w' (accept_id req) = false /\
    tuples (service w') =
      tuples (service w) ++
      (if fga_configured w
       then accept_written w userEmail (pdfShareRequests.pdfId shareRequest) else []) /\
    graph_calls w' =
      graph_calls w ++
      (if fga_configured w
       then accept_calls w userEmail (pdfShareRequests.pdfId shareRequest) else []).
Proof.
  intros (He & Hu & Hr & Hp).
  unfold accept. rewrite He. unfold findFirst, try_catch at 1.
  rewrite bind_gets, Hu, bind_gets, Hr, bind_gets, Hp.
  assert (Hlink : exists w1,
    (match present (uploadedPdfs.orcidId pdf),
           present (uploadedPdfs.researcherName pdf) with
     | Some orcidId, Some researcherName =>
         existingLink <- gets (fun w0 =>
                           List.find
                             (fun l => String.eqb (linkedResearchers.userId l)
                                                  (users.id user)
                                       && String.eqb (linkedResearchers.orcidId l) orcidId)
                             (t_linkedResearchers (db w0))) ;;
         match existingLink with
         | Some _ => ret tt
         | None => insert_linkedResearchers (users.id user) orcidId (Some researcherName)
         end
     | _, _ => ret tt
     end) w = (Returned tt, w1) /\
    t_pdfAccess (db w1) = t_pdfAccess (db w) /\
    t_pdfShareRequests (db w1) = t_pdfShareRequests (db w) /\
    service w1 = service w /\ env w1 = env w /\ sdk w1 = sdk w /\
    graph_calls w1 = graph_calls w).
  { destruct (present (uploadedPdfs.orcidId pdf)) as [o|];
      [|exists w; repeat split].
    destruct (present (uploadedPdfs.researcherName pdf)) as [n|];
      [|exists w; repeat split].
    rewrite bind_gets. destruct (List.find _ (t_linkedResearchers (db w)));
      [exists w; repeat split|].
    apply insert_linkedResearchers_run. }
  destruct Hlink as [w1 [H1 (Ha1 & Hq1 & Hs1 & He1 & Hk1 & Hg1)]].
  run_with H1.
  destruct (insert_pdfAccess_run (pdfShareRequests.pdfId shareRequest) (users.id user) w1)
    as [w2 [H2 (Ha2 & Hq2 & Hs2 & He2 & Hk2 & Hg2)]].
  run_with H2.
  destruct (accept_grant_run userEmail (pdfShareRequests.pdfId shareRequest) w2)
    as [logs H3].
  run_with H3.
  match goal with
  | |- context [bind (delete_pdfShareRequests _) _ ?w0] =>
      destruct (delete_pdfShareRequests_run (accept_id req) w0)
        as [w4 [H4 (Hq4 & Ha4 & Hs4 & He4 & Hg4)]]
  end.
  run_with H4. unfold ret.
  exists w4. split; [reflexivity|].
  assert (Hc : fga_configured w2 = fga_configured w)
    by (unfold fga_configured; congruence).
  assert (Ho : forall i, outcome_at w2 i = outcome_at w i)
    by (intros i; unfold outcome_at; congruence).
  assert (Hb : client_builds w2 = client_builds w)
    by (unfold client_builds, client_error; rewrite Hk2, Hk1, He2, He1; reflexivity).
  rewrite Hc in *.
  split; [|split; [exact Hq4|split]].
  - unfold has_access in *. rewrite Ha4.
    destruct (fga_configured w); exact Ha2.
  - rewrite Hs4. unfold accept_written. rewrite Ho, Hb.
    destruct (fga_configured w); simpl; [congruence|].
    rewrite app_nil_r. congruence.
  - rewrite Hg4. unfold accept_calls. rewrite Hb.
    destruct (fga_configured w).
    + rewrite graph_calls_after_service. congruence.
    + rewrite app_nil_r. congruence.
Qed.

(** ** Uploads and accepted shares against the graph *)

Lemma tuple_eqb_refl t : tuple_eqb t t = true.
Proof.
  unfold tuple_eqb. rewrite !String.eqb_refl. now destruct (relation t).
Qed.

Lemma holds_in t held : In t held -> holds t held = true.
Proof.
  intros H. unfold holds. apply existsb_exists. exists t.
  split; [exact H | apply tuple_eqb_refl].
Qed.


(** C8. For every user U and work W for which U already holds a document,
    uploading again under (U, W) answers with the identifier of that
    document and rewrites its row where it is: the table keeps its length,
    and the identifier, owner and work of every row are what they were;
    the rows with that identifier carry the new file. *)
Theorem reupload_updates_in_place
    (req : UploadRequest) (w : World) (user : users.row)
    (workId userEmail filename : string) (existing : uploadedPdfs.row) :
  upload_ready req w user workId userEmail filename ->
  existing_pdf w user workId = Some existing ->
  exists w' workId',
    upload req w =
      (Returned (send (StoredPdf (uploadedPdfs.id existing) workId' filename (now w))),
       w') /\
    identities w' = identities w /\
    length (t_uploadedPdfs (db w')) = length (t_uploadedPdfs (db w)) /\
    (forall p, In p (t_uploadedPdfs (db w')) ->
       uploadedPdfs.id p = uploadedPdfs.id existing ->
       uploadedPdfs.originalName p = filename /\ uploadedPdfs.uploadedAt p = now w).
Proof.
  intros Hready Hex.
  destruct (upload_again_run req w user workId userEmail filename existing Hready Hex)
    as [w' [workId' (Hrun & Hrows & _ & _)]].
  exists w', workId'. split; [exact Hrun|].
  unfold identities. rewrite Hrows. split; [apply refreshed_identities|].
  split; [apply length_map|].
  intros p Hin Hid. apply in_map_iff in Hin. destruct Hin as [r [Hr _]].
  destruct (String.eqb (uploadedPdfs.id r) (uploadedPdfs.id existing)) eqn:E.
  - subst p. split; reflexivity.
  - subst p. apply String.eqb_neq in E. contradiction.
Qed.

Lemma reupload_updates_in_place_witness :
  exists w' workId',
    upload upload_D1 (world_of configured_env (db_of [paper "D0"; paper "D1"] []) [] []) =
      (Returned (send (StoredPdf "D1" workId' "revised.pdf" 0)), w') /\
    identities w' =
      identities (world_of configured_env (db_of [paper "D0"; paper "D1"] []) [] []) /\
    length (t_uploadedPdfs (db w')) = 2 /\
    (forall p, In p (t_uploadedPdfs (db w')) ->
       uploadedPdfs.id p = "D1" ->
       uploadedPdfs.originalName p = "revised.pdf" /\ uploadedPdfs.uploadedAt p = 0).
Proof.
  apply (reupload_updates_in_place upload_D1
           (world_of configured_env (db_of [paper "D0"; paper "D1"] []) [] [])
           alice "W-D1" "alice@example.org" "revised.pdf" (paper "D1")).
  - repeat split.
  - reflexivity.
Defined.




(** C5. For every first upload and every accepted share made while the
    service is configured, if the service rejects a tuple write (so that
    [grantDocumentAccess] throws), the operation still answers 200 with its
    usual body, and the row it committed before the grant (the Document row,
    the Access Grant row) is in the table afterwards; the accepted Share
    Request row is deleted as usual. *)
Theorem grant_failure_does_not_block :
  (forall req w user workId userEmail filename,
     upload_ready req w user workId userEmail filename ->
     existing_pdf w user workId = None ->
     fga_configured w = true ->
     rejected (outcome_at w 0) = true \/ rejected (outcome_at w 1) = true ->
     exists w',
       upload req w =
         (Returned (send (StoredPdf (entropy w (S (drawn w))) workId filename (now w))),
          w') /\
       t_uploadedPdfs (db w') =
         t_uploadedPdfs (db w) ++ [new_pdf req user workId filename w]) /\
  (forall req w user userEmail shareRequest pdf,
     accept_ready req w user userEmail shareRequest pdf ->
     fga_configured w = true ->
     rejected (outcome_at w 0) = true ->
     exists w',
       accept req w = (Returned (send (Message "Share request accepted")), w') /\
       has_access w' (pdfShareRequests.pdfId shareRequest) (users.id user) = true /\
       pending w' (accept_id req) = false).
Proof.
  split.
  - intros req w user workId userEmail filename Hready Hex Hconf _.
    destruct (upload_new_run req w user workId userEmail filename Hready Hex)
      as [logs Hrun].
    rewrite Hconf in Hrun. eexists. split; [exact Hrun | reflexivity].
  - intros req w user userEmail shareRequest pdf Hready _ _.
    destruct (accept_run req w user userEmail shareRequest pdf Hready)
      as [w' (Hrun & Ha & Hp & _)].
    exists w'. auto.
Qed.

Lemma grant_failure_does_not_block_witness :
  (exists w',
     upload upload_D1 (world_of configured_env (db_of [] []) [] [outage]) =
       (Returned (send (StoredPdf "uuid-1" "W-D1" "revised.pdf" 0)), w') /\
     t_uploadedPdfs (db w') =
       [new_pdf upload_D1 alice "W-D1" "revised.pdf"
                (world_of configured_env (db_of [] []) [] [outage])]) /\
  (exists w',
     accept accept_R1
            (world_of configured_env (db_of [paper "D1"] [share_D1]) [] [outage]) =
       (Returned (send (Message "Share request accepted")), w') /\
     has_access w' "D1" "u-bob" = true /\
     pending w' "R1" = false).
Proof.
  split.
  - apply (proj1 grant_failure_does_not_block upload_D1
             (world_of configured_env (db_of [] []) [] [outage])
             alice "W-D1" "alice@example.org" "revised.pdf").
    + repeat split.
    + reflexivity.
    + reflexivity.
    + left. reflexivity.
  - apply (proj2 grant_failure_does_not_block accept_R1
             (world_of configured_env (db_of [paper "D1"] [share_D1]) [] [outage])
             bob "bob@example.org" share_D1 (paper "D1")).
    + repeat split.
    + reflexivity.
    + reflexivity.
Defined.

(** C6 (as the code has it). For every pending share request from A to B on
    document D, accepting it answers 200 and leaves the Access Grant row for
    (D, B) in the table and no Share Request row with that identifier,
    whatever the configuration and whatever the service does; and when the
    service is configured, the client can be built and the write is not
    rejected, the tuple (B, viewer, D) is stored by the one call made, so
    that [check(B, viewer, D)] holds. *)
Theorem accept_mirrors_viewer
    (req : AcceptRequest) (w : World) (user : users.row) (userEmail : string)
    (shareRequest : pdfShareRequests.row) (pdf : uploadedPdfs.row) :
  accept_ready req w user userEmail shareRequest pdf ->
  exists w',
    let docId := pdfShareRequests.pdfId shareRequest in
    accept req w = (Returned (send (Message "Share request accepted")), w') /\
    has_access w' docId (users.id user) = true /\
    pending w' (accept_id req) = false /\
    (fga_configured w = true ->
     client_builds w = true ->
     rejected (outcome_at w 0) = false ->
     tuples (service w') = tuples (service w) ++ [tuple_of userEmail viewer docId] /\
     graph_calls w' = graph_calls w ++ [Write [tuple_of userEmail viewer docId] []] /\
     check w' userEmail viewer docId = true).
Proof.
  intros Hready.
  destruct (accept_run req w user userEmail shareRequest pdf Hready)
    as [w' (Hrun & Ha & Hp & Ht & Hg)].
  exists w'. cbv zeta. repeat (split; [assumption|]).
  intros Hconf Hbuilt H0.
  rewrite Hconf in Ht, Hg. unfold accept_written in Ht. unfold accept_calls in Hg.
  rewrite Hbuilt in Ht, Hg. rewrite H0 in Ht. cbn [negb] in Ht, Hg.
  repeat (split; [assumption|]).
  unfold check, stored. rewrite Ht. apply holds_in, in_or_app. right. left. reflexivity.
Qed.

Lemma accept_mirrors_viewer_witness :
  exists w',
    accept accept_R1 (world_of configured_env (db_of [paper "D1"] [share_D1]) [] []) =
      (Returned (send (Message "Share request accepted")), w') /\
    has_access w' "D1" "u-bob" = true /\
    pending w' "R1" = false /\
    tuples (service w') = [tuple_of "bob@example.org" viewer "D1"] /\
    graph_calls w' = [Write [tuple_of "bob@example.org" viewer "D1"] []] /\
    check w' "bob@example.org" viewer "D1" = true.
Proof.
  destruct (accept_mirrors_viewer accept_R1
              (world_of configured_env (db_of [paper "D1"] [share_D1]) [] [])
              bob "bob@example.org" share_D1 (paper "D1"))
    as [w' (Hrun & Ha & Hp & Hgraph)].
  - repeat split.
  - exists w'. split; [exact Hrun|]. split; [exact Ha|]. split; [exact Hp|].
    apply Hgraph; reflexivity.
Defined.

(** C6, refuted as stated: the configuration is complete and the service
    rejects the write; the share is accepted, the Access Grant row is there,
    and [check(B, viewer, D)] does not hold. *)
Lemma accept_not_always_mirrored : ~ accept_always_mirrored.
Proof.
  intros H.
  pose (w := world_of configured_env (db_of [paper "D1"] [share_D1]) [] [outage]).
  destruct (accept_run accept_R1 w bob "bob@example.org" share_D1 (paper "D1"))
    as [w' (Hrun & _ & _ & Ht & _)]; [repeat split|].
  specialize (H accept_R1 w bob "bob@example.org" share_D1 (paper "D1") _ w'
                ltac:(repeat split) eq_refl Hrun).
  unfold check, stored in H. rewrite Ht in H. vm_compute in H. discriminate H.
Qed.

(** ** The suggestion handler *)

Lemma existsb_eqb_in (x : string) l : existsb (String.eqb x) l = true <-> In x l.
Proof.
  rewrite existsb_exists. split.
  - intros [y [Hy E]]. apply String.eqb_eq in E. now subst.
  - intros H. exists x. split; [exact H | apply String.eqb_refl].
Qed.

Lemma filter_by_filtered_ids (q : string -> bool) (pdfs : list uploadedPdfs.row) :
  List.filter
    (fun pdf => existsb (String.eqb (uploadedPdfs.id pdf))
                        (List.filter q (map uploadedPdfs.id pdfs))) pdfs
  = List.filter (fun pdf => q (uploadedPdfs.id pdf)) pdfs.
Proof.
  apply filter_ext_in. intros pdf Hin.
  destruct (q (uploadedPdfs.id pdf)) eqn:E.
  - apply existsb_eqb_in, filter_In. split; [|exact E]. now apply in_map.
  - apply not_true_is_false. intros Hx. apply existsb_eqb_in, filter_In in Hx.
    destruct Hx as [_ Hx]. congruence.
Qed.

Lemma filter_by_own_ids (pdfs : list uploadedPdfs.row) :
  List.filter
    (fun pdf => existsb (String.eqb (uploadedPdfs.id pdf)) (map uploadedPdfs.id pdfs)) pdfs
  = pdfs.
Proof.
  rewrite <- (filter_ext_in (fun _ => true)).
  - induction pdfs; simpl; [reflexivity | now f_equal].
  - intros pdf Hin. symmetry. apply existsb_eqb_in. now apply in_map.
Qed.

(** Lines 66-77: the batch check is not in a [try] of its own; what the
    constructor of the client throws goes to the [catch] of the handler. *)
Lemma authorize_unbuilt userEmail candidates w e :
  fga_configured w = true ->
  client_error w = Some e ->
  authorize userEmail candidates w = (Threw e, w).
Proof.
  intros Hconf Hc. unfold authorize. rewrite bind_gets, Hconf.
  rewrite bind_assoc.
  now rewrite (bind_threw _ _ _ _ _ (batchCheckDocumentAccess_unbuilt _ _ w e Hc)).
Qed.

(** Lines 66-77: what the graph lets through, in candidate order. *)
Lemma authorize_run userEmail candidates w :
  (fga_configured w = true -> client_builds w = true) ->
  exists w',
    authorize userEmail candidates w = (Returned (authorized w userEmail candidates), w') /\
    db w' = db w /\
    graph_calls w' =
      graph_calls w ++
      (if fga_configured w
       then map (fun pdf => Check (viewer_of userEmail (uploadedPdfs.id pdf))) candidates
       else []).
Proof.
  intros Hbuilt. unfold authorize, authorized. rewrite bind_gets.
  destruct (fga_configured w).
  - destruct (batchCheckDocumentAccess_run userEmail (map uploadedPdfs.id candidates) w
                (Hbuilt eq_refl))
      as [logs Hb].
    rewrite bind_assoc. run_with Hb.
    rewrite !bind_ret. unfold ret.
    rewrite filter_by_filtered_ids.
    match goal with
    | |- exists w', (Returned (List.filter ?f _), _) = (Returned (List.filter ?g _), _) /\ _ =>
        assert (Hf : List.filter f candidates = List.filter g candidates)
    end.
    { apply filter_ext_in.
      intros pdf Hin. rewrite length_map.
      assert (Hid : uploadedPdfs.id pdf ∈ map uploadedPdfs.id candidates).
      { apply list_elem_of_In. now apply in_map. }
      destruct (batch_rejected w (length candidates));
        rewrite table_of_lookup, bool_decide_eq_true_2 by exact Hid; simpl;
        [reflexivity|].
      unfold check, stored, viewer_of.
      destruct (holds _ (tuples (service w))); reflexivity. }
    rewrite Hf. eexists. split; [reflexivity|]. split; [reflexivity|].
    unfold graph_calls, with_console, after_checks; simpl.
    rewrite flat_map_app. f_equal. rewrite !map_map.
    clear. induction candidates; simpl; [reflexivity | now f_equal].
  - rewrite !bind_ret. unfold ret. rewrite filter_by_own_ids.
    assert (Hf : List.filter (fun _ : uploadedPdfs.row => true) candidates = candidates)
      by (clear; induction candidates; simpl; [reflexivity | now f_equal]).
    rewrite Hf. exists w.
    split; [reflexivity|]. split; [reflexivity | now rewrite app_nil_r].
Qed.

Lemma suggest_body_of req query :
  present (suggest_query req) = Some query ->
  exists body, suggest_body req = Some body /\ present (body_query body) = Some query.
Proof.
  unfold suggest_query. destruct (suggest_body req) as [body|]; [eauto | discriminate].
Qed.

(** C2 (as the code has it). For every user and every non-empty list of
    candidates, the suggestion flow keeps the candidates the graph lets
    through, in the order in which the database returned the candidates.
    When none is left it answers with an empty list of suggestions and no
    count. Otherwise it hands them to the ranking and answers with the
    ranked suggestions and the number of documents that were AUTHORIZED, that
    is the count after the graph filter, not the number of candidates. When
    the service is configured this supposes that its client can be built. *)
Theorem suggest_reports_authorized
    (embeddings : Embeddings) (js : Builtins) (req : SuggestRequest) (w : World)
    (user : users.row) (userEmail query : string) (top : list Suggestion) :
  suggest_ready js req w user userEmail query ->
  candidates w (users.id user) <> [] ->
  (fga_configured w = true -> client_builds w = true) ->
  (authorized w userEmail (candidates w (users.id user)) <> [] ->
   rank embeddings js query (users.id user)
        (authorized w userEmail (candidates w (users.id user)))
     = Returned top) ->
  exists w',
    suggest embeddings js req w =
      (Returned
         (match authorized w userEmail (candidates w (users.id user)) with
          | [] => send (NoSuggestions "No authorized PDFs available")
          | pdfs => send (Suggestions top query (length pdfs))
          end),
       w').
Proof.
  intros (He & Hq & Ht & Hu) Hne Hbuilt Hrank.
  destruct (suggest_body_of _ _ Hq) as [body [Hb Hq']].
  unfold suggest. rewrite Hb, He, Hq', Ht.
  unfold candidates in *.
  set (cands := arranged (row_rank w "uploaded_pdfs") (select_accessiblePdfs (users.id user) (db w))) in *.
  destruct (authorize_run userEmail cands w Hbuilt) as [w' (Hrun & Hdb & _)].
  exists w'. apply try_catch_run. rewrite bind_gets.
  destruct (List.filter _ (t_users (db w))) as [|u us]; [discriminate|].
  simpl in Hu. inversion Hu; subst u. rewrite bind_gets. fold cands.
  destruct (Nat.eqb (length cands) 0) eqn:El.
  { exfalso. apply Hne. apply Nat.eqb_eq in El.
    destruct cands; [reflexivity | discriminate]. }
  run_with Hrun.
  destruct (authorized w userEmail cands) as [|pdf pdfs]; [reflexivity|].
  cbn [length Nat.eqb]. unfold lift, bind.
  rewrite Hrank by discriminate. reflexivity.
Qed.

Lemma suggest_reports_authorized_witness :
  exists top w',
    suggest flat_embeddings plain_js suggest_req three_papers =
      (Returned (send (Suggestions top "access control" 2)), w').
Proof.
  eexists.
  exact (suggest_reports_authorized flat_embeddings plain_js suggest_req three_papers
           alice "alice@example.org" "access control" _
           ltac:(repeat split) ltac:(discriminate) ltac:(intros _; reflexivity)
           ltac:(intros _; reflexivity)).
Defined.

(** C2, refuted as stated: three candidates, two of them authorized by the
    graph; the flow answers with a total of 2, not 3. *)
Lemma suggest_total_is_not_candidates : ~ suggest_reports_candidates.
Proof.
  intros H.
  assert (Hrun : exists top w',
             suggest flat_embeddings plain_js suggest_req three_papers =
               (Returned (send (Suggestions top "access control" 2)), w')).
  { eexists _, _. vm_compute. reflexivity. }
  destruct Hrun as [top [w' Hrun]].
  specialize (H flat_embeddings plain_js suggest_req three_papers alice
                "alice@example.org" "access control" w' top _ _
                ltac:(repeat split) Hrun).
  vm_compute in H. discriminate H.
Qed.

(** ** Without a store identifier *)


(** ** The similarity *)

Lemma cosine_loop vecA vecB l : forall d a b,
  fold_left (cosine_step vecA vecB) l (d, a, b) =
    (fold_left (fun acc i => PrimFloat.add acc
                               (PrimFloat.mul (at_index vecA i) (at_index vecB i))) l d,
     fold_left (fun acc i => PrimFloat.add acc
                               (PrimFloat.mul (at_index vecA i) (at_index vecA i))) l a,
     fold_left (fun acc i => PrimFloat.add acc
                               (PrimFloat.mul (at_index vecB i) (at_index vecB i))) l b).
Proof.
  induction l as [|i l IH]; intros d a b; simpl; [reflexivity|]. apply IH.
Qed.

(** The function, with its loop read off component by component. *)
Lemma cosineSimilarity_unfold vecA vecB :
  length vecA = length vecB ->
  cosineSimilarity vecA vecB =
    if PrimFloat.eqb (norm vecA) PrimFloat.zero || PrimFloat.eqb (norm vecB) PrimFloat.zero
    then Returned PrimFloat.zero
    else Returned (PrimFloat.div (dot vecA vecB) (PrimFloat.mul (norm vecA) (norm vecB))).
Proof.
  intros Hlen. unfold cosineSimilarity.
  rewrite (proj2 (Nat.eqb_eq _ _) Hlen). simpl negb. cbv iota.
  rewrite cosine_loop. unfold norm, squares, dot. rewrite <- Hlen. reflexivity.
Qed.

Lemma squares_of_zeros (v : list float) (l : list nat) :
  (forall i, In i l -> is_zero (at_index v i)) ->
  fold_left (fun acc i => PrimFloat.add acc (PrimFloat.mul (at_index v i) (at_index v i)))
            l PrimFloat.zero = PrimFloat.zero.
Proof.
  induction l as [|i l IH]; intros H; simpl; [reflexivity|].
  destruct (H i (or_introl eq_refl)) as [-> | ->];
    (change (PrimFloat.add PrimFloat.zero _) with PrimFloat.zero;
     apply IH; intros j Hj; apply H; right; exact Hj).
Qed.

Lemma norm_of_zeros v : Forall is_zero v -> norm v = PrimFloat.zero.
Proof.
  intros H. unfold norm, squares. rewrite squares_of_zeros; [reflexivity|].
  intros i Hi. apply in_seq in Hi. rewrite Forall_forall in H.
  apply H. apply list_elem_of_In. unfold at_index. apply nth_In. lia.
Qed.

(** C10. [cosineSimilarity] throws exactly when the two vectors differ in
    length. On vectors of equal length it always returns a number, and the
    division is behind a guard: when the norm of either vector is zero (in
    particular when every entry of a vector is a zero) the result is 0;
    otherwise it is the dot product over the product of the norms. *)
Theorem cosineSimilarity_guarded (vecA vecB : list float) :
  ((exists e, cosineSimilarity vecA vecB = Threw e) <-> length vecA <> length vecB) /\
  (length vecA = length vecB ->
     (exists r, cosineSimilarity vecA vecB = Returned r) /\
     (PrimFloat.eqb (norm vecA) PrimFloat.zero = true \/
      PrimFloat.eqb (norm vecB) PrimFloat.zero = true ->
        cosineSimilarity vecA vecB = Returned PrimFloat.zero) /\
     (Forall is_zero vecA \/ Forall is_zero vecB ->
        cosineSimilarity vecA vecB = Returned PrimFloat.zero) /\
     (PrimFloat.eqb (norm vecA) PrimFloat.zero = false ->
      PrimFloat.eqb (norm vecB) PrimFloat.zero = false ->
        cosineSimilarity vecA vecB =
          Returned (PrimFloat.div (dot vecA vecB)
                                  (PrimFloat.mul (norm vecA) (norm vecB))))).
Proof.
  split.
  - split.
    + intros [e He] Hlen. rewrite (cosineSimilarity_unfold _ _ Hlen) in He.
      destruct (_ || _); discriminate He.
    + intros Hne. unfold cosineSimilarity.
      rewrite (proj2 (Nat.eqb_neq _ _) Hne). simpl. eauto.
  - intros Hlen. rewrite (cosineSimilarity_unfold _ _ Hlen).
    split; [destruct (_ || _); eauto|].
    split; [intros [-> | ->]; rewrite ?orb_true_r; reflexivity|].
    split.
    + intros [H | H]; rewrite (norm_of_zeros _ H);
        change (PrimFloat.eqb PrimFloat.zero PrimFloat.zero) with true;
        rewrite ?orb_true_r; reflexivity.
    + intros -> ->. reflexivity.
Qed.

Lemma cosineSimilarity_guarded_witness :
  (exists r, cosineSimilarity [0%float; PrimFloat.neg_zero] [3%float; 4%float]
             = Returned r) /\
  cosineSimilarity [0%float; PrimFloat.neg_zero] [3%float; 4%float]
    = Returned PrimFloat.zero /\
  cosineSimilarity [3%float; 4%float] [3%float; 4%float] = Returned 1%float /\
  ((exists e, cosineSimilarity [1%float] [1%float; 2%float] = Threw e) <-> 1 <> 2).
Proof.
  split; [|split; [|split]].
  - apply (proj2 (cosineSimilarity_guarded [0%float; PrimFloat.neg_zero]
                    [3%float; 4%float]) eq_refl).
  - apply (proj2 (cosineSimilarity_guarded [0%float; PrimFloat.neg_zero]
                    [3%float; 4%float]) eq_refl).
    left. constructor; [left; reflexivity|].
    constructor; [right; reflexivity | constructor].
  - apply (proj2 (proj2 (proj2 (proj2 (cosineSimilarity_guarded [3%float; 4%float]
                    [3%float; 4%float]) eq_refl)))); reflexivity.
  - apply (proj1 (cosineSimilarity_guarded [1%float] [1%float; 2%float])).
Defined.

(** * The rest of the server: properties *)

(** ** What a handler leaves alone, command by command *)

Section Keeps.

Context (R : World -> World -> Prop) `{!PreOrder R}.

Lemma keeps_ret {A} (a : A) : keeps R (ret a).
Proof. intros w. simpl. reflexivity. Qed.

Lemma keeps_throw {A} e : keeps R (@throw A e).
Proof. intros w. simpl. reflexivity. Qed.

Lemma keeps_gets {A} (f : World -> A) : keeps R (gets f).
Proof. intros w. simpl. reflexivity. Qed.

Lemma keeps_lift {A} (r : Result A) : keeps R (lift r).
Proof. intros w. simpl. reflexivity. Qed.

Lemma keeps_modify f : (forall w, R w (f w)) -> keeps R (modify f).
Proof. intros H w. apply H. Qed.

Lemma keeps_bind {A B} (m : M A) (k : A -> M B) :
  keeps R m -> (forall a, keeps R (k a)) -> keeps R (bind m k).
Proof.
  intros Hm Hk w. unfold bind. specialize (Hm w).
  destruct (m w) as [[a|e] w1]; simpl in *; [|exact Hm].
  etransitivity; [exact Hm | apply Hk].
Qed.

Lemma keeps_try_catch {A} (m : M A) h :
  keeps R m -> (forall e, keeps R (h e)) -> keeps R (try_catch m h).
Proof.
  intros Hm Hh w. unfold try_catch. specialize (Hm w).
  destruct (m w) as [[a|e] w1]; simpl in *; [exact Hm|].
  etransitivity; [exact Hm | apply Hh].
Qed.

Lemma keeps_record_effects es :
  Forall (fun e => forall w, R w (add_effect e w)) es -> keeps R (record_effects es).
Proof.
  unfold record_effects, modify. intros H.
  induction H as [|e es He _ IH]; intros w; simpl; [reflexivity|].
  etransitivity; [apply He | apply IH].
Qed.

Lemma keeps_unchanged {A} (m : M A) : (forall w, snd (m w) = w) -> keeps R m.
Proof. intros H w. rewrite H. reflexivity. Qed.

End Keeps.

Lemma sendFile_same fileName w : snd (sendFile fileName w) = w.
Proof. unfold sendFile. now destruct (existsb _ (disk w)). Qed.

(** One step of the walk through a command. *)
Ltac keeps_step :=
  lazymatch goal with
  | |- keeps _ (bind _ _) => apply keeps_bind; [typeclasses eauto | | intros ?]
  | |- keeps _ (try_catch _ _) => apply keeps_try_catch; [typeclasses eauto | | intros ?]
  | |- keeps _ (ret _) => apply keeps_ret; typeclasses eauto
  | |- keeps _ (throw _) => apply keeps_throw; typeclasses eauto
  | |- keeps _ type_error => apply keeps_throw; typeclasses eauto
  | |- keeps _ (gets _) => apply keeps_gets; typeclasses eauto
  | |- keeps _ (lift _) => apply keeps_lift; typeclasses eauto
  | |- keeps _ (findFirst _ _) => apply keeps_gets; typeclasses eauto
  | |- keeps _ (findMany _ _ _) => apply keeps_gets; typeclasses eauto
  | |- keeps _ (access_with_pdf _) => apply keeps_gets; typeclasses eauto
  | |- keeps _ (sendFile _) =>
      apply keeps_unchanged; [typeclasses eauto | apply sendFile_same]
  | |- keeps _ (first_row ?l) =>
      destruct l; [apply keeps_throw | apply keeps_ret]; typeclasses eauto
  | |- keeps _ (match ?x with _ => _ end) => destruct x
  end.

#[local] Instance graph_untouched_preorder : PreOrder graph_untouched.
Proof.
  split.
  - intros w. split; reflexivity.
  - intros a b c [H1 H2] [H3 H4]. split; congruence.
Qed.

#[local] Instance rows_untouched_preorder : PreOrder rows_untouched.
Proof. split; [intros w; reflexivity | intros a b c H1 H2; unfold rows_untouched in *; congruence]. Qed.

#[local] Instance stock_kept_preorder : PreOrder stock_kept.
Proof.
  split.
  - intros w. repeat split.
  - intros a b c (H1 & H2 & H3) (H4 & H5 & H6). repeat split; congruence.
Qed.

Create HintDb keeps.

Lemma graph_untouched_effect e w :
  match e with Graph _ => False | _ => True end ->
  graph_untouched w (add_effect e w).
Proof.
  intros H. split; [reflexivity|]. unfold graph_calls; simpl.
  rewrite flat_map_app. simpl. destruct e; [apply app_nil_r.. | contradiction].
Qed.

Lemma record_effects_graph_free es :
  (forall e, In e es -> match e with Graph _ => False | _ => True end) ->
  keeps graph_untouched (record_effects es).
Proof.
  intros H. apply keeps_record_effects; [typeclasses eauto|].
  apply Forall_forall. intros e He w. apply graph_untouched_effect, H.
  now apply list_elem_of_In.
Qed.

Ltac table_effects :=
  let e := fresh "e" in
  let He := fresh "He" in
  intros e He;
  first [ apply in_map_iff in He; destruct He as [? [<- _]]; exact I
        | simpl in He; intuition (subst; exact I) ].

Ltac graph_free :=
  repeat first
    [ keeps_step
    | apply keeps_modify; intros ?; split; reflexivity
    | apply record_effects_graph_free; table_effects ].

Lemma randomUUID_graph_free : keeps graph_untouched randomUUID.
Proof. intros w. split; reflexivity. Qed.

Lemma unlink_graph_free f : keeps graph_untouched (unlink f).
Proof.
  intros w. unfold unlink. destruct (existsb _ (disk w)); split; reflexivity.
Qed.

Lemma delete_pdfShareRequests_graph_free p :
  keeps graph_untouched (delete_pdfShareRequests p).
Proof. unfold delete_pdfShareRequests. graph_free. Qed.

Lemma delete_uploadedPdfs_graph_free p : keeps graph_untouched (delete_uploadedPdfs p).
Proof. unfold delete_uploadedPdfs. graph_free. Qed.

Lemma insert_pdfShareRequests_graph_free a b c :
  keeps graph_untouched (insert_pdfShareRequests a b c).
Proof.
  unfold insert_pdfShareRequests.
  apply keeps_bind; [typeclasses eauto | apply randomUUID_graph_free | intros ?].
  graph_free.
Qed.

Lemma insert_linkedResearchers_returning_graph_free a b c :
  keeps graph_untouched (insert_linkedResearchers_returning a b c).
Proof.
  unfold insert_linkedResearchers_returning.
  apply keeps_bind; [typeclasses eauto | apply randomUUID_graph_free | intros ?].
  graph_free.
Qed.

Lemma delete_linkedResearchers_graph_free p :
  keeps graph_untouched (delete_linkedResearchers p).
Proof. unfold delete_linkedResearchers. graph_free. Qed.

#[local] Hint Resolve randomUUID_graph_free unlink_graph_free
  delete_pdfShareRequests_graph_free delete_uploadedPdfs_graph_free
  insert_pdfShareRequests_graph_free insert_linkedResearchers_returning_graph_free
  delete_linkedResearchers_graph_free : keeps.

Ltac graph_free_handler :=
  repeat first
    [ keeps_step
    | solve [ auto with keeps ]
    | apply keeps_modify; intros ?; split; reflexivity ].

(** X1. Of the handlers of [pdfs.ts], only upload and accept talk to the
    authorization service: status, download, delete, share, the list of
    share requests and reject send it nothing and leave its tuples as they
    are, for every request and in every world, whether or not the service
    is configured. *)
Theorem relational_handlers_never_reach_the_graph :
  (forall req, keeps graph_untouched (pdf_status req)) /\
  (forall req, keeps graph_untouched (download req)) /\
  (forall req, keeps graph_untouched (remove req)) /\
  (forall req, keeps graph_untouched (share req)) /\
  (forall email, keeps graph_untouched (share_requests email)) /\
  (forall req, keeps graph_untouched (reject req)).
Proof.
  split; [|split; [|split; [|split; [|split]]]]; intros req.
  - unfold pdf_status. graph_free_handler.
  - unfold download. graph_free_handler.
  - unfold remove. graph_free_handler.
  - unfold share. graph_free_handler.
  - unfold share_requests. graph_free_handler.
  - unfold reject. graph_free_handler.
Qed.

(** ** No exception leaves a handler *)

Lemma answers_ret {A} (a : A) : answers_always (ret a).
Proof. intros w. eexists _, _. reflexivity. Qed.

Lemma answers_log {A} l t e (a : A) : answers_always (log l t e ;;; ret a).
Proof. intros w. eexists _, _. reflexivity. Qed.

Lemma answers_try_catch {A} (m : M A) h :
  (forall e, answers_always (h e)) -> answers_always (try_catch m h).
Proof.
  intros H w. unfold try_catch. destruct (m w) as [[a|e] w1].
  - eexists _, _. reflexivity.
  - apply H.
Qed.

Ltac answers :=
  repeat first
    [ apply answers_ret
    | apply answers_try_catch; intros ?; apply answers_log
    | match goal with
      | |- answers_always (match ?x with _ => _ end) => destruct x
      end ].


(** ** Sharing *)

Lemma find_existsb {A} (p : A -> bool) l :
  existsb p l = match List.find p l with Some _ => true | None => false end.
Proof.
  induction l as [|x l IH]; simpl; [reflexivity|]. destruct (p x); [reflexivity | exact IH].
Qed.

Lemma insert_pdfShareRequests_run pdfId fromUserId toUserId w :
  requested w pdfId toUserId = false ->
  insert_pdfShareRequests pdfId fromUserId toUserId w =
    (Returned [new_request w pdfId fromUserId toUserId],
     after_share (new_request w pdfId fromUserId toUserId) w).
Proof.
  intros H. unfold requested in H.
  unfold insert_pdfShareRequests, bind, randomUUID, gets, modify, record_effects, ret.
  simpl. rewrite H. reflexivity.
Qed.

Lemma share_body_of req targetEmail :
  present (share_targetEmail req) = Some targetEmail ->
  exists body,
    share_body req = Some body /\ present (body_targetEmail body) = Some targetEmail.
Proof.
  unfold share_targetEmail. destruct (share_body req) as [body|]; [eauto | discriminate].
Qed.

(** A share by the owner: refused when a request for the same document and
    recipient is there, else committed. *)
Lemma share_run req w user targetUser userEmail targetEmail pdf :
  share_ready req w user targetUser userEmail targetEmail pdf ->
  share req w =
    if requested w (share_param_id req) (users.id targetUser)
    then (Returned (respond 409 (Text "Share request already exists")), w)
    else
      (Returned (ok (ShareCreated (entropy w (drawn w)) (now w))),
       after_share (new_request w (share_param_id req) (users.id user)
                                (users.id targetUser)) w).
Proof.
  intros (Ht & He & Hne & Hu & Htu & Hp).
  destruct (share_body_of _ _ Ht) as [body [Hb Ht']].
  unfold share. rewrite Hb, Ht', He, Hne. cbv zeta.
  unfold findFirst at 1 2 3 4.
  unfold requested. rewrite find_existsb.
  destruct (List.find _ (t_pdfShareRequests (db w))) eqn:Ex.
  - apply try_catch_run.
    rewrite bind_gets, Hu, bind_gets, Htu, bind_gets, Hp, bind_gets, Ex. reflexivity.
  - apply try_catch_run.
    rewrite bind_gets, Hu, bind_gets, Htu, bind_gets, Hp, bind_gets, Ex.
    erewrite bind_run
      by (apply insert_pdfShareRequests_run; unfold requested;
          rewrite find_existsb, Ex; reflexivity).
    reflexivity.
Qed.

(** Every way a share can go. *)
Lemma share_cases req w :
  (exists user targetUser userEmail targetEmail pdf,
     share_ready req w user targetUser userEmail targetEmail pdf /\
     requested w (share_param_id req) (users.id targetUser) = false /\
     share req w =
       (Returned (ok (ShareCreated (entropy w (drawn w)) (now w))),
        after_share (new_request w (share_param_id req) (users.id user)
                                 (users.id targetUser)) w)) \/
  (exists reply, share req w = (Returned reply, w) /\ status reply <> 200) \/
  (exists e, share req w = (Threw e, w)).
Proof.
  destruct (share_body req) as [body|] eqn:Hb;
    [|right; right; unfold share; rewrite Hb; eexists; reflexivity].
  destruct (present (body_targetEmail body)) as [targetEmail|] eqn:Ht;
    [|right; left; unfold share; rewrite Hb, Ht; eexists; split;
      [reflexivity | discriminate]].
  destruct (present (share_email req)) as [userEmail|] eqn:He;
    [|right; left; unfold share; rewrite Hb, Ht, He; eexists; split;
      [reflexivity | discriminate]].
  destruct (String.eqb userEmail targetEmail) eqn:Hne;
    [right; left; unfold share; rewrite Hb, Ht, He, Hne; eexists; split;
     [reflexivity | discriminate]|].
  destruct (List.find (fun u => String.eqb (users.email u) userEmail) (t_users (db w)))
    as [user|] eqn:Hu;
    [|right; left; unfold share; rewrite Hb, Ht, He, Hne; eexists; split;
      [apply try_catch_run; unfold findFirst; rewrite bind_gets, Hu; reflexivity
      | discriminate]].
  destruct (List.find (fun u => String.eqb (users.email u) targetEmail) (t_users (db w)))
    as [targetUser|] eqn:Htu;
    [|right; left; unfold share; rewrite Hb, Ht, He, Hne; eexists; split;
      [apply try_catch_run; unfold findFirst;
       rewrite bind_gets, Hu, bind_gets, Htu; reflexivity
      | discriminate]].
  destruct (List.find (fun p => String.eqb (uploadedPdfs.id p) (share_param_id req)
                                && String.eqb (uploadedPdfs.ownerId p) (users.id user))
                      (t_uploadedPdfs (db w))) as [pdf|] eqn:Hp;
    [|right; left; unfold share; rewrite Hb, Ht, He, Hne; eexists; split;
      [apply try_catch_run; unfold findFirst; cbv zeta;
       rewrite bind_gets, Hu, bind_gets, Htu, bind_gets, Hp; reflexivity
      | discriminate]].
  assert (Hready : share_ready req w user targetUser userEmail targetEmail pdf).
  { split; [unfold share_targetEmail; rewrite Hb; exact Ht|]. repeat split; assumption. }
  pose proof (share_run _ _ _ _ _ _ _ Hready) as Hrun.
  destruct (requested w (share_param_id req) (users.id targetUser)) eqn:Hreq.
  - right. left. eexists. split; [exact Hrun | discriminate].
  - left. exists user, targetUser, userEmail, targetEmail, pdf. auto.
Qed.

(** X3. A share request is created only by the owner of the document, for
    another known user, when none is there for that document and recipient:
    a share that answers 200 has added exactly the row (document, caller,
    recipient) to the Share Request table and nothing else to any table;
    a share that answers anything else has changed nothing at all. *)
Theorem share_is_for_owners (req : ShareRequest) (w w' : World) (reply : Response) :
  share req w = (Returned reply, w') ->
  (status reply = 200 /\
   exists user targetUser userEmail targetEmail pdf,
     share_ready req w user targetUser userEmail targetEmail pdf /\
     requested w (share_param_id req) (users.id targetUser) = false /\
     t_pdfShareRequests (db w') =
       t_pdfShareRequests (db w)
       ++ [new_request w (share_param_id req) (users.id user) (users.id targetUser)] /\
     t_pdfAccess (db w') = t_pdfAccess (db w) /\
     t_uploadedPdfs (db w') = t_uploadedPdfs (db w) /\
     t_users (db w') = t_users (db w)) \/
  (status reply <> 200 /\ w' = w).
Proof.
  intros Hrun.
  destruct (share_cases req w)
    as [(user & targetUser & userEmail & targetEmail & pdf & Hready & Hreq & H)
       | [(reply' & H & Hs) | (e & H)]];
    rewrite H in Hrun; inversion Hrun; subst.
  - left. split; [reflexivity|].
    exists user, targetUser, userEmail, targetEmail, pdf. repeat split; auto.
    all: apply Hready.
  - right. auto.
Qed.

Lemma share_is_for_owners_witness :
  (status (ok (ShareCreated "uuid-0" 0)) = 200 /\
   exists user targetUser userEmail targetEmail pdf,
     share_ready share_D1_with_bob (world_of ∅ (db_of [paper "D1"] []) [] [])
                 user targetUser userEmail targetEmail pdf /\
     requested (world_of ∅ (db_of [paper "D1"] []) [] []) "D1" (users.id targetUser)
       = false /\
     t_pdfShareRequests
       (db (snd (share share_D1_with_bob (world_of ∅ (db_of [paper "D1"] []) [] [])))) =
       [] ++ [new_request (world_of ∅ (db_of [paper "D1"] []) [] []) "D1"
                          (users.id user) (users.id targetUser)] /\
     t_pdfAccess
       (db (snd (share share_D1_with_bob (world_of ∅ (db_of [paper "D1"] []) [] [])))) = [] /\
     t_uploadedPdfs
       (db (snd (share share_D1_with_bob (world_of ∅ (db_of [paper "D1"] []) [] []))))
       = [paper "D1"] /\
     t_users
       (db (snd (share share_D1_with_bob (world_of ∅ (db_of [paper "D1"] []) [] []))))
       = [alice; bob]) \/
  (status (ok (ShareCreated "uuid-0" 0)) <> 200 /\
   snd (share share_D1_with_bob (world_of ∅ (db_of [paper "D1"] []) [] []))
   = world_of ∅ (db_of [paper "D1"] []) [] []).
Proof.
  apply (share_is_for_owners share_D1_with_bob
           (world_of ∅ (db_of [paper "D1"] []) [] [])).
  reflexivity.
Defined.

Lemma no_key_in_requests pdfId toUserId rows :
  existsb (fun r => String.eqb (pdfShareRequests.pdfId r) pdfId
                    && String.eqb (pdfShareRequests.toUserId r) toUserId) rows = false ->
  ~ In (pdfId, toUserId)
       (map (fun r => (pdfShareRequests.pdfId r, pdfShareRequests.toUserId r)) rows).
Proof.
  intros H Hin. apply in_map_iff in Hin. destruct Hin as [r [Hr Hin]].
  inversion Hr; subst.
  assert (Hx : existsb (fun r0 => String.eqb (pdfShareRequests.pdfId r0)
                                              (pdfShareRequests.pdfId r)
                                  && String.eqb (pdfShareRequests.toUserId r0)
                                                (pdfShareRequests.toUserId r)) rows = true).
  { apply existsb_exists. exists r. split; [exact Hin|]. now rewrite !String.eqb_refl. }
  congruence.
Qed.

Lemma NoDup_snoc {A} (l : list A) x : NoDup l -> ~ In x l -> NoDup (l ++ [x]).
Proof.
  intros Hl Hx. apply NoDup_app. split; [exact Hl|]. split.
  - intros y Hy Hy'. apply list_elem_of_In in Hy, Hy'. destruct Hy' as [<-|[]].
    contradiction.
  - apply NoDup_singleton.
Qed.

(** X4. Sharing keeps the Share Request table free of duplicates: if no two
    rows have the same document and recipient before a share, none have
    after it, whatever the request. *)
Theorem share_keeps_requests_unique (req : ShareRequest) (w : World) :
  unique_requests (db w) -> unique_requests (db (snd (share req w))).
Proof.
  intros Hu.
  destruct (share_cases req w)
    as [(user & targetUser & userEmail & targetEmail & pdf & Hready & Hreq & H)
       | [(reply' & H & Hs) | (e & H)]]; rewrite H; simpl; [|exact Hu..].
  unfold unique_requests in *. simpl. rewrite map_app. simpl.
  apply NoDup_snoc; [exact Hu|]. now apply no_key_in_requests.
Qed.

Lemma share_keeps_requests_unique_witness :
  unique_requests
    (db (snd (share share_D2_with_bob
                (world_of ∅ (db_of [paper "D1"; paper "D2"] [share_D1; share_D2_carol])
                          [] [])))).
Proof.
  apply (share_keeps_requests_unique share_D2_with_bob
           (world_of ∅ (db_of [paper "D1"; paper "D2"] [share_D1; share_D2_carol]) [] [])).
  unfold unique_requests. simpl.
  apply NoDup_cons. split; [|apply NoDup_singleton].
  intros H. apply list_elem_of_In in H. destruct H as [H|[]]. discriminate.
Defined.

(** X5. Sharing twice: once a share has gone through, sending the same
    request again is answered 409 "Share request already exists" and
    changes nothing. *)
Theorem share_twice_is_refused
    (req : ShareRequest) (w : World) (user targetUser : users.row)
    (userEmail targetEmail : string) (pdf : uploadedPdfs.row) :
  share_ready req w user targetUser userEmail targetEmail pdf ->
  requested w (share_param_id req) (users.id targetUser) = false ->
  exists w1,
    share req w = (Returned (ok (ShareCreated (entropy w (drawn w)) (now w))), w1) /\
    share req w1 = (Returned (respond 409 (Text "Share request already exists")), w1).
Proof.
  intros Hready Hreq.
  pose proof (share_run _ _ _ _ _ _ _ Hready) as H1. rewrite Hreq in H1.
  eexists. split; [exact H1|].
  rewrite (share_run req _ user targetUser userEmail targetEmail pdf).
  - unfold requested, after_share. simpl. rewrite existsb_app. simpl.
    now rewrite !String.eqb_refl, orb_true_r.
  - destruct Hready as (? & ? & ? & ? & ? & ?). repeat split; assumption.
Qed.

Lemma share_twice_is_refused_witness :
  exists w1,
    share share_D1_with_bob (world_of ∅ (db_of [paper "D1"] []) [] []) =
      (Returned (ok (ShareCreated "uuid-0" 0)), w1) /\
    share share_D1_with_bob w1 =
      (Returned (respond 409 (Text "Share request already exists")), w1).
Proof.
  apply (share_twice_is_refused share_D1_with_bob
           (world_of ∅ (db_of [paper "D1"] []) [] [])
           alice bob "alice@example.org" "bob@example.org" (paper "D1")).
  - repeat split.
  - reflexivity.
Defined.

(** ** Rejecting, and who may answer a share request *)

Lemma delete_pdfShareRequests_rows p w :
  exists w',
    delete_pdfShareRequests p w = (Returned tt, w') /\
    db w' = set_pdfShareRequests (List.filter (fun r => negb (p r))) (db w) /\
    service w' = service w /\
    graph_calls w' = graph_calls w.
Proof.
  unfold delete_pdfShareRequests. rewrite bind_gets, bind_modify.
  match goal with
  | |- context [record_effects ?es ?w0] =>
      destruct (record_effects_run es w0) as [w' [H (Hdb & Hs & He & Hj)]]
  end.
  exists w'. split; [exact H|]. rewrite Hdb, Hs. unfold graph_calls. rewrite Hj.
  simpl. repeat split.
  rewrite flat_map_app, no_graph_in_deleted. apply app_nil_r.
Qed.

(** A reject by the recipient. *)
Lemma reject_run req w user userEmail shareRequest :
  reject_ready req w user userEmail shareRequest ->
  exists w',
    reject req w = (Returned (ok (Text "Share request rejected")), w') /\
    t_pdfShareRequests (db w') =
      List.filter (fun r => negb (String.eqb (pdfShareRequests.id r) (param_id req)))
                  (t_pdfShareRequests (db w)) /\
    t_pdfAccess (db w') = t_pdfAccess (db w) /\
    t_uploadedPdfs (db w') = t_uploadedPdfs (db w) /\
    t_users (db w') = t_users (db w) /\
    service w' = service w /\
    graph_calls w' = graph_calls w.
Proof.
  intros (He & Hu & Hr).
  unfold reject. rewrite He. cbv zeta. unfold findFirst.
  destruct (delete_pdfShareRequests_rows
              (fun r => String.eqb (pdfShareRequests.id r) (param_id req)) w)
    as [w' (H & Hdb & Hs & Hg)].
  exists w'. split.
  - apply try_catch_run. rewrite bind_gets, Hu, bind_gets, Hr.
    erewrite bind_run by exact H. reflexivity.
  - rewrite Hdb. simpl. repeat split; assumption.
Qed.

(** Every way a reject can go. *)
Lemma reject_cases req w :
  (exists user userEmail shareRequest, reject_ready req w user userEmail shareRequest) \/
  (exists reply, reject req w = (Returned reply, w) /\ status reply <> 200).
Proof.
  destruct (present (id_email req)) as [userEmail|] eqn:He;
    [|right; unfold reject; rewrite He; eexists; split; [reflexivity | discriminate]].
  destruct (List.find (fun u => String.eqb (users.email u) userEmail) (t_users (db w)))
    as [user|] eqn:Hu;
    [|right; unfold reject; rewrite He; eexists; split;
      [apply try_catch_run; unfold findFirst; rewrite bind_gets, Hu; reflexivity
      | discriminate]].
  destruct (List.find (fun r => String.eqb (pdfShareRequests.id r) (param_id req)
                                && String.eqb (pdfShareRequests.toUserId r) (users.id user))
                      (t_pdfShareRequests (db w))) as [shareRequest|] eqn:Hr;
    [|right; unfold reject; rewrite He; eexists; split;
      [apply try_catch_run; unfold findFirst; cbv zeta;
       rewrite bind_gets, Hu, bind_gets, Hr; reflexivity
      | discriminate]].
  left. exists user, userEmail, shareRequest. repeat split; assumption.
Qed.

(** Every way an accept can go. *)
Lemma accept_cases req w :
  (exists user userEmail shareRequest pdf,
     accept_ready req w user userEmail shareRequest pdf) \/
  (exists reply w', accept req w = (Returned reply, w') /\ code reply <> 200 /\
                    db w' = db w /\ service w' = service w /\
                    graph_calls w' = graph_calls w).
Proof.
  destruct (present (accept_email req)) as [userEmail|] eqn:He;
    [|right; unfold accept; rewrite He; eexists _, _; split;
      [reflexivity | repeat split; discriminate]].
  destruct (List.find (fun u => String.eqb (users.email u) userEmail) (t_users (db w)))
    as [user|] eqn:Hu;
    [|right; unfold accept; rewrite He; eexists _, _; split;
      [apply try_catch_run; unfold findFirst; rewrite bind_gets, Hu; reflexivity
      | repeat split; discriminate]].
  destruct (List.find (fun r => String.eqb (pdfShareRequests.id r) (accept_id req)
                                && String.eqb (pdfShareRequests.toUserId r) (users.id user))
                      (t_pdfShareRequests (db w))) as [shareRequest|] eqn:Hr;
    [|right; unfold accept; rewrite He; eexists _, _; split;
      [apply try_catch_run; unfold findFirst; cbv zeta;
       rewrite bind_gets, Hu, bind_gets, Hr; reflexivity
      | repeat split; discriminate]].
  destruct (List.find (fun p => String.eqb (uploadedPdfs.id p)
                                           (pdfShareRequests.pdfId shareRequest))
                      (t_uploadedPdfs (db w))) as [pdf|] eqn:Hp.
  - left. exists user, userEmail, shareRequest, pdf. repeat split; assumption.
  - right. unfold accept. rewrite He. eexists _, _. split.
    + erewrite try_catch_threw
        by (unfold findFirst; cbv zeta;
            rewrite bind_gets, Hu, bind_gets, Hr, bind_gets, Hp; reflexivity).
      reflexivity.
    + split; [discriminate | repeat split].
Qed.

(** X6. A share request is answered only by its recipient: an accept or a
    reject that replies 200 was sent by a known user to whom a share
    request with the given identifier is addressed. An accept or a reject
    that is refused, with 401 or 404, leaves the tables and the graph as
    they were. *)
Theorem only_the_recipient_answers :
  (forall req w reply w',
     accept req w = (Returned reply, w') ->
     (code reply = 200 ->
      exists user userEmail shareRequest pdf,
        accept_ready req w user userEmail shareRequest pdf) /\
     (code reply = 401 \/ code reply = 404 ->
      db w' = db w /\ service w' = service w /\ graph_calls w' = graph_calls w)) /\
  (forall req w reply w',
     reject req w = (Returned reply, w') ->
     (status reply = 200 ->
      exists user userEmail shareRequest, reject_ready req w user userEmail shareRequest) /\
     (status reply = 401 \/ status reply = 404 -> w' = w)).
Proof.
  split.
  - intros req w reply w' Hrun.
    destruct (accept_cases req w)
      as [(user & userEmail & shareRequest & pdf & Hready)
         | (reply' & w'' & H & Hc & Hrest)].
    + destruct (accept_run _ _ _ _ _ _ Hready) as [w1 (H & _)].
      rewrite H in Hrun. inversion Hrun; subst.
      split; [eauto 6 | intros [Hx | Hx]; discriminate Hx].
    + rewrite H in Hrun. inversion Hrun; subst.
      split; [intros Hx; contradiction | intros _; exact Hrest].
  - intros req w reply w' Hrun.
    destruct (reject_cases req w)
      as [(user & userEmail & shareRequest & Hready) | (reply' & H & Hs)].
    + destruct (reject_run _ _ _ _ _ Hready) as [w1 (H & _)].
      rewrite H in Hrun. inversion Hrun; subst.
      split; [eauto | intros [Hx | Hx]; discriminate Hx].
    + rewrite H in Hrun. inversion Hrun; subst.
      split; [intros Hx; contradiction | intros _; reflexivity].
Qed.

Lemma only_the_recipient_answers_witness :
  (code (send_code 404 (Message "Share request not found")) = 200 ->
   exists user userEmail shareRequest pdf,
     accept_ready {| accept_id := "R1"; accept_email := Some "alice@example.org" |}
                  (world_of ∅ (db_of [paper "D1"] [share_D1]) [] [])
                  user userEmail shareRequest pdf) /\
  (code (send_code 404 (Message "Share request not found")) = 401 \/
   code (send_code 404 (Message "Share request not found")) = 404 ->
   db (world_of ∅ (db_of [paper "D1"] [share_D1]) [] [])
   = db (world_of ∅ (db_of [paper "D1"] [share_D1]) [] []) /\
   service (world_of ∅ (db_of [paper "D1"] [share_D1]) [] [])
   = service (world_of ∅ (db_of [paper "D1"] [share_D1]) [] []) /\
   graph_calls (world_of ∅ (db_of [paper "D1"] [share_D1]) [] [])
   = graph_calls (world_of ∅ (db_of [paper "D1"] [share_D1]) [] [])).
Proof.
  apply (proj1 only_the_recipient_answers
           {| accept_id := "R1"; accept_email := Some "alice@example.org" |}
           (world_of ∅ (db_of [paper "D1"] [share_D1]) [] [])).
  reflexivity.
Defined.

(** X7. Rejecting leaves no trace: a reject by the recipient removes the
    Share Request rows with that identifier and nothing else; no Access
    Grant row is created, no document or user row changes, nothing is asked
    of the authorization service and its tuples are as they were. *)
Theorem reject_leaves_no_trace
    (req : IdRequest) (w : World) (user : users.row) (userEmail : string)
    (shareRequest : pdfShareRequests.row) :
  reject_ready req w user userEmail shareRequest ->
  exists w',
    reject req w = (Returned (ok (Text "Share request rejected")), w') /\
    pending w' (param_id req) = false /\
    (forall r, In r (t_pdfShareRequests (db w)) ->
       pdfShareRequests.id r <> param_id req -> In r (t_pdfShareRequests (db w'))) /\
    t_pdfAccess (db w') = t_pdfAccess (db w) /\
    t_uploadedPdfs (db w') = t_uploadedPdfs (db w) /\
    t_users (db w') = t_users (db w) /\
    tuples (service w') = tuples (service w) /\
    graph_calls w' = graph_calls w.
Proof.
  intros Hready.
  destruct (reject_run _ _ _ _ _ Hready) as [w' (H & Hq & Ha & Hp & Hu & Hs & Hg)].
  exists w'. split; [exact H|]. split; [|split].
  - unfold pending. rewrite Hq.
    apply (existsb_filter_negb
             (fun r => String.eqb (pdfShareRequests.id r) (param_id req))).
  - intros r Hin Hne. rewrite Hq. apply filter_In. split; [exact Hin|].
    apply negb_true_iff, String.eqb_neq. exact Hne.
  - repeat split; congruence.
Qed.

Lemma reject_leaves_no_trace_witness :
  exists w',
    reject reject_R1 (world_of configured_env (db_of [paper "D1"] [share_D1]) [] []) =
      (Returned (ok (Text "Share request rejected")), w') /\
    pending w' "R1" = false /\
    (forall r, In r [share_D1] ->
       pdfShareRequests.id r <> "R1" -> In r (t_pdfShareRequests (db w'))) /\
    t_pdfAccess (db w') = [] /\
    t_uploadedPdfs (db w') = [paper "D1"] /\
    t_users (db w') = [alice; bob] /\
    tuples (service w') = [] /\
    graph_calls w' = [].
Proof.
  apply (reject_leaves_no_trace reject_R1
           (world_of configured_env (db_of [paper "D1"] [share_D1]) [] [])
           bob "bob@example.org" share_D1).
  repeat split.
Defined.

(** ** Download and delete *)

(** Download is decided by the tables alone. *)
Lemma download_run req w user userEmail pdf :
  download_ready req w user userEmail pdf ->
  download req w =
    (Returned (if String.eqb (uploadedPdfs.ownerId pdf) (users.id user)
                  || has_access w (param_id req) (users.id user)
               then if existsb (String.eqb (uploadedPdfs.fileName pdf)) (disk w)
                    then ok (SentFile (uploadedPdfs.fileName pdf))
                    else respond 404 NotFound
               else respond 403 (Text "Access denied")),
     w).
Proof.
  intros (He & Hu & Hp). unfold download. rewrite He. cbv zeta.
  apply try_catch_run. unfold findFirst.
  rewrite bind_gets, Hu, bind_gets, Hp, bind_gets.
  unfold has_access. rewrite find_existsb. unfold sendFile.
  destruct (String.eqb (uploadedPdfs.ownerId pdf) (users.id user));
    destruct (List.find _ (t_pdfAccess (db w))); cbn [negb andb orb];
    try reflexivity;
    destruct (existsb (String.eqb (uploadedPdfs.fileName pdf)) (disk w)); reflexivity.
Qed.

Lemma existsb_eqb_map {A} (f : A -> string) (x : string) l :
  existsb (String.eqb x) (map f l) = existsb (fun a => String.eqb x (f a)) l.
Proof. induction l; simpl; [reflexivity | now rewrite IHl]. Qed.

Lemma delete_uploadedPdfs_rows pdfId w :
  exists w',
    delete_uploadedPdfs (fun p => String.eqb (uploadedPdfs.id p) pdfId) w
      = (Returned tt, w') /\
    t_uploadedPdfs (db w') =
      List.filter (fun p => negb (String.eqb (uploadedPdfs.id p) pdfId))
                  (t_uploadedPdfs (db w)) /\
    t_pdfShareRequests (db w') =
      List.filter
        (fun r => negb (existsb (String.eqb (pdfShareRequests.pdfId r))
                          (map uploadedPdfs.id
                             (List.filter (fun p => String.eqb (uploadedPdfs.id p) pdfId)
                                          (t_uploadedPdfs (db w))))))
        (t_pdfShareRequests (db w)) /\
    t_pdfAccess (db w') =
      List.filter
        (fun r => negb (existsb (String.eqb (pdfAccess.pdfId r))
                          (map uploadedPdfs.id
                             (List.filter (fun p => String.eqb (uploadedPdfs.id p) pdfId)
                                          (t_uploadedPdfs (db w))))))
        (t_pdfAccess (db w)) /\
    t_users (db w') = t_users (db w) /\
    service w' = service w /\
    graph_calls w' = graph_calls w.
Proof.
  unfold delete_uploadedPdfs. rewrite bind_gets, !bind_modify.
  match goal with
  | |- context [record_effects ?es ?w0] =>
      destruct (record_effects_run es w0) as [w' [H (Hdb & Hs & He & Hj)]]
  end.
  exists w'. split; [exact H|]. rewrite Hdb, Hs. unfold graph_calls. rewrite Hj.
  simpl. repeat split.
  rewrite flat_map_app.
  match goal with
  | |- _ ++ ?x = _ => assert (Hx : x = []); [|rewrite Hx; apply app_nil_r]
  end.
  clear. induction (map uploadedPdfs.id _); simpl; auto.
Qed.

(** The identifiers deleted are the given one, when a row has it. *)
Lemma gone_is_the_id pdfId rows (x : string) :
  existsb (fun p => String.eqb (uploadedPdfs.id p) pdfId) rows = true ->
  existsb (String.eqb x)
          (map uploadedPdfs.id
               (List.filter (fun p => String.eqb (uploadedPdfs.id p) pdfId) rows))
  = String.eqb x pdfId.
Proof.
  intros H. destruct (String.eqb x pdfId) eqn:E.
  - apply String.eqb_eq in E. subst x. apply existsb_exists in H.
    destruct H as [p [Hin Hp]]. apply existsb_exists. exists (uploadedPdfs.id p).
    split; [|now rewrite String.eqb_sym].
    apply in_map. apply filter_In. auto.
  - apply not_true_is_false. intros Hx. apply existsb_exists in Hx.
    destruct Hx as [y [Hy Hxy]]. apply String.eqb_eq in Hxy. subst y.
    apply in_map_iff in Hy. destruct Hy as [p [Hp Hin]]. apply filter_In in Hin.
    destruct Hin as [_ Hid]. apply String.eqb_eq in Hid. rewrite <- Hp, Hid in E.
    now rewrite String.eqb_refl in E.
Qed.

Lemma unlink_caught_delete fileName w :
  exists w',
    try_catch (unlink fileName)
              (fun err => log warn "Failed to delete file:" (Some err)) w
      = (Returned tt, w') /\
    db w' = db w /\ service w' = service w /\ graph_calls w' = graph_calls w.
Proof.
  unfold try_catch, unlink.
  destruct (existsb (String.eqb fileName) (disk w));
    eexists; (split; [reflexivity|]); simpl; auto.
Qed.

(** A delete by the owner: the document goes, and with it the share
    requests and the access grants that name it. *)
Lemma remove_run req w user userEmail pdf :
  remove_ready req w user userEmail pdf ->
  exists w',
    remove req w = (Returned (ok (Text "PDF deleted successfully")), w') /\
    t_uploadedPdfs (db w') =
      List.filter (fun p => negb (String.eqb (uploadedPdfs.id p) (param_id req)))
                  (t_uploadedPdfs (db w)) /\
    t_pdfShareRequests (db w') =
      List.filter (fun r => negb (String.eqb (pdfShareRequests.pdfId r) (param_id req)))
                  (t_pdfShareRequests (db w)) /\
    t_pdfAccess (db w') =
      List.filter (fun r => negb (String.eqb (pdfAccess.pdfId r) (param_id req)))
                  (t_pdfAccess (db w)) /\
    t_users (db w') = t_users (db w) /\
    service w' = service w /\
    graph_calls w' = graph_calls w.
Proof.
  intros (He & Hu & Hp). unfold remove. rewrite He. cbv zeta. unfold findFirst.
  destruct (unlink_caught_delete (uploadedPdfs.fileName pdf) w)
    as [w1 (H1 & Hdb1 & Hs1 & Hg1)].
  destruct (delete_uploadedPdfs_rows (param_id req) w1)
    as [w2 (H2 & Hp2 & Hq2 & Ha2 & Hu2 & Hs2 & Hg2)].
  exists w2. split.
  - apply try_catch_run. rewrite bind_gets, Hu, bind_gets, Hp.
    erewrite bind_run by exact H1. erewrite bind_run by exact H2. reflexivity.
  - rewrite Hdb1 in *.
    assert (Hhas : existsb (fun p => String.eqb (uploadedPdfs.id p) (param_id req))
                           (t_uploadedPdfs (db w)) = true).
    { destruct (find_some _ _ Hp) as [Hin Hpp]. apply existsb_exists. exists pdf.
      split; [exact Hin|]. apply andb_true_iff in Hpp. tauto. }
    split; [exact Hp2|]. split; [|split; [|repeat split; congruence]].
    + rewrite Hq2. apply filter_ext. intros r. f_equal. now apply gone_is_the_id.
    + rewrite Ha2. apply filter_ext. intros r. f_equal. now apply gone_is_the_id.
Qed.

(** Every way a delete can go. *)
Lemma remove_cases req w :
  (exists user userEmail pdf, remove_ready req w user userEmail pdf) \/
  (exists reply, remove req w = (Returned reply, w) /\ status reply <> 200).
Proof.
  destruct (present (id_email req)) as [userEmail|] eqn:He;
    [|right; unfold remove; rewrite He; eexists; split; [reflexivity | discriminate]].
  destruct (List.find (fun u => String.eqb (users.email u) userEmail) (t_users (db w)))
    as [user|] eqn:Hu;
    [|right; unfold remove; rewrite He; eexists; split;
      [apply try_catch_run; unfold findFirst; rewrite bind_gets, Hu; reflexivity
      | discriminate]].
  destruct (List.find (fun p => String.eqb (uploadedPdfs.id p) (param_id req)
                                && String.eqb (uploadedPdfs.ownerId p) (users.id user))
                      (t_uploadedPdfs (db w))) as [pdf|] eqn:Hp;
    [|right; unfold remove; rewrite He; eexists; split;
      [apply try_catch_run; unfold findFirst; cbv zeta;
       rewrite bind_gets, Hu, bind_gets, Hp; reflexivity
      | discriminate]].
  left. exists user, userEmail, pdf. repeat split; assumption.
Qed.

(** X8. Only the owner deletes, and the delete cascades: a delete that
    answers 200 was sent by the owner of the document; afterwards no
    document row, no Share Request row and no Access Grant row names that
    document, while every row about another document is still there. A
    delete that is refused, with 401 or 404, changes nothing. *)
Theorem delete_is_for_owners_and_cascades
    (req : IdRequest) (w w' : World) (reply : Response) :
  remove req w = (Returned reply, w') ->
  (status reply = 200 ->
   (exists user userEmail pdf, remove_ready req w user userEmail pdf) /\
   has_pdf w' (param_id req) = false /\
   (forall uid, requested w' (param_id req) uid = false) /\
   (forall uid, has_access w' (param_id req) uid = false) /\
   (forall p, In p (t_uploadedPdfs (db w)) -> uploadedPdfs.id p <> param_id req ->
      In p (t_uploadedPdfs (db w'))) /\
   (forall r, In r (t_pdfShareRequests (db w)) ->
      pdfShareRequests.pdfId r <> param_id req -> In r (t_pdfShareRequests (db w'))) /\
   (forall a, In a (t_pdfAccess (db w)) -> pdfAccess.pdfId a <> param_id req ->
      In a (t_pdfAccess (db w')))) /\
  (status reply = 401 \/ status reply = 404 -> w' = w).
Proof.
  intros Hrun.
  destruct (remove_cases req w) as [(user & userEmail & pdf & Hready) | (reply' & H & Hs)].
  - destruct (remove_run _ _ _ _ _ Hready)
      as [w1 (H & Hp & Hq & Ha & _)].
    rewrite H in Hrun. inversion Hrun; subst.
    split; [intros _ | intros [Hx | Hx]; discriminate Hx].
    split; [eauto|]. unfold has_pdf, requested, has_access. rewrite Hp, Hq, Ha.
    split; [|split; [|split; [|split; [|split]]]].
    + apply (existsb_filter_negb
               (fun p => String.eqb (uploadedPdfs.id p) (param_id req))).
    + intros uid. apply not_true_is_false. intros Hx. apply existsb_exists in Hx.
      destruct Hx as [r [Hin Hr]]. apply filter_In in Hin.
      apply andb_true_iff in Hr. destruct Hin as [_ Hn], Hr as [Hr _].
      rewrite Hr in Hn. discriminate.
    + intros uid. apply not_true_is_false. intros Hx. apply existsb_exists in Hx.
      destruct Hx as [r [Hin Hr]]. apply filter_In in Hin.
      apply andb_true_iff in Hr. destruct Hin as [_ Hn], Hr as [Hr _].
      rewrite Hr in Hn. discriminate.
    + intros p Hin Hne. apply filter_In. split; [exact Hin|].
      apply negb_true_iff, String.eqb_neq, Hne.
    + intros r Hin Hne. apply filter_In. split; [exact Hin|].
      apply negb_true_iff, String.eqb_neq, Hne.
    + intros a Hin Hne. apply filter_In. split; [exact Hin|].
      apply negb_true_iff, String.eqb_neq, Hne.
  - rewrite H in Hrun. inversion Hrun; subst.
    split; [intros Hx; contradiction | reflexivity].
Qed.

Lemma delete_is_for_owners_and_cascades_witness :
  (status (ok (Text "PDF deleted successfully")) = 200 ->
   (exists user userEmail pdf,
      remove_ready remove_D1 (world_of configured_env db_shared [] []) user userEmail pdf) /\
   has_pdf (snd (remove remove_D1 (world_of configured_env db_shared [] []))) "D1" = false /\
   (forall uid,
      requested (snd (remove remove_D1 (world_of configured_env db_shared [] []))) "D1" uid
      = false) /\
   (forall uid,
      has_access (snd (remove remove_D1 (world_of configured_env db_shared [] []))) "D1" uid
      = false) /\
   (forall p, In p [paper "D1"; paper "D2"] -> uploadedPdfs.id p <> "D1" ->
      In p (t_uploadedPdfs
              (db (snd (remove remove_D1 (world_of configured_env db_shared [] [])))))) /\
   (forall r, In r [share_D1] -> pdfShareRequests.pdfId r <> "D1" ->
      In r (t_pdfShareRequests
              (db (snd (remove remove_D1 (world_of configured_env db_shared [] [])))))) /\
   (forall a, In a [grant_D1_bob] -> pdfAccess.pdfId a <> "D1" ->
      In a (t_pdfAccess
              (db (snd (remove remove_D1 (world_of configured_env db_shared [] []))))))) /\
  (status (ok (Text "PDF deleted successfully")) = 401 \/
   status (ok (Text "PDF deleted successfully")) = 404 ->
   snd (remove remove_D1 (world_of configured_env db_shared [] []))
   = world_of configured_env db_shared [] []).
Proof.
  apply (delete_is_for_owners_and_cascades remove_D1
           (world_of configured_env db_shared [] [])).
  reflexivity.
Defined.

(** ** What accept leaves alone *)

Ltac same_stock := split; [|split]; reflexivity.

Ltac kept :=
  repeat first
    [ keeps_step
    | apply keeps_modify; intros ?; same_stock
    | apply keeps_record_effects; [typeclasses eauto|];
      apply Forall_forall; intros ? _ ?; same_stock ].

Lemma randomUUID_kept : keeps stock_kept randomUUID.
Proof. intros w. same_stock. Qed.

Lemma insert_linkedResearchers_kept a b c :
  keeps stock_kept (insert_linkedResearchers a b c).
Proof.
  unfold insert_linkedResearchers.
  apply keeps_bind; [typeclasses eauto | apply randomUUID_kept | intros ?]. kept.
Qed.

Lemma insert_pdfAccess_kept a b : keeps stock_kept (insert_pdfAccess a b).
Proof.
  unfold insert_pdfAccess.
  apply keeps_bind; [typeclasses eauto | apply randomUUID_kept | intros ?]. kept.
Qed.

Lemma delete_pdfShareRequests_kept p :
  keeps stock_kept (delete_pdfShareRequests p).
Proof. unfold delete_pdfShareRequests. kept. Qed.

Lemma Client_write_kept c ws ds : keeps stock_kept (Client_write c ws ds).
Proof.
  intros w. unfold Client_write, next_outcome.
  destruct (outcomes (service w)) as [|[| |e] rest]; same_stock.
Qed.

Lemma getFGAClient_same w : snd (getFGAClient w) = w.
Proof. reflexivity. Qed.

Lemma grantDocumentAccess_kept u d r :
  keeps stock_kept (grantDocumentAccess u d r).
Proof.
  unfold grantDocumentAccess.
  apply keeps_bind;
    [typeclasses eauto
    | apply keeps_unchanged; [typeclasses eauto | apply getFGAClient_same]
    | intros ?].
  apply keeps_bind; [typeclasses eauto | apply keeps_modify; intros ?; same_stock
                    | intros ?].
  apply keeps_try_catch; [typeclasses eauto | | intros ?].
  - apply keeps_bind; [typeclasses eauto | apply Client_write_kept | intros ?]. kept.
  - kept.
Qed.

Lemma accept_grant_kept u d : keeps stock_kept (accept_grant u d).
Proof.
  unfold accept_grant.
  apply keeps_bind; [typeclasses eauto | apply keeps_gets; typeclasses eauto | intros c].
  destruct c; [|apply keeps_ret; typeclasses eauto].
  apply keeps_try_catch; [typeclasses eauto | | intros ?].
  - apply keeps_bind; [typeclasses eauto | apply grantDocumentAccess_kept | intros ?]. kept.
  - kept.
Qed.

#[local] Hint Resolve randomUUID_kept insert_linkedResearchers_kept insert_pdfAccess_kept
  delete_pdfShareRequests_kept accept_grant_kept : keeps.

(** Accepting a share never touches the users, the documents or the
    files. *)
Lemma accept_kept req : keeps stock_kept (accept req).
Proof.
  unfold accept. cbv zeta.
  repeat first
    [ keeps_step
    | solve [ auto with keeps ]
    | apply keeps_modify; intros ?; same_stock ].
Qed.

(** ** Flows *)

Lemma present_idem o s : present o = Some s -> present (Some s) = Some s.
Proof.
  unfold present. destruct (truthy o) eqn:E; [|discriminate].
  intros ->. now rewrite E.
Qed.

Lemma find_snoc {A} (p : A -> bool) l x :
  List.find p (l ++ [x]) =
    match List.find p l with
    | Some y => Some y
    | None => if p x then Some x else None
    end.
Proof.
  induction l as [|y l IH]; simpl; [reflexivity|]. destruct (p y); [reflexivity | exact IH].
Qed.

Lemma find_none_weaker {A} (p q : A -> bool) l :
  existsb q l = false -> (forall a, p a = true -> q a = true) -> List.find p l = None.
Proof.
  intros H Hpq. induction l as [|a l IH]; simpl in *; [reflexivity|].
  apply orb_false_iff in H. destruct H as [Hq Hl].
  destruct (p a) eqn:Ea; [|auto]. rewrite (Hpq a Ea) in Hq. discriminate.
Qed.

(** X9. From share to download. When an owner shares a document whose file
    is in the upload directory with another user who has no access yet, the
    request goes through; the recipient's download is still answered 403;
    the recipient's accept of that request goes through; and the recipient's
    download is then answered with the file. *)
Theorem share_then_accept_opens_download
    (req : ShareRequest) (w : World) (user targetUser : users.row)
    (userEmail targetEmail : string) (pdf : uploadedPdfs.row) :
  share_ready req w user targetUser userEmail targetEmail pdf ->
  List.find (fun p => String.eqb (uploadedPdfs.id p) (share_param_id req))
            (t_uploadedPdfs (db w)) = Some pdf ->
  existsb (String.eqb (uploadedPdfs.fileName pdf)) (disk w) = true ->
  String.eqb (users.id user) (users.id targetUser) = false ->
  requested w (share_param_id req) (users.id targetUser) = false ->
  has_access w (share_param_id req) (users.id targetUser) = false ->
  pending w (entropy w (drawn w)) = false ->
  exists w1 w2,
    let asks := {| param_id := share_param_id req; id_email := Some targetEmail |} in
    share req w = (Returned (ok (ShareCreated (entropy w (drawn w)) (now w))), w1) /\
    download asks w1 = (Returned (respond 403 (Text "Access denied")), w1) /\
    accept {| accept_id := entropy w (drawn w); accept_email := Some targetEmail |} w1
      = (Returned (send (Message "Share request accepted")), w2) /\
    download asks w2 = (Returned (ok (SentFile (uploadedPdfs.fileName pdf))), w2).
Proof.
  intros Hready Hpdf Hfile Hids Hreq Hacc Hfresh.
  pose proof (share_run _ _ _ _ _ _ _ Hready) as Hshare. rewrite Hreq in Hshare.
  destruct Hready as (Ht & He & Hne & Hu & Htu & Hp).
  pose proof (present_idem _ _ Ht) as Hte.
  assert (Hown : uploadedPdfs.ownerId pdf = users.id user).
  { destruct (find_some _ _ Hp) as [_ Hx]. apply andb_true_iff in Hx.
    apply String.eqb_eq. tauto. }
  set (r := new_request w (share_param_id req) (users.id user) (users.id targetUser)).
  set (w1 := after_share r w) in *.
  assert (Hready1 : accept_ready
                      {| accept_id := entropy w (drawn w);
                         accept_email := Some targetEmail |}
                      w1 targetUser targetEmail r pdf).
  { split; [exact Hte|]. split; [exact Htu|]. split; [|exact Hpdf].
    simpl. rewrite find_snoc.
    rewrite (find_none_weaker _ (fun r0 => String.eqb (pdfShareRequests.id r0)
                                                      (entropy w (drawn w)))).
    - simpl. now rewrite !String.eqb_refl.
    - exact Hfresh.
    - intros a Ha. apply andb_true_iff in Ha. tauto. }
  destruct (accept_run _ _ _ _ _ _ Hready1) as [w2 (Haccept & Hhas & _)].
  pose proof (accept_kept {| accept_id := entropy w (drawn w);
                             accept_email := Some targetEmail |} w1) as (Hk1 & Hk2 & Hk3).
  rewrite Haccept in Hk1, Hk2, Hk3. simpl in Hk1, Hk2, Hk3.
  exists w1, w2. cbv zeta. split; [exact Hshare|]. split; [|split; [exact Haccept|]].
  - rewrite (download_run _ w1 targetUser targetEmail pdf)
      by (repeat split; assumption).
    simpl param_id. rewrite Hown, Hids.
    change (has_access w1 (share_param_id req) (users.id targetUser))
      with (has_access w (share_param_id req) (users.id targetUser)).
    rewrite Hacc. reflexivity.
  - rewrite (download_run _ w2 targetUser targetEmail pdf).
    + simpl param_id. simpl in Hhas. rewrite Hhas, orb_true_r, Hk3, Hfile. reflexivity.
    + split; [exact Hte|]. split; [rewrite Hk1; exact Htu | rewrite Hk2; exact Hpdf].
Qed.

Lemma share_then_accept_opens_download_witness :
  exists w1 w2,
    share share_D1_with_bob
          (set_disk (fun _ => ["D1.pdf"])
                    (world_of configured_env (db_of [paper "D1"] []) [] [])) =
      (Returned (ok (ShareCreated "uuid-0" 0)), w1) /\
    download download_D1_bob w1 = (Returned (respond 403 (Text "Access denied")), w1) /\
    accept {| accept_id := "uuid-0"; accept_email := Some "bob@example.org" |} w1
      = (Returned (send (Message "Share request accepted")), w2) /\
    download download_D1_bob w2 = (Returned (ok (SentFile "D1.pdf")), w2).
Proof.
  apply (share_then_accept_opens_download share_D1_with_bob
           (set_disk (fun _ => ["D1.pdf"])
                     (world_of configured_env (db_of [paper "D1"] []) [] []))
           alice bob "alice@example.org" "bob@example.org" (paper "D1")).
  - repeat split.
  - reflexivity.
  - reflexivity.
  - reflexivity.
  - reflexivity.
  - reflexivity.
  - reflexivity.
Defined.

(** X10. Deleting a document does not revoke its tuples. With a
    configuration from which the client can be built, after a first upload
    whose two grants went through, the uploader's delete of that document
    removes the row and asks nothing of the authorization service:
    [check(U, owner, D)] and [check(U, viewer, D)] still hold for the
    document that is gone. *)
Theorem delete_leaves_the_tuples
    (req : UploadRequest) (w : World) (user : users.row)
    (workId userEmail filename : string) :
  upload_ready req w user workId userEmail filename ->
  existing_pdf w user workId = None ->
  fga_configured w = true ->
  client_builds w = true ->
  rejected (outcome_at w 0) = false ->
  rejected (outcome_at w 1) = false ->
  exists w1 w2,
    let docId := entropy w (S (drawn w)) in
    upload req w = (Returned (send (StoredPdf docId workId filename (now w))), w1) /\
    remove {| param_id := docId; id_email := upload_email req |} w1
      = (Returned (ok (Text "PDF deleted successfully")), w2) /\
    has_pdf w2 docId = false /\
    graph_calls w2 = graph_calls w1 /\
    check w2 userEmail owner docId = true /\
    check w2 userEmail viewer docId = true.
Proof.
  intros Hready Hex Hconf Hbuilt H0 H1.
  destruct (upload_new_run req w user workId userEmail filename Hready Hex) as [logs Hrun].
  rewrite Hconf in Hrun. unfold upload_written, upload_calls in Hrun.
  rewrite Hbuilt, H0, H1 in Hrun. cbn [negb] in Hrun. cbv zeta iota in Hrun.
  destruct Hready as (Hw & He & Hu & Hf & Hd).
  set (r := new_pdf req user workId filename w) in *.
  match type of Hrun with _ = (_, ?x) => set (w1 := x) in * end.
  assert (Hfind : exists pdf,
             List.find (fun p => String.eqb (uploadedPdfs.id p) (entropy w (S (drawn w)))
                                 && String.eqb (uploadedPdfs.ownerId p) (users.id user))
                       (t_uploadedPdfs (db w1)) = Some pdf).
  { simpl. rewrite find_snoc. destruct (List.find _ (t_uploadedPdfs (db w))); [eauto|].
    simpl. rewrite !String.eqb_refl. simpl. eauto. }
  destruct Hfind as [pdf Hpdf].
  destruct (remove_run {| param_id := entropy w (S (drawn w));
                          id_email := upload_email req |} w1 user userEmail pdf)
    as [w2 (Hrm & Hp & _ & _ & _ & Hs & Hg)]; [repeat split; assumption|].
  exists w1, w2. cbv zeta. split; [exact Hrun|]. split; [exact Hrm|].
  split; [|split; [exact Hg|]].
  - unfold has_pdf. rewrite Hp.
    apply (existsb_filter_negb
             (fun p => String.eqb (uploadedPdfs.id p) (entropy w (S (drawn w))))).
  - unfold check, stored. rewrite Hs. simpl tuples.
    split; apply holds_in, in_or_app; right; simpl; auto.
Qed.

Lemma delete_leaves_the_tuples_witness :
  exists w1 w2,
    upload upload_D1 (world_of configured_env (db_of [] []) [] []) =
      (Returned (send (StoredPdf "uuid-1" "W-D1" "revised.pdf" 0)), w1) /\
    remove {| param_id := "uuid-1"; id_email := Some "alice@example.org" |} w1
      = (Returned (ok (Text "PDF deleted successfully")), w2) /\
    has_pdf w2 "uuid-1" = false /\
    graph_calls w2 = graph_calls w1 /\
    check w2 "alice@example.org" owner "uuid-1" = true /\
    check w2 "alice@example.org" viewer "uuid-1" = true.
Proof.
  apply (delete_leaves_the_tuples upload_D1 (world_of configured_env (db_of [] []) [] [])
           alice "W-D1" "alice@example.org" "revised.pdf").
  - repeat split.
  - reflexivity.
  - reflexivity.
  - reflexivity.
  - reflexivity.
  - reflexivity.
Defined.

(** ** Uploads, whatever the request *)

(** Every way an upload can go. *)
Lemma upload_cases req w :
  (exists user workId userEmail filename,
     upload_ready req w user workId userEmail filename) \/
  (exists reply w',
     upload req w = (Returned reply, w') /\ code reply <> 200 /\
     db w' = db w /\ disk w' = disk w /\ service w' = service w /\
     graph_calls w' = graph_calls w).
Proof.
  destruct (present (upload_workId req)) as [workId|] eqn:Hw;
    [|right; unfold upload; rewrite Hw; eexists _, _; split;
      [reflexivity | split; [discriminate | repeat split]]].
  destruct (present (upload_email req)) as [userEmail|] eqn:He;
    [|right; unfold upload; rewrite Hw, He; eexists _, _; split;
      [reflexivity | split; [discriminate | repeat split]]].
  destruct (List.find (fun u => String.eqb (users.email u) userEmail) (t_users (db w)))
    as [user|] eqn:Hu;
    [|right; unfold upload; rewrite Hw, He; eexists _, _; split;
      [apply try_catch_run; unfold findFirst; rewrite bind_gets, Hu; reflexivity
      | split; [discriminate | repeat split]]].
  destruct (upload_file req) as [filename|] eqn:Hf;
    [|right; unfold upload; rewrite Hw, He; eexists _, _; split;
      [apply try_catch_run; unfold findFirst; rewrite bind_gets, Hu, Hf; reflexivity
      | split; [discriminate | repeat split]]].
  destruct (disk_writable w) eqn:Hd.
  - left. exists user, workId, userEmail, filename. repeat split; assumption.
  - right. unfold upload. rewrite Hw, He. eexists _, _. split.
    + erewrite try_catch_threw; [reflexivity|].
      unfold findFirst. rewrite bind_gets, Hu, Hf, bind_gets.
      unfold randomUUID at 1, bind at 1.
      erewrite bind_threw; [reflexivity|].
      unfold pipeline. simpl. rewrite Hd. reflexivity.
    + split; [discriminate | repeat split].
Qed.

Lemma no_key_in_pdfs ownerId workId rows :
  List.find (fun p => String.eqb (uploadedPdfs.ownerId p) ownerId
                      && String.eqb (uploadedPdfs.workId p) workId) rows = None ->
  ~ In (ownerId, workId)
       (map (fun p => (uploadedPdfs.ownerId p, uploadedPdfs.workId p)) rows).
Proof.
  intros H Hin. apply in_map_iff in Hin. destruct Hin as [r [Hr Hin]].
  inversion Hr; subst.
  apply (find_none _ _ H) in Hin. now rewrite !String.eqb_refl in Hin.
Qed.

(** X11. Uploading keeps one document per owner and work: if no two rows of
    the document table have the same owner and work before an upload, none
    have after it, whatever the request and whatever the disk and the
    authorization service do. *)
Theorem upload_keeps_owner_work_unique (req : UploadRequest) (w : World) :
  unique_owner_work (db w) -> unique_owner_work (db (snd (upload req w))).
Proof.
  intros Hu.
  destruct (upload_cases req w)
    as [(user & workId & userEmail & filename & Hready)
       | (reply & w' & H & _ & Hdb & _)].
  - destruct (existing_pdf w user workId) as [existing|] eqn:Hex.
    + destruct (upload_again_run req w user workId userEmail filename existing Hready Hex)
        as [w' [workId' (H & Hrows & _)]].
      rewrite H. simpl. unfold unique_owner_work in *. rewrite Hrows.
      rewrite map_map.
      erewrite map_ext; [exact Hu|].
      intros p. simpl. destruct (String.eqb _ _); reflexivity.
    + destruct (upload_new_run req w user workId userEmail filename Hready Hex)
        as [logs H].
      rewrite H. cbv zeta. unfold unique_owner_work in *.
      destruct (fga_configured w); simpl; rewrite map_app; simpl;
        (apply NoDup_snoc; [exact Hu | now apply no_key_in_pdfs]).
  - rewrite H. simpl. unfold unique_owner_work. now rewrite Hdb.
Qed.

Lemma upload_keeps_owner_work_unique_witness :
  unique_owner_work
    (db (snd (upload upload_D1
                (world_of configured_env (db_of [paper "D0"; paper "D1"] []) [] [])))).
Proof.
  apply (upload_keeps_owner_work_unique upload_D1
           (world_of configured_env (db_of [paper "D0"; paper "D1"] []) [] [])).
  unfold unique_owner_work. simpl.
  apply NoDup_cons. split; [|apply NoDup_singleton].
  intros H. apply list_elem_of_In in H. destruct H as [H|[]]. discriminate H.
Defined.

(** X12. An upload that is refused stores nothing: when the reply is 400,
    401 or 404 (no work identifier, no e-mail in the token, unknown user or
    no file), the tables, the upload directory and the tuples are as they
    were, and nothing was asked of the authorization service. *)
Theorem refused_upload_stores_nothing
    (req : UploadRequest) (w w' : World) (reply : Reply) :
  upload req w = (Returned reply, w') ->
  code reply = 400 \/ code reply = 401 \/ code reply = 404 ->
  db w' = db w /\ disk w' = disk w /\ service w' = service w /\
  graph_calls w' = graph_calls w.
Proof.
  intros Hrun Hcode.
  destruct (upload_cases req w)
    as [(user & workId & userEmail & filename & Hready)
       | (reply' & w'' & H & _ & Hrest)].
  - exfalso. destruct (existing_pdf w user workId) as [existing|] eqn:Hex.
    + destruct (upload_again_run req w user workId userEmail filename existing Hready Hex)
        as [w1 [workId' (H & _)]].
      rewrite H in Hrun. inversion Hrun; subst.
      destruct Hcode as [Hx | [Hx | Hx]]; discriminate Hx.
    + destruct (upload_new_run req w user workId userEmail filename Hready Hex)
        as [logs H].
      rewrite H in Hrun. inversion Hrun; subst.
      destruct Hcode as [Hx | [Hx | Hx]]; discriminate Hx.
  - rewrite H in Hrun. inversion Hrun; subst. exact Hrest.
Qed.

Lemma refused_upload_stores_nothing_witness :
  upload upload_without_file (world_of configured_env (db_of [paper "D1"] []) [] [])
  = (Returned (send_code 400 (Message "No file uploaded")),
     world_of configured_env (db_of [paper "D1"] []) [] []) /\
  db (world_of configured_env (db_of [paper "D1"] []) [] []) = db_of [paper "D1"] [] /\
  disk (world_of configured_env (db_of [paper "D1"] []) [] []) = [] /\
  service (world_of configured_env (db_of [paper "D1"] []) [] [])
  = {| tuples := []; outcomes := [] |} /\
  graph_calls (world_of configured_env (db_of [paper "D1"] []) [] []) = [].
Proof.
  split; [reflexivity|].
  apply (refused_upload_stores_nothing upload_without_file
           (world_of configured_env (db_of [paper "D1"] []) [] [])
           _ (send_code 400 (Message "No file uploaded"))).
  - reflexivity.
  - left. reflexivity.
Defined.

(** X13. Uploading twice for the same work. After a first upload, the same
    request sent again is answered with the identifier of the document the
    first one created; the second upload adds no row and asks nothing of the
    authorization service. *)
Theorem second_upload_reuses_the_document
    (req : UploadRequest) (w : World) (user : users.row)
    (workId userEmail filename : string) :
  upload_ready req w user workId userEmail filename ->
  existing_pdf w user workId = None ->
  exists w1 w2 workId',
    let docId := entropy w (S (drawn w)) in
    upload req w = (Returned (send (StoredPdf docId workId filename (now w))), w1) /\
    upload req w1 = (Returned (send (StoredPdf docId workId' filename (now w1))), w2) /\
    length (t_uploadedPdfs (db w2)) = S (length (t_uploadedPdfs (db w))) /\
    identities w2 = identities w1 /\
    service w2 = service w1.
Proof.
  intros Hready Hex.
  destruct (upload_new_run req w user workId userEmail filename Hready Hex) as [logs Hrun].
  match type of Hrun with _ = (_, ?x) => set (w1 := x) in * end.
  assert (Hrows1 : t_uploadedPdfs (db w1)
                   = t_uploadedPdfs (db w) ++ [new_pdf req user workId filename w])
    by (unfold w1; cbv zeta; destruct (fga_configured w); reflexivity).
  assert (Hready1 : upload_ready req w1 user workId userEmail filename).
  { destruct Hready as (Hw & He & Hu & Hf & Hd).
    repeat split; try assumption;
      unfold w1; cbv zeta; destruct (fga_configured w); assumption. }
  assert (Hex1 : existing_pdf w1 user workId = Some (new_pdf req user workId filename w)).
  { unfold existing_pdf in *. rewrite Hrows1, find_snoc, Hex. simpl.
    now rewrite !String.eqb_refl. }
  destruct (upload_again_run req w1 user workId userEmail filename _ Hready1 Hex1)
    as [w2 [workId' (Hrun2 & Hrows2 & Hs2 & _)]].
  exists w1, w2, workId'. cbv zeta. split; [exact Hrun|]. split; [exact Hrun2|].
  split; [|split; [|exact Hs2]].
  - rewrite Hrows2, length_map, Hrows1, length_app. simpl. lia.
  - unfold identities. rewrite Hrows2. apply refreshed_identities.
Qed.

Lemma second_upload_reuses_the_document_witness :
  exists w1 w2 workId',
    upload upload_D1 (world_of configured_env (db_of [] []) [] []) =
      (Returned (send (StoredPdf "uuid-1" "W-D1" "revised.pdf" 0)), w1) /\
    upload upload_D1 w1 =
      (Returned (send (StoredPdf "uuid-1" workId' "revised.pdf" (now w1))), w2) /\
    length (t_uploadedPdfs (db w2)) = 1 /\
    identities w2 = identities w1 /\
    service w2 = service w1.
Proof.
  apply (second_upload_reuses_the_document upload_D1
           (world_of configured_env (db_of [] []) [] [])
           alice "W-D1" "alice@example.org" "revised.pdf").
  - repeat split.
  - reflexivity.
Defined.

(** ** The status map *)

Lemma fold_left_invariant {A B} (P : A -> Prop) (f : A -> B -> A) l :
  (forall a b, In b l -> P a -> P (f a b)) -> forall a, P a -> P (fold_left f l a).
Proof.
  induction l as [|b l IH]; intros H a Ha; simpl; [exact Ha|].
  apply IH.
  - intros a' b' Hb. apply H. now right.
  - apply H; [now left | exact Ha].
Qed.

Lemma split_on_nonempty sep s acc : split_on sep s acc <> [].
Proof.
  revert acc. induction s as [|c s IH]; intros acc; simpl; [discriminate|].
  destruct (Ascii.eqb c sep); [discriminate | apply IH].
Qed.

(** X14. The status map shows only what the caller may see: for a known
    user, every entry of the map sent by GET /api/pdfs is filed under one of
    the work identifiers the request lists, and describes a document of that
    work that the user owns (when the entry says [isOwner]) or has an Access
    Grant row for (when it does not). The handler changes nothing. *)
Theorem status_map_is_sound
    (req : StatusRequest) (w : World) (user : users.row) (workIds userEmail : string) :
  present (status_workIds req) = Some workIds ->
  present (status_email req) = Some userEmail ->
  List.find (fun u => String.eqb (users.email u) userEmail) (t_users (db w)) = Some user ->
  exists pdfMap,
    pdf_status req w = (Returned (ok (PdfMap pdfMap)), w) /\
    forall workId st,
      pdfMap !! workId = Some st ->
      In workId (split_on ","%char workIds "") /\
      status_sound w (users.id user) workId st.
Proof.
  intros Hw He Hu. unfold pdf_status. rewrite Hw, He.
  eexists. split.
  - apply try_catch_run. unfold findFirst, findMany, access_with_pdf.
    rewrite bind_gets, Hu, bind_gets, bind_gets. reflexivity.
  - set (ids := split_on ","%char workIds "").
    set (P := fun m : gmap string PdfStatus =>
                forall workId st, m !! workId = Some st ->
                  In workId ids /\ status_sound w (users.id user) workId st).
    change (P (fold_left (add_shared ids)
                 (arranged (row_rank w "pdf_access")
                    (map (fun a =>
                            (a, List.find (fun p => String.eqb (uploadedPdfs.id p)
                                                               (pdfAccess.pdfId a))
                                          (t_uploadedPdfs (db w))))
                         (List.filter
                            (fun a => String.eqb (pdfAccess.userId a) (users.id user))
                            (t_pdfAccess (db w)))))
                 (fold_left (add_owned ids)
                    (arranged (row_rank w "uploaded_pdfs")
                       (List.filter (fun p => String.eqb (uploadedPdfs.ownerId p)
                                                         (users.id user))
                                    (t_uploadedPdfs (db w)))) ∅))).
    apply fold_left_invariant; [|apply fold_left_invariant].
    + intros m [a opdf] Hin HP. apply arranged_In in Hin. unfold add_shared. simpl.
      destruct opdf as [pdf|]; [|exact HP].
      destruct (existsb _ ids) eqn:Eids; [|exact HP].
      intros workId st Hl.
      destruct (decide (uploadedPdfs.workId pdf = workId)) as [<-|Hne].
      * rewrite lookup_insert_eq in Hl. inversion Hl; subst st; clear Hl.
        split; [now apply existsb_eqb_in|].
        apply in_map_iff in Hin. destruct Hin as [a' [Ha' Hin]].
        inversion Ha' as [[Haa Hfind]]; subst a'.
        apply filter_In in Hin. destruct Hin as [Hin Huid].
        destruct (find_some _ _ Hfind) as [Hpin Hpid].
        apply String.eqb_eq in Hpid, Huid.
        exists pdf. simpl. repeat split; [exact Hpin|].
        unfold has_access. apply existsb_exists. exists a. split; [exact Hin|].
        rewrite Hpid, Huid, !String.eqb_refl. reflexivity.
      * rewrite lookup_insert_ne in Hl by exact Hne. now apply HP.
    + intros m pdf Hin HP. apply arranged_In in Hin. unfold add_owned.
      destruct (existsb _ ids) eqn:Eids; [|exact HP].
      intros workId st Hl.
      destruct (decide (uploadedPdfs.workId pdf = workId)) as [<-|Hne].
      * rewrite lookup_insert_eq in Hl. inversion Hl; subst st; clear Hl.
        split; [now apply existsb_eqb_in|].
        apply filter_In in Hin. destruct Hin as [Hin Hown].
        apply String.eqb_eq in Hown.
        exists pdf. simpl. repeat split; assumption.
      * rewrite lookup_insert_ne in Hl by exact Hne. now apply HP.
    + intros workId st Hl. rewrite lookup_empty in Hl. discriminate.
Qed.

Lemma status_map_is_sound_witness :
  exists pdfMap,
    pdf_status status_D1 (world_of ∅ db_shared [] []) =
      (Returned (ok (PdfMap pdfMap)), world_of ∅ db_shared [] []) /\
    forall workId st,
      pdfMap !! workId = Some st ->
      In workId ["W-D1"; "W-D9"] /\
      status_sound (world_of ∅ db_shared [] []) "u-bob" workId st.
Proof.
  apply (status_map_is_sound status_D1 (world_of ∅ db_shared [] []) bob
           "W-D1,W-D9" "bob@example.org"); reflexivity.
Defined.

(** ** The candidates of the suggestion flow *)

Lemma select_accessiblePdfs_sound uid d pdf :
  In pdf (select_accessiblePdfs uid d) ->
  In pdf (t_uploadedPdfs d) /\
  (uploadedPdfs.ownerId pdf = uid \/
   exists a, In a (t_pdfAccess d) /\ pdfAccess.pdfId a = uploadedPdfs.id pdf /\
             pdfAccess.userId a = uid).
Proof.
  unfold select_accessiblePdfs. rewrite in_flat_map.
  intros [p [Hp Hin]]. apply in_flat_map in Hin. destruct Hin as [oa [Hoa Hin]].
  destruct (String.eqb (uploadedPdfs.ownerId p) uid) eqn:Eo; simpl in Hin.
  + destruct Hin as [<-|[]]. split; [exact Hp|]. left. now apply String.eqb_eq.
  + destruct oa as [a|]; [|destruct Hin].
    destruct (String.eqb (pdfAccess.userId a) uid) eqn:Ea; [|destruct Hin].
    destruct Hin as [<-|[]]. split; [exact Hp|]. right.
    destruct (List.filter _ (t_pdfAccess d)) as [|g gs] eqn:Eg;
      [destruct Hoa as [Hx|[]]; discriminate|].
    apply in_map_iff in Hoa. destruct Hoa as [a' [Ha' Hin']].
    inversion Ha'; subst a'. rewrite <- Eg in Hin'. apply filter_In in Hin'.
    exists a. split; [tauto|]. split; apply String.eqb_eq; tauto.
Qed.

Lemma select_accessiblePdfs_complete uid d pdf :
  In pdf (t_uploadedPdfs d) /\
  (uploadedPdfs.ownerId pdf = uid \/
   exists a, In a (t_pdfAccess d) /\ pdfAccess.pdfId a = uploadedPdfs.id pdf /\
             pdfAccess.userId a = uid) ->
  In pdf (select_accessiblePdfs uid d).
Proof.
  unfold select_accessiblePdfs. rewrite in_flat_map.
  intros [Hp [Hown | [a (Ha & Hid & Hu)]]]; exists pdf; (split; [exact Hp|]);
    apply in_flat_map.
  + destruct (List.filter _ (t_pdfAccess d)) as [|g gs].
    * exists None. split; [now left|].
      rewrite (proj2 (String.eqb_eq _ _) Hown). now left.
    * exists (Some g). split; [now left|].
      rewrite (proj2 (String.eqb_eq _ _) Hown). now left.
  + assert (Hin : In a (List.filter
                          (fun a0 => String.eqb (pdfAccess.pdfId a0) (uploadedPdfs.id pdf))
                          (t_pdfAccess d)))
      by (apply filter_In; split; [exact Ha | now apply String.eqb_eq]).
    exists (Some a). split.
    * destruct (List.filter _ (t_pdfAccess d)) as [|g gs] eqn:Eg; [destruct Hin|].
      now apply in_map.
    * rewrite (proj2 (String.eqb_eq _ _) Hu), orb_true_r. now left.
Qed.

(** X15. The candidates are the documents the user may see by the tables:
    a document is among the rows the suggestion query selects for a user
    exactly when it is in the document table and the user owns it or an
    Access Grant row gives it to the user. *)
Theorem candidates_are_the_accessible_documents
    (uid : string) (d : Db) (pdf : uploadedPdfs.row) :
  In pdf (select_accessiblePdfs uid d) <->
  In pdf (t_uploadedPdfs d) /\
  (uploadedPdfs.ownerId pdf = uid \/
   exists a, In a (t_pdfAccess d) /\ pdfAccess.pdfId a = uploadedPdfs.id pdf /\
             pdfAccess.userId a = uid).
Proof.
  split; [apply select_accessiblePdfs_sound | apply select_accessiblePdfs_complete].
Qed.

(** ** What the ranking is given and what it returns *)

Lemma map_indexed_in {A B} (f : A -> nat -> Result B) l : forall i ys y,
  map_indexed f l i = Returned ys -> In y ys ->
  exists x j, In x l /\ f x j = Returned y.
Proof.
  induction l as [|x l IH]; intros i ys y H Hy; simpl in H.
  - inversion H; subst. destruct Hy.
  - destruct (f x i) as [y0|e] eqn:Ef; [|discriminate].
    destruct (map_indexed f l (S i)) as [ys0|e] eqn:Em; [|discriminate].
    inversion H; subst. destruct Hy as [<-|Hy].
    + exists x, i. split; [now left | exact Ef].
    + destruct (IH _ _ _ Em Hy) as [x' [j [Hin Hf]]]. exists x', j. split; [now right | exact Hf].
Qed.

Lemma in_firstn {A} n (l : list A) x : In x (firstn n l) -> In x l.
Proof.
  revert n. induction l as [|y l IH]; intros n H; destruct n; simpl in *; try tauto.
  destruct H as [H|H]; [now left | right; eauto].
Qed.

(** Every suggestion describes one of the documents given to the ranking. *)
Lemma rank_sound embeddings js query uid authorizedPdfs top :
  sort_rearranges js ->
  rank embeddings js query uid authorizedPdfs = Returned top ->
  forall s, In s top ->
    exists pdf, In pdf authorizedPdfs /\ s_id s = uploadedPdfs.id pdf /\
                s_workId s = uploadedPdfs.workId pdf /\
                isOwner s = String.eqb (uploadedPdfs.ownerId pdf) uid.
Proof.
  intros Hsort Hrank s Hs. unfold rank in Hrank.
  destruct (embedQuery embeddings query) as [q|]; [|discriminate].
  destruct (embedDocuments embeddings _) as [es|]; [|discriminate].
  destruct (map_indexed _ es 0) as [sims|] eqn:Esims; [|discriminate].
  destruct (map_indexed_in _ _ _ _ _ Hrank Hs) as [x [j [Hx Hto]]].
  apply filter_In in Hx. destruct Hx as [Hx _].
  apply in_firstn in Hx. apply Hsort in Hx.
  destruct (map_indexed_in _ _ _ _ _ Esims Hx) as [e [i [_ He]]].
  destruct (cosineSimilarity q e); [|discriminate]. inversion He; subst x.
  unfold to_suggestion in Hto. simpl in Hto.
  destruct (authorizedPdfs !! i) as [pdf|] eqn:El; [|discriminate].
  inversion Hto; subst s. exists pdf. simpl.
  split; [|repeat split]. apply list_elem_of_In. eapply list_elem_of_lookup_2. exact El.
Qed.

(** Every way a suggestion request of a known user can go. *)
Lemma suggest_run embeddings js req w user userEmail query :
  suggest_ready js req w user userEmail query ->
  exists w',
    suggest embeddings js req w =
      (Returned
         (match candidates w (users.id user) with
          | [] => send (NoSuggestions "No PDFs available to suggest")
          | cands =>
              if fga_configured w && negb (client_builds w)
              then send_code 500 (ErrorBody "Failed to generate suggestions")
              else
              match authorized w userEmail cands with
              | [] => send (NoSuggestions "No authorized PDFs available")
              | pdfs =>
                  match rank embeddings js query (users.id user) pdfs with
                  | Returned top => send (Suggestions top query (length pdfs))
                  | Threw _ => send_code 500 (ErrorBody "Failed to generate suggestions")
                  end
              end
          end), w').
Proof.
  intros (He & Hq & Ht & Hu).
  destruct (suggest_body_of _ _ Hq) as [body [Hb Hq']].
  unfold suggest. rewrite Hb, He, Hq', Ht.
  destruct (List.filter _ (t_users (db w))) as [|u us] eqn:Eu; [discriminate|].
  simpl in Hu. inversion Hu; subst u.
  unfold candidates.
  destruct (arranged (row_rank w "uploaded_pdfs") (select_accessiblePdfs (users.id user) (db w)))
    as [|c cs] eqn:Ec.
  - eexists. apply try_catch_run. rewrite bind_gets, Eu, bind_gets, Ec. reflexivity.
  - destruct (fga_configured w && negb (client_builds w)) eqn:Eb.
    + apply andb_true_iff in Eb. destruct Eb as [Hconf Hb0].
      apply negb_true_iff in Hb0.
      destruct (client_unbuilt_error w Hb0) as [e Hce].
      eexists. erewrite try_catch_threw; [reflexivity|].
      rewrite bind_gets, Eu, bind_gets, Ec. cbn [length Nat.eqb].
      threw_with (authorize_unbuilt userEmail (c :: cs) w e Hconf Hce). reflexivity.
    + assert (Hbuilt : fga_configured w = true -> client_builds w = true).
      { intros Hconf. rewrite Hconf in Eb. simpl in Eb. now apply negb_false_iff in Eb. }
      destruct (authorize_run userEmail (c :: cs) w Hbuilt) as [w1 (Hrun & _)].
      destruct (authorized w userEmail (c :: cs)) as [|p ps] eqn:Ea.
      * exists w1. apply try_catch_run. rewrite bind_gets, Eu, bind_gets, Ec.
        cbn [length Nat.eqb]. run_with Hrun. reflexivity.
      * destruct (rank embeddings js query (users.id user) (p :: ps)) as [top|e] eqn:Er.
        -- exists w1. apply try_catch_run. rewrite bind_gets, Eu, bind_gets, Ec.
           cbn [length Nat.eqb]. run_with Hrun. cbn [length Nat.eqb].
           unfold lift, bind. rewrite Er. reflexivity.
        -- eexists. erewrite try_catch_threw; [reflexivity|].
           rewrite bind_gets, Eu, bind_gets, Ec.
           cbn [length Nat.eqb]. run_with Hrun. cbn [length Nat.eqb].
           unfold lift, bind. rewrite Er. reflexivity.
Qed.

(** X16. Only authorized documents are suggested. With an engine whose sort
    returns elements of its input, every suggestion sent to a known user
    describes a document that is in the document table, that the user owns
    or has an Access Grant row for, and, when the authorization service is
    configured, for which the graph holds the user's viewer tuple. *)
Theorem suggestions_are_authorized
    (embeddings : Embeddings) (js : Builtins) (req : SuggestRequest) (w w' : World)
    (user : users.row) (userEmail query q : string) (top : list Suggestion)
    (total : nat) :
  sort_rearranges js ->
  suggest_ready js req w user userEmail query ->
  suggest embeddings js req w = (Returned (send (Suggestions top q total)), w') ->
  forall s, In s top ->
    exists pdf,
      s_id s = uploadedPdfs.id pdf /\
      In pdf (t_uploadedPdfs (db w)) /\
      (uploadedPdfs.ownerId pdf = users.id user \/
       has_access w (uploadedPdfs.id pdf) (users.id user) = true) /\
      (fga_configured w = true -> check w userEmail viewer (uploadedPdfs.id pdf) = true).
Proof.
  intros Hsort Hready Hrun s Hs.
  destruct (suggest_run embeddings js req w user userEmail query Hready) as [w1 H].
  rewrite H in Hrun.
  destruct (candidates w (users.id user)) as [|c cs] eqn:Ec; [discriminate|].
  destruct (fga_configured w && negb (client_builds w)); [discriminate|].
  destruct (authorized w userEmail (c :: cs)) as [|p ps] eqn:Ea; [discriminate|].
  cbv zeta in Hrun.
  destruct (rank embeddings js query (users.id user) (p :: ps)) as [top'|e] eqn:Er;
    [|inversion Hrun].
  inversion Hrun; subst.
  destruct (rank_sound _ _ _ _ _ _ Hsort Er s Hs) as [pdf (Hin & Hid & _)].
  exists pdf. split; [exact Hid|].
  rewrite <- Ea in Hin. unfold authorized in Hin. apply filter_In in Hin.
  destruct Hin as [Hin Hok]. rewrite <- Ec in Hin.
  apply arranged_In, select_accessiblePdfs_sound in Hin.
  destruct Hin as [Hpdf Hrel]. split; [exact Hpdf|]. split.
  - destruct Hrel as [Hown | [a (Ha & Hpid & Huid)]]; [now left|]. right.
    unfold has_access. apply existsb_exists. exists a. split; [exact Ha|].
    rewrite Hpid, Huid, !String.eqb_refl. reflexivity.
  - intros Hconf. rewrite Hconf in Hok. apply andb_true_iff in Hok. tauto.
Qed.

Lemma suggestions_are_authorized_witness :
  Forall
    (fun s =>
       exists pdf,
         s_id s = uploadedPdfs.id pdf /\
         In pdf [paper "D1"; paper "D2"; paper "D3"] /\
         (uploadedPdfs.ownerId pdf = "u-alice" \/
          has_access three_papers (uploadedPdfs.id pdf) "u-alice" = true) /\
         (fga_configured three_papers = true ->
          check three_papers "alice@example.org" viewer (uploadedPdfs.id pdf) = true))
    (match fst (suggest flat_embeddings plain_js suggest_req three_papers) with
     | Returned {| body := Suggestions top _ _ |} => top
     | _ => []
     end).
Proof.
  apply Forall_forall. intros s Hs. apply list_elem_of_In in Hs. revert s Hs.
  apply (suggestions_are_authorized flat_embeddings plain_js suggest_req three_papers
           (snd (suggest flat_embeddings plain_js suggest_req three_papers))
           alice "alice@example.org" "access control" "access control" _ 2).
  - intros A cmp l x H. exact H.
  - repeat split.
  - vm_compute. reflexivity.
Defined.

(** ** Retrieval: [pdf-rag.ts] *)

#[local] Instance only_logged_preorder : PreOrder only_logged.
Proof.
  split.
  - intros w. repeat split.
  - intros a b c (H1 & H2 & H3 & H4 & H5 & H6) (H1' & H2' & H3' & H4' & H5' & H6').
    repeat split; congruence.
Qed.

Lemma loadPDF_same_world gti filePath w : snd (loadPDF gti filePath w) = w.
Proof.
  unfold loadPDF. destruct (existsb _ (disk w)); [|reflexivity].
  destruct (gti filePath); reflexivity.
Qed.

Lemma loadPDF_only_logs gti filePath : keeps only_logged (loadPDF gti filePath).
Proof. intros w. rewrite loadPDF_same_world. reflexivity. Qed.

Ltac only_logs :=
  repeat first
    [ keeps_step
    | apply loadPDF_only_logs
    | apply keeps_modify; intros ?; repeat split ].

(** X17. The retrieval handlers read and never write: the list, load and
    query handlers of [pdf-rag.ts] leave the environment, every table, the
    disk, the authorization service and the record of calls to it as they
    were, for every request, every map of loaded stores and every behaviour
    of the PDF reader and the vector store. In particular load decides on
    the tables alone and sends the authorization service nothing. *)
Theorem retrieval_handlers_only_read :
  (forall email, keeps only_logged (rag_list email)) /\
  (forall VectorStore getTextItems fromDocuments vectorStores req,
      keeps only_logged
        (rag_load VectorStore getTextItems fromDocuments vectorStores req)) /\
  (forall VectorStore similaritySearch vectorStores req,
      keeps only_logged (rag_query VectorStore similaritySearch vectorStores req)).
Proof.
  split; [|split].
  - intros email. unfold rag_list. only_logs.
  - intros VS gti fd vs req. unfold rag_load. only_logs.
  - intros VS ss vs req. unfold rag_query. only_logs.
Qed.

Lemma with_console_same w : with_console (console w ++ []) w = w.
Proof. destruct w. unfold with_console. simpl. now rewrite app_nil_r. Qed.

Lemma rag_body_of req pdfId :
  present (rag_pdfId req) = Some pdfId ->
  exists body, rag_body req = Some body /\ present (body_pdfId body) = Some pdfId.
Proof.
  unfold rag_pdfId. destruct (rag_body req) as [body|]; [eauto | discriminate].
Qed.

(** Every way the load handler ends. *)
Lemma rag_load_cases VS gti fd vs req w :
  (exists e, rag_load VS gti fd vs req w = (Threw e, w)) \/
  exists resp vs' logs,
    rag_load VS gti fd vs req w
      = (Returned (resp, vs'), with_console (console w ++ logs) w) /\
    ((vs' = vs /\ status resp <> 200) \/
     exists pdfId userEmail pdf,
       present (rag_pdfId req) = Some pdfId /\
       present (rag_email req) = Some userEmail /\
       List.find (fun p => String.eqb (uploadedPdfs.id p) pdfId) (t_uploadedPdfs (db w))
         = Some pdf /\
       may_read w userEmail pdfId /\
       ((Map_has vs pdfId = true /\ vs' = vs /\
         resp = ok (AlreadyLoaded pdfId (uploadedPdfs.workTitle pdf))) \/
        (Map_has vs pdfId = false /\
         exists docs store,
           loadPDF gti (uploadedPdfs.fileName pdf) w = (Returned docs, w) /\
           fd docs = Returned store /\
           vs' = Map_set vs pdfId store /\
           resp = ok (Loaded pdfId (uploadedPdfs.workTitle pdf) (length docs))))).
Proof.
  unfold rag_load, rag_pdfId.
  destruct (rag_body req) as [body|]; [right | left; eexists; reflexivity].
  destruct (present (body_pdfId body)) as [pdfId|] eqn:Ep;
    [|eexists _, _, []; rewrite with_console_same; split;
      [reflexivity | left; split; [reflexivity | discriminate]]].
  destruct (present (rag_email req)) as [userEmail|] eqn:Ee;
    [|eexists _, _, []; rewrite with_console_same; split;
      [reflexivity | left; split; [reflexivity | discriminate]]].
  unfold try_catch, findFirst. rewrite bind_gets.
  destruct (List.find _ (t_users (db w))) as [user|] eqn:Eu;
    [|eexists _, _, []; rewrite with_console_same; split;
      [reflexivity | left; split; [reflexivity | discriminate]]].
  rewrite bind_gets.
  destruct (List.find _ (t_uploadedPdfs (db w))) as [pdf|] eqn:Epdf;
    [|eexists _, _, []; rewrite with_console_same; split;
      [reflexivity | left; split; [reflexivity | discriminate]]].
  rewrite bind_gets.
  assert (Hread : negb (String.eqb (uploadedPdfs.ownerId pdf) (users.id user))
                  && negb (match List.find
                                   (fun a => String.eqb (pdfAccess.pdfId a) pdfId
                                             && String.eqb (pdfAccess.userId a) (users.id user))
                                   (t_pdfAccess (db w))
                           with Some _ => true | None => false end) = false ->
                  may_read w userEmail pdfId).
  { intros H. exists user, pdf. split; [exact Eu|]. split; [exact Epdf|].
    apply andb_false_iff in H. destruct H as [H|H]; apply negb_false_iff in H.
    - left. now apply String.eqb_eq.
    - right. unfold has_access.
      destruct (List.find _ (t_pdfAccess (db w))) as [a|] eqn:Ea; [|discriminate].
      apply find_some in Ea. apply existsb_exists. exists a. exact Ea. }
  destruct (negb _ && negb _);
    [eexists _, _, []; rewrite with_console_same; split;
      [reflexivity | left; split; [reflexivity | discriminate]]|].
  specialize (Hread eq_refl).
  destruct (Map_has vs pdfId) eqn:Eh.
  { eexists _, _, []. rewrite with_console_same. split; [reflexivity|].
    right. exists pdfId, userEmail, pdf. repeat split; try assumption.
    left. split; [exact Eh | split; reflexivity]. }
  pose proof (loadPDF_same_world gti (uploadedPdfs.fileName pdf) w) as Hw.
  unfold bind at 1.
  destruct (loadPDF gti (uploadedPdfs.fileName pdf) w) as [[docs|e] w1] eqn:El;
    simpl in Hw; subst w1.
  - unfold bind, lift. destruct (fd docs) as [store|e] eqn:Ef.
    + eexists _, _, []. rewrite with_console_same. split; [reflexivity|].
      right. exists pdfId, userEmail, pdf. repeat split; try assumption.
      right. split; [exact Eh|]. exists docs, store.
      split; [exact El | split; [exact Ef | split; reflexivity]].
    + eexists _, _, [_]. split; [reflexivity|].
      left. split; [reflexivity | discriminate].
  - eexists _, _, [_]. split; [reflexivity|].
    left. split; [reflexivity | discriminate].
Qed.

(** The [Map] of loaded stores. *)
Lemma Map_get_none {V} (m : list (string * V)) k : Map_has m k = false -> Map_get m k = None.
Proof.
  unfold Map_has, Map_get. intros H.
  destruct (List.find _ m) as [e|] eqn:E; [|reflexivity].
  apply find_some in E. assert (existsb (fun e => String.eqb (fst e) k) m = true)
    by (apply existsb_exists; eauto).
  congruence.
Qed.

Lemma Map_get_some {V} (m : list (string * V)) k :
  Map_has m k = true -> exists v, Map_get m k = Some v.
Proof.
  unfold Map_has, Map_get. intros H.
  destruct (List.find _ m) as [e|] eqn:E; [eauto|].
  apply existsb_exists in H. destruct H as [e [He Hk]].
  pose proof (find_none _ _ E e He). simpl in *. congruence.
Qed.

Lemma Map_get_added {V} (m : list (string * V)) k v k' :
  Map_has m k = false ->
  Map_get (Map_set m k v) k' = if String.eqb k k' then Some v else Map_get m k'.
Proof.
  intros H. unfold Map_set. rewrite H. unfold Map_get.
  induction m as [|[a b] m IH]; simpl.
  - destruct (String.eqb k k'); reflexivity.
  - simpl in H. apply orb_false_iff in H. destruct H as [Ha Hm].
    destruct (String.eqb a k') eqn:E.
    + apply String.eqb_eq in E. subst a. simpl.
      destruct (String.eqb k k') eqn:E'; [|reflexivity].
      apply String.eqb_eq in E'. subst k'. rewrite String.eqb_refl in Ha. discriminate.
    + apply IH, Hm.
Qed.

Lemma Map_get_deleted {V} (m : list (string * V)) k k' :
  Map_get (Map_delete m k) k' = if String.eqb k k' then None else Map_get m k'.
Proof.
  unfold Map_get, Map_delete. induction m as [|[a b] m IH]; simpl.
  - destruct (String.eqb k k'); reflexivity.
  - destruct (String.eqb a k) eqn:E; simpl.
    + apply String.eqb_eq in E. subst a. rewrite IH.
      destruct (String.eqb k k'); reflexivity.
    + destruct (String.eqb a k') eqn:E'; [|exact IH].
      apply String.eqb_eq in E'. subst a. rewrite String.eqb_sym, E. reflexivity.
Qed.

(** X18. A store enters the map only for a document the caller may read.
    If a load changes what the map holds under some identifier, that
    identifier is the one the request names, nothing was loaded under it
    before, and the caller is a known user who owns that document or has an
    Access Grant row for it. Stores that are there are never replaced. *)
Theorem load_stores_only_what_the_caller_may_read
    (VectorStore : Type) getTextItems fromDocuments
    (vectorStores vectorStores' : list (string * VectorStore))
    (req : RagLoadRequest) (w w' : World) (reply : Response) (k : string) :
  rag_load VectorStore getTextItems fromDocuments vectorStores req w
    = (Returned (reply, vectorStores'), w') ->
  Map_get vectorStores' k <> Map_get vectorStores k ->
  present (rag_pdfId req) = Some k /\
  Map_get vectorStores k = None /\
  exists userEmail, present (rag_email req) = Some userEmail /\ may_read w userEmail k.
Proof.
  intros Hrun Hk.
  destruct (rag_load_cases VectorStore getTextItems fromDocuments vectorStores req w)
    as [[e H] | (resp & vs' & logs & H & Hcases)];
    [rewrite H in Hrun; discriminate|].
  rewrite H in Hrun. inversion Hrun; subst; clear Hrun.
  destruct Hcases as [[-> _] | (pdfId & userEmail & pdf & Hp & He & _ & Hread & Hcases)];
    [contradiction|].
  destruct Hcases as [(_ & -> & _) | (Hhas & docs & store & _ & _ & -> & _)];
    [contradiction|].
  rewrite (Map_get_added _ _ _ _ Hhas) in Hk.
  destruct (String.eqb pdfId k) eqn:E; [|contradiction].
  apply String.eqb_eq in E. subst k.
  split; [exact Hp|]. split; [now apply Map_get_none|]. exists userEmail. now split.
Qed.

Lemma load_stores_only_what_the_caller_may_read_witness :
  present (rag_pdfId load_D1_bob) = Some "D1" /\
  Map_get (@nil (string * list Document)) "D1" = None /\
  exists userEmail,
    present (rag_email load_D1_bob) = Some userEmail /\
    may_read library_world userEmail "D1".
Proof.
  eapply (load_stores_only_what_the_caller_may_read (list Document) two_pages
            keep_documents [] _ load_D1_bob library_world).
  - reflexivity.
  - vm_compute. discriminate.
Defined.

(** X19. Unload forgets that store and no other: after an unload nothing is
    held under the identifier, every other identifier holds what it held,
    and the reply is 200 exactly when a store was held (404 otherwise). The
    handler asks nothing about the caller or the document. *)
Theorem unload_forgets_that_store_only
    (VectorStore : Type) (vectorStores : list (string * VectorStore)) (pdfId : string) :
  Map_get (snd (rag_unload VectorStore vectorStores pdfId)) pdfId = None /\
  (forall k, k <> pdfId ->
             Map_get (snd (rag_unload VectorStore vectorStores pdfId)) k
             = Map_get vectorStores k) /\
  (status (fst (rag_unload VectorStore vectorStores pdfId)) = 200
   <-> Map_has vectorStores pdfId = true) /\
  (status (fst (rag_unload VectorStore vectorStores pdfId)) = 404
   <-> Map_has vectorStores pdfId = false).
Proof.
  unfold rag_unload. destruct (Map_has vectorStores pdfId) eqn:Eh; simpl.
  - rewrite Map_get_deleted, String.eqb_refl. split; [reflexivity|]. split.
    + intros k Hk. rewrite Map_get_deleted.
      destruct (String.eqb pdfId k) eqn:E; [|reflexivity].
      apply String.eqb_eq in E. congruence.
    + split; split; intros; congruence.
  - split; [now apply Map_get_none|]. split; [reflexivity|].
    split; split; intros; congruence.
Qed.

Lemma Map_has_added {V} (m : list (string * V)) k v :
  Map_has m k = false -> Map_has (Map_set m k v) k = true.
Proof.
  intros H. unfold Map_set. rewrite H. unfold Map_has.
  rewrite existsb_app. simpl. now rewrite String.eqb_refl, orb_true_r.
Qed.

(** What a load that answers 200 leaves behind. *)
Lemma rag_load_done VS gti fd vs vs' req w w' reply :
  rag_load VS gti fd vs req w = (Returned (reply, vs'), w') ->
  status reply = 200 ->
  exists pdfId userEmail pdf logs,
    present (rag_pdfId req) = Some pdfId /\
    present (rag_email req) = Some userEmail /\
    List.find (fun p => String.eqb (uploadedPdfs.id p) pdfId) (t_uploadedPdfs (db w))
      = Some pdf /\
    may_read w userEmail pdfId /\
    Map_has vs' pdfId = true /\
    w' = with_console (console w ++ logs) w.
Proof.
  intros Hrun Hok.
  destruct (rag_load_cases VS gti fd vs req w)
    as [[e H] | (resp & vs1 & logs & H & Hcases)];
    [rewrite H in Hrun; discriminate|].
  rewrite H in Hrun. inversion Hrun; subst; clear Hrun.
  destruct Hcases as [[_ Hno] | (pdfId & userEmail & pdf & Hp & He & Hpdf & Hread & Hcases)];
    [contradiction|].
  exists pdfId, userEmail, pdf, logs. repeat split; try assumption.
  destruct Hcases as [(Hhas & -> & _) | (Hhas & docs & store & _ & _ & -> & _)];
    [exact Hhas | now apply Map_has_added].
Qed.

(** X20. The query handler does not ask who is calling. Once a load has
    answered 200 for a document, a query for that document by any caller
    with an e-mail in the token, in any state of the tables, even with no
    user row for the caller, is answered from the store: with the
    results of the search, or 500 if the search throws; never 401, 403 or
    404. *)
Theorem a_loaded_document_answers_any_caller
    (VectorStore : Type) getTextItems fromDocuments similaritySearch
    (vectorStores vectorStores' : list (string * VectorStore))
    (req : RagLoadRequest) (w w' : World) (reply : Response)
    (q : RagQueryRequest) (query : string) (w2 : World) :
  rag_load VectorStore getTextItems fromDocuments vectorStores req w
    = (Returned (reply, vectorStores'), w') ->
  status reply = 200 ->
  present (query_pdfId q) = present (rag_pdfId req) ->
  present (query_text q) = Some query ->
  present (query_email q) <> None ->
  exists pdfId store,
    present (rag_pdfId req) = Some pdfId /\
    Map_get vectorStores' pdfId = Some store /\
    fst (rag_query VectorStore similaritySearch vectorStores' q w2)
      = Returned (searched similaritySearch store query (query_k q)).
Proof.
  intros Hrun Hok Hid Hq He.
  destruct (rag_load_done _ _ _ _ _ _ _ _ _ Hrun Hok)
    as (pdfId & _ & _ & _ & Hp & _ & _ & _ & Hhas & _).
  destruct (Map_get_some _ _ Hhas) as [store Hstore].
  exists pdfId, store. split; [exact Hp|]. split; [exact Hstore|].
  unfold rag_query. unfold query_pdfId, query_text, query_k in *.
  destruct (query_body q) as [body|]; [|discriminate Hq].
  rewrite Hid, Hp, Hq.
  destruct (present (query_email q)) as [userEmail|]; [|contradiction].
  unfold try_catch. rewrite Hstore. unfold bind, lift, searched.
  destruct (similaritySearch store query _) as [results|[message]]; reflexivity.
Qed.

Lemma a_loaded_document_answers_any_caller_witness :
  exists pdfId store,
    present (rag_pdfId load_D1_bob) = Some pdfId /\
    Map_get (snd (match fst (rag_load (list Document) two_pages keep_documents []
                                      load_D1_bob library_world) with
                  | Returned r => r
                  | Threw _ => (respond 500 (Text ""), [])
                  end)) pdfId = Some store /\
    fst (rag_query (list Document) first_hit
           (snd (match fst (rag_load (list Document) two_pages keep_documents []
                                     load_D1_bob library_world) with
                 | Returned r => r
                 | Threw _ => (respond 500 (Text ""), [])
                 end))
           query_D1_carol nowhere)
      = Returned (searched first_hit store "who may read" (query_k query_D1_carol)).
Proof.
  eapply (a_loaded_document_answers_any_caller (list Document) two_pages keep_documents
            first_hit [] _ load_D1_bob library_world _ _ query_D1_carol
            "who may read" nowhere).
  - reflexivity.
  - reflexivity.
  - reflexivity.
  - reflexivity.
  - discriminate.
Defined.

(** X21. Loading twice. After a load that answered 200, the same request
    sent again is answered "already loaded": the file is not read again, no
    store is built, and the map of stores is left as it is. *)
Theorem second_load_is_a_no_op
    (VectorStore : Type) getTextItems fromDocuments
    (vectorStores vectorStores' : list (string * VectorStore))
    (req : RagLoadRequest) (w w' : World) (reply : Response) :
  rag_load VectorStore getTextItems fromDocuments vectorStores req w
    = (Returned (reply, vectorStores'), w') ->
  status reply = 200 ->
  exists pdfId workTitle,
    present (rag_pdfId req) = Some pdfId /\
    rag_load VectorStore getTextItems fromDocuments vectorStores' req w'
      = (Returned (ok (AlreadyLoaded pdfId workTitle), vectorStores'), w').
Proof.
  intros Hrun Hok.
  destruct (rag_load_done _ _ _ _ _ _ _ _ _ Hrun Hok)
    as (pdfId & userEmail & pdf & logs & Hp & He & Hpdf & Hread & Hhas & ->).
  exists pdfId, (uploadedPdfs.workTitle pdf). split; [exact Hp|].
  destruct Hread as (user & pdf' & Hu & Hpdf' & Hmay).
  rewrite Hpdf in Hpdf'. inversion Hpdf'; subst pdf'; clear Hpdf'.
  destruct (rag_body_of _ _ Hp) as [body [Hb Hp']].
  unfold rag_load. rewrite Hb, Hp', He. unfold try_catch, findFirst.
  rewrite bind_gets. cbn [db with_console]. rewrite Hu.
  rewrite bind_gets. cbn [db with_console]. rewrite Hpdf.
  rewrite bind_gets. cbn [db with_console].
  assert (Hgo : negb (String.eqb (uploadedPdfs.ownerId pdf) (users.id user))
                && negb (match List.find
                                 (fun a => String.eqb (pdfAccess.pdfId a) pdfId
                                           && String.eqb (pdfAccess.userId a) (users.id user))
                                 (t_pdfAccess (db w))
                         with Some _ => true | None => false end) = false).
  { destruct Hmay as [Hown | Hacc].
    - rewrite Hown, String.eqb_refl. reflexivity.
    - unfold has_access in Hacc. rewrite find_existsb in Hacc. rewrite Hacc.
      apply andb_false_r. }
  rewrite Hgo, Hhas. reflexivity.
Qed.

Lemma second_load_is_a_no_op_witness :
  exists pdfId workTitle,
    present (rag_pdfId load_D1_bob) = Some pdfId /\
    rag_load (list Document) two_pages keep_documents
      (snd (match fst (rag_load (list Document) two_pages keep_documents []
                                load_D1_bob library_world) with
            | Returned r => r
            | Threw _ => (respond 500 (Text ""), [])
            end))
      load_D1_bob library_world
    = (Returned (ok (AlreadyLoaded pdfId workTitle),
                 snd (match fst (rag_load (list Document) two_pages keep_documents []
                                          load_D1_bob library_world) with
                      | Returned r => r
                      | Threw _ => (respond 500 (Text ""), [])
                      end)),
       library_world).
Proof.
  eapply (second_load_is_a_no_op (list Document) two_pages keep_documents [] _
            load_D1_bob library_world library_world).
  - reflexivity.
  - reflexivity.
Defined.

Lemma pages_from_spec filePath total pages : forall i n d,
  pages_from i total filePath pages !! n = Some d ->
  page d = i + n /\ totalPages d = total /\ source d = filePath /\
  exists items, pages !! n = Some items /\ pageContent d = String.concat " " items.
Proof.
  induction pages as [|items pages IH]; intros i n d H; [discriminate|].
  destruct n as [|n]; simpl in H.
  - inversion H; subst; clear H. simpl. repeat split; [lia|]. exists items. now split.
  - destruct (IH _ _ _ H) as (Hp & Ht & Hs & Hc).
    repeat split; [lia | exact Ht | exact Hs | exact Hc].
Qed.

Lemma pages_from_length filePath total pages : forall i,
  length (pages_from i total filePath pages) = length pages.
Proof. induction pages as [|items pages IH]; intros i; simpl; [reflexivity | now rewrite IH]. Qed.

(** X22. [loadPDF] makes one document per page, in page order. When it
    returns, the file is on the disk, the world is as it was, there are as
    many documents as the file has pages, and the document at index [n]
    carries page number [n + 1], the number of pages as [totalPages], the
    path as [source], and the text items of that page joined by single
    spaces. *)
Theorem loadPDF_makes_one_document_per_page
    (getTextItems : string -> Result (list (list string))) (filePath : string)
    (w w' : World) (docs : list Document) :
  loadPDF getTextItems filePath w = (Returned docs, w') ->
  w' = w /\
  existsb (String.eqb filePath) (disk w) = true /\
  exists pages,
    getTextItems filePath = Returned pages /\
    length docs = length pages /\
    forall n d, docs !! n = Some d ->
      page d = n + 1 /\ totalPages d = length docs /\ source d = filePath /\
      exists items, pages !! n = Some items /\
                    pageContent d = String.concat " " items.
Proof.
  unfold loadPDF. intros H.
  destruct (existsb _ (disk w)); [|discriminate].
  destruct (getTextItems filePath) as [pages|e]; [|discriminate].
  inversion H; subst; clear H. split; [reflexivity|]. split; [reflexivity|].
  exists pages. split; [reflexivity|]. rewrite pages_from_length.
  split; [reflexivity|]. intros n d Hd.
  destruct (pages_from_spec _ _ _ _ _ _ Hd) as (Hp & Ht & Hs & Hc).
  repeat split; [lia | exact Ht | exact Hs | exact Hc].
Qed.

Lemma loadPDF_makes_one_document_per_page_witness :
  library_world = library_world /\
  existsb (String.eqb "D1.pdf") (disk library_world) = true /\
  exists pages,
    two_pages "D1.pdf" = Returned pages /\
    length (pages_from 1 2 "D1.pdf" [["Access"; "control"]; ["by"; "relationship"]])
      = length pages /\
    forall n d,
      pages_from 1 2 "D1.pdf" [["Access"; "control"]; ["by"; "relationship"]] !! n
        = Some d ->
      page d = n + 1 /\
      totalPages d
        = length (pages_from 1 2 "D1.pdf" [["Access"; "control"]; ["by"; "relationship"]]) /\
      source d = "D1.pdf" /\
      exists items, pages !! n = Some items /\
                    pageContent d = String.concat " " items.
Proof.
  apply (loadPDF_makes_one_document_per_page two_pages "D1.pdf" library_world
           library_world).
  reflexivity.
Defined.

(** ** The helpers of [fga.ts] against the service *)

Lemma relation_eqb_eq a b : relation_eqb a b = true <-> a = b.
Proof. destruct a, b; simpl; split; intros H; congruence. Qed.

Lemma tuple_eqb_eq a b : tuple_eqb a b = true <-> a = b.
Proof.
  unfold tuple_eqb. destruct a as [ua ra oa], b as [ub rb ob]; simpl. split.
  - intros H. apply andb_true_iff in H. destruct H as [H Ho].
    apply andb_true_iff in H. destruct H as [Hu Hr].
    apply String.eqb_eq in Hu, Ho. apply relation_eqb_eq in Hr. congruence.
  - intros H. inversion H; subst. rewrite !String.eqb_refl.
    now destruct rb.
Qed.

Lemma tuple_eqb_neq a b : a <> b -> tuple_eqb a b = false.
Proof.
  intros H. destruct (tuple_eqb a b) eqn:E; [|reflexivity].
  apply tuple_eqb_eq in E. contradiction.
Qed.

Lemma holds_app t l l' : holds t (l ++ l') = holds t l || holds t l'.
Proof. apply existsb_app. Qed.

Lemma holds_removed t t0 ts :
  holds t (remove_tuples [t0] ts) = if tuple_eqb t t0 then false else holds t ts.
Proof.
  unfold holds, remove_tuples.
  rewrite (filter_ext _ (fun x => negb (tuple_eqb x t0)))
    by (intros x; simpl; now rewrite orb_false_r).
  induction ts as [|x ts IH]; simpl.
  - destruct (tuple_eqb t t0); reflexivity.
  - destruct (tuple_eqb x t0) eqn:Ex; simpl.
    + rewrite IH. apply tuple_eqb_eq in Ex. subst x.
      destruct (tuple_eqb t t0); reflexivity.
    + rewrite IH. destruct (tuple_eqb t t0) eqn:Et; [|reflexivity].
      apply tuple_eqb_eq in Et. subst t0. rewrite tuple_eqb_neq; [reflexivity|].
      intros ->. rewrite tuple_eqb_refl in Ex. discriminate.
Qed.

Lemma canUserViewDocument_answered userEmail documentId w :
  client_builds w = true ->
  rejected (outcome_at w 0) = false ->
  fst (canUserViewDocument userEmail documentId w)
    = Returned (holds (viewer_of userEmail documentId) (tuples (service w))).
Proof.
  intros Hb. unfold canUserViewDocument.
  rewrite (bind_run _ _ _ _ _ (getFGAClient_built w Hb)).
  unfold try_catch, bind at 1.
  rewrite Client_check_run. rewrite outcome_at_0.
  unfold viewer_of.
  destruct (outcomes (service w)) as [|o outs]; simpl.
  - intros _. destruct (holds _ (tuples (service w))); reflexivity.
  - destruct o; simpl; intros H; try discriminate;
      destruct (holds _ (tuples (service w))); reflexivity.
Qed.

Lemma grant_then_check userEmail documentId r w :
  client_builds w = true ->
  rejected (outcome_at w 0) = false ->
  rejected (outcome_at w 1) = false ->
  exists w1,
    grantDocumentAccess userEmail documentId r w = (Returned tt, w1) /\
    fst (canUserViewDocument userEmail documentId w1)
      = Returned (holds (viewer_of userEmail documentId)
                        (tuples (service w) ++ [tuple_of userEmail r documentId])).
Proof.
  intros Hb H0 H1.
  destruct (grantDocumentAccess_run userEmail documentId r w Hb) as [logs H].
  assert (Hw : grantDocumentAccess userEmail documentId r w
               = (Returned tt,
                  after_service [tuple_of userEmail r documentId]
                                [Write [tuple_of userEmail r documentId] []] logs w)).
  { rewrite H. destruct (outcome_at w 0); [reflexivity | reflexivity | discriminate]. }
  eexists. split; [exact Hw|].
  rewrite canUserViewDocument_answered.
  - reflexivity.
  - rewrite client_builds_after_service. exact Hb.
  - rewrite outcome_at_after_service. exact H1.
Qed.

(** X23. Grant, then check. With a configuration from which the client can
    be built, if the service takes the write, granting [viewer] on a
    document makes [canUserViewDocument] answer [true] for that user and
    document as soon as the service answers the check. Granting [owner]
    does not: after an owner grant the check answers what it would have
    answered before, since it asks for [viewer] alone. *)
Theorem a_grant_is_seen_by_the_check_only_for_viewer
    (userEmail documentId : string) (w : World) :
  client_builds w = true ->
  rejected (outcome_at w 0) = false ->
  rejected (outcome_at w 1) = false ->
  (exists w1,
      grantDocumentAccess userEmail documentId viewer w = (Returned tt, w1) /\
      fst (canUserViewDocument userEmail documentId w1) = Returned true) /\
  (exists w1,
      grantDocumentAccess userEmail documentId owner w = (Returned tt, w1) /\
      fst (canUserViewDocument userEmail documentId w1)
        = Returned (check w userEmail viewer documentId)).
Proof.
  intros Hb H0 H1. split.
  - destruct (grant_then_check userEmail documentId viewer w Hb H0 H1) as [w1 [Hg Hc]].
    exists w1. split; [exact Hg|]. rewrite Hc, holds_app.
    rewrite (holds_in _ [_]) by (left; reflexivity). now rewrite orb_true_r.
  - destruct (grant_then_check userEmail documentId owner w Hb H0 H1) as [w1 [Hg Hc]].
    exists w1. split; [exact Hg|]. rewrite Hc, holds_app.
    unfold holds at 2. cbn [existsb]. rewrite tuple_eqb_neq by discriminate.
    now rewrite !orb_false_r.
Qed.

Lemma a_grant_is_seen_by_the_check_only_for_viewer_witness :
  (exists w1,
      grantDocumentAccess "bob@example.org" "D1" viewer (world_of configured_env empty_db [] [])
        = (Returned tt, w1) /\
      fst (canUserViewDocument "bob@example.org" "D1" w1) = Returned true) /\
  (exists w1,
      grantDocumentAccess "bob@example.org" "D1" owner (world_of configured_env empty_db [] [])
        = (Returned tt, w1) /\
      fst (canUserViewDocument "bob@example.org" "D1" w1)
        = Returned (check (world_of configured_env empty_db [] []) "bob@example.org"
                          viewer "D1")).
Proof.
  apply (a_grant_is_seen_by_the_check_only_for_viewer "bob@example.org" "D1"
           (world_of configured_env empty_db [] [])).
  - reflexivity.
  - reflexivity.
  - reflexivity.
Defined.

(** X24. Revoke removes that tuple and no other, and is not guarded. When
    the client cannot be built, [revokeDocumentAccess] throws what the
    constructor threw and nothing is sent. Otherwise, when the service
    takes the call, the revoked tuple is no longer held, whether or not it
    was held before, and every other tuple is held exactly if it was; when
    the service rejects the call, [revokeDocumentAccess] throws what the
    service threw (nothing catches it, unlike the check) and the tuples are
    as they were. *)
Theorem revoke_removes_that_tuple_only
    (userEmail documentId : string) (r : Relation) (w : World) :
  match client_error w with
  | Some e => revokeDocumentAccess userEmail documentId r w = (Threw e, w)
  | None =>
      match outcome_at w 0 with
      | Rejects e =>
          exists w',
            revokeDocumentAccess userEmail documentId r w = (Threw e, w') /\
            tuples (service w') = tuples (service w)
      | _ =>
          exists w',
            revokeDocumentAccess userEmail documentId r w = (Returned tt, w') /\
            check w' userEmail r documentId = false /\
            forall t, t <> tuple_of userEmail r documentId ->
                      holds t (tuples (service w')) = holds t (tuples (service w))
      end
  end.
Proof.
  assert (Hgone : forall ts,
             holds (tuple_of userEmail r documentId)
                   (remove_tuples [tuple_of userEmail r documentId] ts ++ []) = false).
  { intros ts. rewrite app_nil_r, holds_removed. now rewrite tuple_eqb_refl. }
  assert (Hkept : forall ts t,
             t <> tuple_of userEmail r documentId ->
             holds t (remove_tuples [tuple_of userEmail r documentId] ts ++ [])
             = holds t ts).
  { intros ts t Ht. rewrite app_nil_r, holds_removed. now rewrite tuple_eqb_neq. }
  destruct (client_error w) as [e|] eqn:Ec.
  { unfold revokeDocumentAccess.
    now rewrite (bind_threw _ _ _ _ _ (getFGAClient_unbuilt w e Ec)). }
  unfold revokeDocumentAccess.
  rewrite (bind_run _ _ _ _ _ (getFGAClient_built w (client_no_error_builds w Ec))).
  unfold Client_write, next_outcome.
  rewrite outcome_at_0.
  destruct (outcomes (service w)) as [|[| |e] outs]; simpl hd; cbv iota beta;
    eexists; (split; [reflexivity|]);
    try (split; [apply Hgone | apply Hkept]).
  reflexivity.
Qed.

Lemma graph_calls_after_checks c ts w :
  graph_calls (with_console c (after_checks ts w)) = graph_calls w ++ map Check ts.
Proof.
  unfold graph_calls, with_console, after_checks; simpl. rewrite flat_map_app. f_equal.
  induction ts; simpl; [reflexivity | now f_equal].
Qed.

(** X25. The batch check asks once per document and only asks. When the
    client cannot be built, [batchCheckDocumentAccess] throws what the
    constructor threw and nothing is sent. Otherwise, whatever the service
    does, it sends exactly one check of [viewer] per identifier of the list,
    in the order of the list (a rejected check does not stop the ones after
    it from being sent), and leaves the tuples and the tables as they
    were. *)
Theorem batch_check_asks_once_per_document
    (userEmail : string) (documentIds : list string) (w : World) :
  match client_error w with
  | Some e => batchCheckDocumentAccess userEmail documentIds w = (Threw e, w)
  | None =>
      graph_calls (snd (batchCheckDocumentAccess userEmail documentIds w))
        = graph_calls w
          ++ map (fun docId => Check (viewer_of userEmail docId)) documentIds /\
      tuples (service (snd (batchCheckDocumentAccess userEmail documentIds w)))
        = tuples (service w) /\
      outcomes (service (snd (batchCheckDocumentAccess userEmail documentIds w)))
        = skipn (length documentIds) (outcomes (service w)) /\
      db (snd (batchCheckDocumentAccess userEmail documentIds w)) = db w
  end.
Proof.
  destruct (client_error w) as [e|] eqn:Ec.
  { now apply batchCheckDocumentAccess_unbuilt. }
  destruct (batchCheckDocumentAccess_run userEmail documentIds w
              (client_no_error_builds w Ec)) as [logs ->].
  cbn [snd]. rewrite graph_calls_after_checks, map_map.
  split; [reflexivity|]. split; [reflexivity|]. split; [|reflexivity].
  cbn. now rewrite length_map.
Qed.

(** ** Researcher links: [researchers.ts] *)

Lemma insert_linkedResearchers_returning_run userId orcidId researcherName w :
  linked w userId orcidId = false ->
  insert_linkedResearchers_returning userId orcidId researcherName w =
    (Returned [new_link w userId orcidId researcherName],
     after_link (new_link w userId orcidId researcherName) w).
Proof.
  intros H. unfold linked in H.
  unfold insert_linkedResearchers_returning, bind, randomUUID, gets, modify,
    record_effects, ret.
  simpl. rewrite H. reflexivity.
Qed.

Lemma link_body_of req orcidId :
  present (link_orcidId req) = Some orcidId ->
  exists body, link_body req = Some body /\ present (body_orcidId body) = Some orcidId.
Proof.
  unfold link_orcidId. destruct (link_body req) as [body|]; [eauto | discriminate].
Qed.

(** A link by a known user: refused when the link is there, else committed. *)
Lemma link_run req w user userEmail orcidId :
  link_ready req w user userEmail orcidId ->
  link req w =
    if linked w (users.id user) orcidId
    then (Returned (respond 409 (Text "Researcher already linked")), w)
    else
      let r := new_link w (users.id user) orcidId (or_else (link_researcherName req) None) in
      (Returned (ok (Linked {| linked_id := linkedResearchers.id r;
                               linked_orcidId := orcidId;
                               linked_researcherName := linkedResearchers.researcherName r;
                               linked_createdAt := now w |})),
       after_link r w).
Proof.
  intros (Ho & He & Hu).
  destruct (link_body_of _ _ Ho) as [body [Hb Ho']].
  unfold link, link_researcherName. rewrite Hb, Ho', He.
  unfold try_catch, findFirst. rewrite bind_gets, Hu, bind_gets.
  unfold linked. rewrite find_existsb.
  destruct (List.find _ (t_linkedResearchers (db w))) eqn:Ef; [reflexivity|].
  rewrite (bind_run _ _ _ _ _ (insert_linkedResearchers_returning_run _ _ _ _
             ltac:(unfold linked; rewrite find_existsb, Ef; reflexivity))).
  reflexivity.
Qed.

(** Every way a link ends. *)
Lemma link_cases req w :
  (exists user userEmail orcidId,
      link_ready req w user userEmail orcidId /\
      linked w (users.id user) orcidId = false /\
      link req w =
        (Returned (ok (Linked
           {| linked_id := entropy w (drawn w); linked_orcidId := orcidId;
              linked_researcherName := or_else (link_researcherName req) None;
              linked_createdAt := now w |})),
         after_link (new_link w (users.id user) orcidId
                              (or_else (link_researcherName req) None)) w)) \/
  (exists reply, link req w = (Returned reply, w) /\ status reply <> 200) \/
  (exists e, link req w = (Threw e, w)).
Proof.
  destruct (link_body req) as [body|] eqn:Hb;
    [|right; right; unfold link; rewrite Hb; eexists; reflexivity].
  assert (Hoid : link_orcidId req = body_orcidId body)
    by (unfold link_orcidId; now rewrite Hb).
  destruct (present (body_orcidId body)) as [orcidId|] eqn:Ho;
    [|right; left; unfold link; rewrite Hb, Ho; eexists; split;
      [reflexivity | discriminate]].
  destruct (present (link_email req)) as [userEmail|] eqn:He;
    [|right; left; unfold link; rewrite Hb, Ho, He; eexists; split;
      [reflexivity | discriminate]].
  destruct (List.find (fun u => String.eqb (users.email u) userEmail) (t_users (db w)))
    as [user|] eqn:Hu.
  - assert (Hready : link_ready req w user userEmail orcidId)
      by (split; [rewrite Hoid; exact Ho | split; assumption]).
    pose proof (link_run req w user userEmail orcidId Hready) as H.
    destruct (linked w (users.id user) orcidId) eqn:El.
    + right; left. eexists. split; [exact H | discriminate].
    + left. exists user, userEmail, orcidId.
      split; [exact Hready|]. split; [exact El | exact H].
  - right; left. unfold link. rewrite Hb, Ho, He. unfold try_catch, findFirst.
    rewrite bind_gets, Hu. eexists. split; [reflexivity | discriminate].
Qed.

Lemma no_key_in_links userId orcidId rows :
  existsb (fun l => String.eqb (linkedResearchers.userId l) userId
                    && String.eqb (linkedResearchers.orcidId l) orcidId) rows = false ->
  ~ In (userId, orcidId)
       (map (fun l => (linkedResearchers.userId l, linkedResearchers.orcidId l)) rows).
Proof.
  intros H Hin. apply in_map_iff in Hin. destruct Hin as [r [Hr Hin]].
  inversion Hr; subst.
  assert (Hx : existsb (fun l => String.eqb (linkedResearchers.userId l)
                                            (linkedResearchers.userId r)
                                 && String.eqb (linkedResearchers.orcidId l)
                                               (linkedResearchers.orcidId r)) rows = true).
  { apply existsb_exists. exists r. split; [exact Hin|]. now rewrite !String.eqb_refl. }
  congruence.
Qed.

(** X26. Linking keeps one link per user and researcher, and touches nothing
    else: if no two rows of the link table have the same user and ORCID
    before a link request, none have after it; users, documents, share
    requests and access grants are as they were. *)
Theorem link_keeps_links_unique (req : LinkRequest) (w : World) :
  unique_links (db w) ->
  unique_links (db (snd (link req w))) /\
  t_users (db (snd (link req w))) = t_users (db w) /\
  t_uploadedPdfs (db (snd (link req w))) = t_uploadedPdfs (db w) /\
  t_pdfShareRequests (db (snd (link req w))) = t_pdfShareRequests (db w) /\
  t_pdfAccess (db (snd (link req w))) = t_pdfAccess (db w).
Proof.
  intros Hu.
  destruct (link_cases req w)
    as [(user & userEmail & orcidId & Hready & Hl & H)
       | [(reply & H & Hs) | (e & H)]];
    rewrite H; simpl; (split; [|repeat split]); [|exact Hu|exact Hu].
  unfold unique_links in *. simpl. rewrite map_app. simpl.
  apply NoDup_snoc; [exact Hu|]. now apply no_key_in_links.
Qed.

Lemma link_keeps_links_unique_witness :
  unique_links (db (snd (link link_alice (world_of ∅ db_linked [] [])))) /\
  t_users (db (snd (link link_alice (world_of ∅ db_linked [] [])))) = [alice; bob] /\
  t_uploadedPdfs (db (snd (link link_alice (world_of ∅ db_linked [] [])))) = [] /\
  t_pdfShareRequests (db (snd (link link_alice (world_of ∅ db_linked [] [])))) = [] /\
  t_pdfAccess (db (snd (link link_alice (world_of ∅ db_linked [] [])))) = [].
Proof.
  apply (link_keeps_links_unique link_alice (world_of ∅ db_linked [] [])).
  unfold unique_links. simpl.
  apply NoDup_cons. split; [|apply NoDup_singleton].
  intros H. apply list_elem_of_In in H. destruct H as [H|[]]. discriminate.
Defined.

(** X27. Linking twice: once a link has gone through, the same request sent
    again is answered 409 "Researcher already linked" and changes
    nothing. *)
Theorem link_twice_is_refused (req : LinkRequest) (w w1 : World) (reply : Response) :
  link req w = (Returned reply, w1) ->
  status reply = 200 ->
  link req w1 = (Returned (respond 409 (Text "Researcher already linked")), w1).
Proof.
  intros Hrun Hok.
  destruct (link_cases req w)
    as [(user & userEmail & orcidId & Hready & Hl & H)
       | [(reply' & H & Hs) | (e & H)]];
    rewrite H in Hrun; [| |discriminate];
    inversion Hrun; subst; clear Hrun; [|contradiction].
  destruct Hready as (Ho & He & Hu).
  rewrite (link_run req _ user userEmail orcidId) by (repeat split; assumption).
  unfold linked. simpl. rewrite existsb_app. simpl.
  now rewrite !String.eqb_refl, orb_true_r.
Qed.

Lemma link_twice_is_refused_witness :
  link link_alice (snd (link link_alice (world_of ∅ (db_of [] []) [] [])))
  = (Returned (respond 409 (Text "Researcher already linked")),
     snd (link link_alice (world_of ∅ (db_of [] []) [] []))).
Proof.
  eapply (link_twice_is_refused link_alice (world_of ∅ (db_of [] []) [] [])).
  - reflexivity.
  - reflexivity.
Defined.

Lemma delete_linkedResearchers_rows p w :
  exists w',
    delete_linkedResearchers p w = (Returned tt, w') /\
    db w' = set_linkedResearchers (List.filter (fun l => negb (p l))) (db w).
Proof.
  unfold delete_linkedResearchers. rewrite bind_gets, bind_modify.
  match goal with
  | |- context [record_effects ?es ?w0] =>
      destruct (record_effects_run es w0) as [w' [H (Hdb & _)]]
  end.
  exists w'. split; [exact H | exact Hdb].
Qed.

(** An unlink by the user the link belongs to. *)
Lemma unlink_researcher_run req w user userEmail researcher :
  unlink_ready req w user userEmail researcher ->
  exists w',
    unlink_researcher req w
      = (Returned (ok (Text "Researcher unlinked successfully")), w') /\
    db w' = set_linkedResearchers
              (List.filter (fun l => negb (String.eqb (linkedResearchers.id l)
                                                      (param_id req))))
              (db w).
Proof.
  intros (He & Hu & Hr).
  unfold unlink_researcher. rewrite He. cbv zeta. unfold findFirst.
  destruct (delete_linkedResearchers_rows
              (fun l => String.eqb (linkedResearchers.id l) (param_id req)) w)
    as [w' (H & Hdb)].
  exists w'. split; [|exact Hdb].
  apply try_catch_run. rewrite bind_gets, Hu, bind_gets, Hr.
  erewrite bind_run by exact H. reflexivity.
Qed.

(** Every way an unlink can go. *)
Lemma unlink_researcher_cases req w :
  (exists user userEmail researcher, unlink_ready req w user userEmail researcher) \/
  (exists reply, unlink_researcher req w = (Returned reply, w) /\ status reply <> 200).
Proof.
  destruct (present (id_email req)) as [userEmail|] eqn:He;
    [|right; unfold unlink_researcher; rewrite He; eexists; split;
      [reflexivity | discriminate]].
  destruct (List.find (fun u => String.eqb (users.email u) userEmail) (t_users (db w)))
    as [user|] eqn:Hu;
    [|right; unfold unlink_researcher; rewrite He; eexists; split;
      [apply try_catch_run; unfold findFirst; rewrite bind_gets, Hu; reflexivity
      | discriminate]].
  destruct (List.find (fun l => String.eqb (linkedResearchers.id l) (param_id req)
                                && String.eqb (linkedResearchers.userId l) (users.id user))
                      (t_linkedResearchers (db w))) as [researcher|] eqn:Hr;
    [|right; unfold unlink_researcher; rewrite He; eexists; split;
      [apply try_catch_run; unfold findFirst; cbv zeta;
       rewrite bind_gets, Hu, bind_gets, Hr; reflexivity
      | discriminate]].
  left. exists user, userEmail, researcher. repeat split; assumption.
Qed.

(** X28. A link is removed only by the user it belongs to. An unlink that
    answers 200 was sent by a known user who has a link with the given
    identifier; it removes the rows with that identifier and keeps every
    other row of the link table, and the other tables, as they were. An
    unlink that answers anything else, such as one naming another user's
    link, changes nothing. *)
Theorem unlink_is_for_the_linking_user
    (req : IdRequest) (w w' : World) (reply : Response) :
  unlink_researcher req w = (Returned reply, w') ->
  (status reply = 200 ->
   (exists user userEmail researcher, unlink_ready req w user userEmail researcher) /\
   db w' = set_linkedResearchers
             (List.filter (fun l => negb (String.eqb (linkedResearchers.id l)
                                                     (param_id req))))
             (db w) /\
   (forall l, In l (t_linkedResearchers (db w)) ->
              linkedResearchers.id l <> param_id req ->
              In l (t_linkedResearchers (db w'))) /\
   (forall l, In l (t_linkedResearchers (db w')) ->
              In l (t_linkedResearchers (db w)) /\
              linkedResearchers.id l <> param_id req)) /\
  (status reply <> 200 -> w' = w).
Proof.
  intros Hrun.
  destruct (unlink_researcher_cases req w)
    as [(user & userEmail & researcher & Hready) | (reply' & H & Hs)].
  - destruct (unlink_researcher_run _ _ _ _ _ Hready) as [w1 (H & Hdb)].
    rewrite H in Hrun. inversion Hrun; subst; clear Hrun.
    split; [intros _ | intros Hno; now contradiction Hno].
    split; [eauto|]. split; [exact Hdb|]. rewrite Hdb. simpl. split.
    + intros l Hl Hid. apply filter_In. split; [exact Hl|].
      apply negb_true_iff. now apply String.eqb_neq.
    + intros l Hl. apply filter_In in Hl. destruct Hl as [Hl Hid].
      split; [exact Hl|]. apply negb_true_iff in Hid. now apply String.eqb_neq.
  - rewrite H in Hrun. inversion Hrun; subst; clear Hrun.
    split; [intros Hok; contradiction | reflexivity].
Qed.

Lemma unlink_is_for_the_linking_user_witness :
  (status (ok (Text "Researcher unlinked successfully")) = 200 ->
   (exists user userEmail researcher,
       unlink_ready unlink_L1 (world_of ∅ db_linked [] []) user userEmail researcher) /\
   db (snd (unlink_researcher unlink_L1 (world_of ∅ db_linked [] [])))
   = set_linkedResearchers
       (List.filter (fun l => negb (String.eqb (linkedResearchers.id l)
                                               (param_id unlink_L1))))
       (db (world_of ∅ db_linked [] [])) /\
   (forall l, In l (t_linkedResearchers (db (world_of ∅ db_linked [] []))) ->
              linkedResearchers.id l <> param_id unlink_L1 ->
              In l (t_linkedResearchers
                      (db (snd (unlink_researcher unlink_L1
                                  (world_of ∅ db_linked [] [])))))) /\
   (forall l, In l (t_linkedResearchers
                      (db (snd (unlink_researcher unlink_L1
                                  (world_of ∅ db_linked [] []))))) ->
              In l (t_linkedResearchers (db (world_of ∅ db_linked [] []))) /\
              linkedResearchers.id l <> param_id unlink_L1)) /\
  (status (ok (Text "Researcher unlinked successfully")) <> 200 ->
   snd (unlink_researcher unlink_L1 (world_of ∅ db_linked [] []))
   = world_of ∅ db_linked [] []).
Proof.
  apply (unlink_is_for_the_linking_user unlink_L1 (world_of ∅ db_linked [] [])).
  reflexivity.
Defined.

(** X29. The retrieval and researcher handlers answer too, and the
    researcher handlers stay away from the authorization service: for every
    request, every world and every behaviour of the PDF reader and the
    vector store, the list, load and query handlers of [pdf-rag.ts] and the
    link and unlink handlers of [researchers.ts] return a reply and let no
    exception out; link and unlink send the authorization service nothing
    and leave its tuples as they are. For load, query and link this holds of
    requests that carry a body: the three read a field of [request.body]
    before their [try], and a request without a body makes them throw a
    [TypeError] before anything is done. *)
Theorem remaining_handlers_always_answer :
  (forall email, answers_always (rag_list email)) /\
  (forall VectorStore getTextItems fromDocuments vectorStores req,
      rag_body req <> None ->
      answers_always (rag_load VectorStore getTextItems fromDocuments vectorStores req)) /\
  (forall VectorStore similaritySearch vectorStores req,
      query_body req <> None ->
      answers_always (rag_query VectorStore similaritySearch vectorStores req)) /\
  (forall req, (link_body req <> None -> answers_always (link req))
               /\ keeps graph_untouched (link req)) /\
  (forall req, answers_always (unlink_researcher req)
               /\ keeps graph_untouched (unlink_researcher req)) /\
  (forall VectorStore getTextItems fromDocuments vectorStores req w,
      rag_body req = None ->
      exists e,
        rag_load VectorStore getTextItems fromDocuments vectorStores req w = (Threw e, w)) /\
  (forall VectorStore similaritySearch vectorStores req w,
      query_body req = None ->
      exists e, rag_query VectorStore similaritySearch vectorStores req w = (Threw e, w)) /\
  (forall req w, link_body req = None -> exists e, link req w = (Threw e, w)).
Proof.
  split; [|split; [|split; [|split; [|split; [|split; [|split]]]]]].
  - intros email. unfold rag_list. answers.
  - intros VS gti fd vs req Hb. unfold rag_load.
    destruct (rag_body req) as [body|]; [|contradiction]. answers.
  - intros VS ss vs req Hb. unfold rag_query. cbv zeta.
    destruct (query_body req) as [body|]; [|contradiction]. answers.
  - intros req. split; unfold link; [|graph_free_handler].
    intros Hb. destruct (link_body req) as [body|]; [|contradiction]. answers.
  - intros req. split; unfold unlink_researcher; cbv zeta;
      [answers | graph_free_handler].
  - intros VS gti fd vs req w Hb. unfold rag_load. rewrite Hb. eexists. reflexivity.
  - intros VS ss vs req w Hb. unfold rag_query. rewrite Hb. eexists. reflexivity.
  - intros req w Hb. unfold link. rewrite Hb. eexists. reflexivity.
Qed.

(** ** The list of pending share requests *)

Lemma pending_views_ids d requests : forall views,
  pending_views d requests = Returned views ->
  map (fun v => (share_id v, share_pdfId v)) views
  = map (fun r => (pdfShareRequests.id r, pdfShareRequests.pdfId r)) requests.
Proof.
  induction requests as [|r rest IH]; intros views H; simpl in H.
  - inversion H. reflexivity.
  - destruct (List.find _ (t_uploadedPdfs d)) as [pdf|]; [|discriminate].
    destruct (List.find _ (t_users d)) as [fromUser|]; [|discriminate].
    destruct (pending_views d rest) as [vs|e]; [|discriminate].
    inversion H; subst; clear H. simpl. f_equal. now apply IH.
Qed.

(** X30. A user is shown the share requests addressed to them and no
    others. For a known user, a list of pending requests answered with 200
    names exactly the Share Request rows whose recipient is the caller, each
    once and with the document of that row, in the order in which the query
    returned them (the query has no [orderBy]); the handler changes
    nothing. *)
Theorem pending_requests_are_the_caller_s
    (email : option string) (userEmail : string) (user : users.row)
    (w w' : World) (reply : Response) :
  present email = Some userEmail ->
  List.find (fun u => String.eqb (users.email u) userEmail) (t_users (db w)) = Some user ->
  share_requests email w = (Returned reply, w') ->
  status reply = 200 ->
  w' = w /\
  exists views,
    payload reply = PendingShares views /\
    Permutation
      (map (fun v => (share_id v, share_pdfId v)) views)
      (map (fun r => (pdfShareRequests.id r, pdfShareRequests.pdfId r))
           (List.filter (fun r => String.eqb (pdfShareRequests.toUserId r) (users.id user))
                        (t_pdfShareRequests (db w)))).
Proof.
  intros He Hu Hrun Hok. unfold share_requests in Hrun. rewrite He in Hrun.
  unfold try_catch, findFirst, findMany in Hrun.
  rewrite bind_gets, Hu, bind_gets, bind_gets in Hrun. unfold bind, lift in Hrun.
  destruct (pending_views (db w) _) as [views|e] eqn:Ev.
  - inversion Hrun; subst; clear Hrun. split; [reflexivity|].
    exists views. split; [reflexivity|].
    rewrite (pending_views_ids _ _ _ Ev).
    apply Permutation_map, arranged_perm.
  - inversion Hrun; subst; clear Hrun. discriminate.
Qed.

Lemma pending_requests_are_the_caller_s_witness :
  world_of ∅ db_shared [] [] = world_of ∅ db_shared [] [] /\
  exists views,
    payload (match fst (share_requests (Some "bob@example.org")
                          (world_of ∅ db_shared [] [])) with
             | Returned r => r
             | Threw _ => respond 500 (Text "")
             end) = PendingShares views /\
    Permutation
      (map (fun v => (share_id v, share_pdfId v)) views)
      (map (fun r => (pdfShareRequests.id r, pdfShareRequests.pdfId r))
           (List.filter (fun r => String.eqb (pdfShareRequests.toUserId r) (users.id bob))
                        (t_pdfShareRequests (db (world_of ∅ db_shared [] []))))).
Proof.
  apply (pending_requests_are_the_caller_s (Some "bob@example.org") "bob@example.org" bob
           (world_of ∅ db_shared [] []) (world_of ∅ db_shared [] [])).
  - reflexivity.
  - reflexivity.
  - reflexivity.
  - reflexivity.
Defined.

(** ** Without a store identifier, at every call site *)



